(** * rasterio.features: geometry validation, rasterization, windows

    A shallow embedding of [rasterio/features.py].  GeoJSON-like inputs
    are Python values; a Python call either returns a value or raises,
    which the [result] type records. *)

From Stdlib Require Import ZArith QArith Qround Qminmax Qabs Qpower Qfield.
From Stdlib Require Import List String Ascii Bool Lia Lqa Sorted.
From Stdlib Require Import Floats.
From Stdlib Require Import DecimalString DecimalNat.
Import ListNotations.
Close Scope Q_scope.
Close Scope Z_scope.
Open Scope string_scope.
Open Scope list_scope.
Set Warnings "-register-all".

(** ** Python values and exceptions *)

Module Py.

(** A Python number: an [int] or a (finite) [float], the latter as the
    rational it denotes. *)
Inductive number :=
  | Int (z : Z)
  | Flt (q : Q).

(** The Python objects that reach the functions of this file: JSON-like
    data, and [PObj j], an object whose [__geo_interface__] attribute
    is [j].  Tuples and lists are both [PList].  A string is the
    sequence of its characters, one [ascii] for each: its characters
    are taken among the first 256 code points, so that its length is
    the number of its characters. *)
Inductive pyval :=
  | PNone
  | PBool (b : bool)
  | PNum (n : number)
  | PStr (s : string)
  | PList (l : list pyval)
  | PDict (kvs : list (string * pyval))
  | PObj (geo : pyval).

(** The exceptions a call of this file can end with.  Every [raise] of
    [rasterize] is a [ValueError]; its payload tells the messages
    apart. *)
Inductive value_error :=
  | InvalidDtype (param : string)
      (* '{param} dtype must be one of: int16, int32, ...' *)
  | CastError (param : string) (dtype : string)
      (* '{param} cannot be cast to specified dtype: {dtype}' *)
  | NoValidGeometry
      (* 'No valid geometry objects found for rasterize' *)
  | OutShapeNot2D
      (* 'Invalid out_shape, must be 2D' *)
  | NoOutput
      (* 'Either an out_shape or image must be provided' *)
  | ZeroSize
      (* 'width and height must be > 0' *)
  | Unpack
      (* tuple unpacking of a sequence of the wrong length *)
  | NanToInteger.
      (* 'cannot convert float NaN to integer' *)

Inductive exn :=
  | TypeError
  | KeyError
  | IndexError
  | AttributeError
  | ValueError (e : value_error)
  | WindowError
  | TransformNotInvertibleError
  | ZeroDivisionError
  | OverflowError.

Inductive result (A : Type) :=
  | Ok (a : A)
  | Raise (e : exn).
Arguments Ok {A} a.
Arguments Raise {A} e.

Definition bind {A B} (m : result A) (k : A -> result B) : result B :=
  match m with
  | Ok a => k a
  | Raise e => Raise e
  end.

Notation "x <- m ;; k" := (bind m (fun x => k))
  (at level 61, m at next level, right associativity).

(** Python's [a and b] on booleans, where evaluating either side may
    raise; [b] is only looked at when [a] is true. *)
Definition and_then (a b : result bool) : result bool :=
  x <- a ;; if x then b else Ok false.

(** [d[k]] and [k in d] for a dict. *)
Fixpoint dict_get (k : string) (kvs : list (string * pyval)) : option pyval :=
  match kvs with
  | [] => None
  | (k', v) :: rest => if String.eqb k k' then Some v else dict_get k rest
  end.

(** The same lookup with the continuation inside, so that a recursive
    function may descend into the value found. *)
Definition with_key {A} (k : string) (found : pyval -> A) (missing : A)
  : list (string * pyval) -> A :=
  fix go kvs :=
    match kvs with
    | [] => missing
    | (k', v) :: rest => if String.eqb k k' then found v else go rest
    end.

(** [len(x)]. *)
Definition py_len (x : pyval) : result nat :=
  match x with
  | PStr s => Ok (String.length s)
  | PList l => Ok (List.length l)
  | PDict kvs => Ok (List.length kvs)
  | _ => Raise TypeError
  end.

(** [x[0]]: dict keys are strings, so an integer key is never there. *)
Definition py_item0 (x : pyval) : result pyval :=
  match x with
  | PList [] => Raise IndexError
  | PList (v :: _) => Ok v
  | PStr EmptyString => Raise IndexError
  | PStr (String c _) => Ok (PStr (String c EmptyString))
  | PDict _ => Raise KeyError
  | _ => Raise TypeError
  end.

Definition to_Q (v : number) : Q :=
  match v with
  | Int z => inject_Z z
  | Flt q => q
  end.

(** [a == b] on numbers: [1 == 1.0] holds. *)
Definition num_eqb (a b : number) : bool := Qeq_bool (to_Q a) (to_Q b).

(** [a + b]: an [int] when both are. *)
Definition num_add (a b : number) : number :=
  match a, b with
  | Int x, Int y => Int (x + y)
  | _, _ => Flt (to_Q a + to_Q b)
  end.

(** Truth value of an object, as [or] tests it. *)
Definition truthy (x : pyval) : bool :=
  match x with
  | PNone => false
  | PBool b => b
  | PNum n => negb (num_eqb n (Int 0))
  | PStr s => negb (String.eqb s "")
  | PList l => match l with [] => false | _ => true end
  | PDict kvs => match kvs with [] => false | _ => true end
  | PObj _ => true
  end.

(** [getattr(geom, '__geo_interface__', None) or geom]. *)
Definition geo_interface (geom : pyval) : pyval :=
  match geom with
  | PObj j => if truthy j then j else geom
  | _ => geom
  end.

(** [needle in hay] on two strings. *)
Fixpoint substring (needle hay : string) : bool :=
  if String.prefix needle hay then true
  else match hay with
       | EmptyString => false
       | String _ rest => substring needle rest
       end.

Definition is_str (s : string) (x : pyval) : bool :=
  match x with PStr s' => String.eqb s s' | _ => false end.

(** The elements a [for] loop over [x] visits. *)
Fixpoint chars (s : string) : list pyval :=
  match s with
  | EmptyString => []
  | String c rest => PStr (String c EmptyString) :: chars rest
  end.

Definition py_iter (x : pyval) : result (list pyval) :=
  match x with
  | PList l => Ok l
  | PStr s => Ok (chars s)
  | PDict kvs => Ok (map (fun kv => PStr (fst kv)) kvs)
  | _ => Raise TypeError
  end.

(** A call that emits warnings before it returns or raises: the
    indices warned about, in order, and the outcome. *)
Definition M (A : Type) : Type := list nat * result A.

Definition retM {A} (a : A) : M A := ([], Ok a).

Definition lift {A} (r : result A) : M A := ([], r).

Definition warn (index : nat) : M unit := ([index], Ok tt).

Definition bindM {A B} (m : M A) (k : A -> M B) : M B :=
  match snd m with
  | Ok a => (fst m ++ fst (k a), snd (k a))
  | Raise e => (fst m, Raise e)
  end.

Notation "x <~ m ;; k" := (bindM m (fun x => k))
  (at level 61, m at next level, right associativity).

End Py.

(** ** GeometryValidator: [is_valid_geom] *)

Module Validator.
Import Py.

Definition geom_types : list string :=
  ["Point"; "MultiPoint"; "LineString"; "LinearRing";
   "MultiLineString"; "Polygon"; "MultiPolygon"].

Definition str_in (s : string) (l : list string) : bool :=
  existsb (String.eqb s) l.

(** The [try] block on a mapping: [Some t] when [geom['type']] is the
    recognised name [t], [None] where the function returns [False] (no
    ['type'] key, a value that is not one of the names, or an
    unhashable value, whose [TypeError] is caught). *)
Definition recognised_type (kvs : list (string * pyval)) : option string :=
  match dict_get "type" kvs with
  | Some (PStr t) =>
      if str_in t (geom_types ++ ["GeometryCollection"]) then Some t else None
  | _ => None
  end.

(** The checks on [coords = geom['coordinates']], one per leaf type. *)
Definition len_ge (x : result pyval) (n : nat) : result bool :=
  v <- x ;; k <- py_len v ;; Ok (Nat.leb n k).

Definition item0 (x : result pyval) : result pyval :=
  v <- x ;; py_item0 v.

Definition coords_valid (geom_type : string) (coords : pyval) : result bool :=
  let c := Ok coords in
  if String.eqb geom_type "Point" then
    len_ge c 2
  else if String.eqb geom_type "MultiPoint" then
    and_then (len_ge c 1) (len_ge (item0 c) 2)
  else if String.eqb geom_type "LineString" then
    and_then (len_ge c 2) (len_ge (item0 c) 2)
  else if String.eqb geom_type "LinearRing" then
    and_then (len_ge c 4) (len_ge (item0 c) 2)
  else if String.eqb geom_type "MultiLineString" then
    and_then (len_ge c 1)
      (and_then (len_ge (item0 c) 2) (len_ge (item0 (item0 c)) 2))
  else if String.eqb geom_type "Polygon" then
    and_then (len_ge c 1)
      (and_then (len_ge (item0 c) 4) (len_ge (item0 (item0 c)) 2))
  else if String.eqb geom_type "MultiPolygon" then
    and_then (len_ge c 1)
      (and_then (len_ge (item0 c) 1)
         (and_then (len_ge (item0 (item0 c)) 4)
                   (len_ge (item0 (item0 (item0 c))) 2)))
  else Ok true.

(** The [for g in geom['geometries']] loop over a list of members, with
    the validity check of a member as a parameter. *)
Definition all_valid (valid : pyval -> result bool)
  : list pyval -> result bool :=
  fix loop gs :=
    match gs with
    | [] => Ok true
    | g :: rest => b <- valid g ;; if b then loop rest else Ok false
    end.

Fixpoint is_valid_geom (geom : pyval) : result bool :=
  match geo_interface geom with
  | PDict kvs =>
      match recognised_type kvs with
      | None => Ok false
      | Some geom_type =>
          if str_in geom_type geom_types then
            match dict_get "coordinates" kvs with
            | None => Ok false
            | Some coords => coords_valid geom_type coords
            end
          else
            (* geom_type == 'GeometryCollection' *)
            with_key "geometries"
              (fun geometries =>
                 match geometries with
                 | PList [] => Ok false
                 | PList gs => all_valid is_valid_geom gs
                 | PStr _ | PDict _ =>
                     (* empty, or the first element iterated over is a
                        string, which is not a valid geometry *)
                     Ok false
                 | _ => Raise TypeError   (* len() of a non-container *)
                 end)
              (Ok false)
              kvs
      end
  | PList _ | PStr _ =>
      (* either 'type' is not in geom, or geom['type'] is a TypeError,
         which is caught *)
      Ok false
  | _ => Raise TypeError      (* 'type' not in geom: not a container *)
  end.

(** *** Structural defects

    The inputs the check has to reject: a mapping [kvs] without a
    recognised type, without its coordinates or members, or whose
    coordinate arrays are too short for its type. *)

(** A coordinate array with fewer than [n] elements. *)
Definition shorter_than (n : nat) (x : pyval) : Prop :=
  exists l, x = PList l /\ List.length l < n.

(** Polygon coordinates with no ring, or whose ring has fewer than four
    coordinates. *)
Definition bad_polygon (x : pyval) : Prop :=
  x = PList [] \/
  exists ring rest, x = PList (PList ring :: rest) /\ List.length ring < 4.

(** The coordinate arrays that miss the minimum cardinality of type
    [t]; for a Multi* type no member reaches the cardinality of the
    member type. *)
Definition too_short (t : string) (coords : pyval) : Prop :=
  (t = "Point" /\ shorter_than 2 coords)
  \/ (t = "LineString" /\ shorter_than 2 coords)
  \/ (t = "LinearRing" /\ shorter_than 4 coords)
  \/ (t = "Polygon" /\ bad_polygon coords)
  \/ (t = "MultiPoint" /\
        exists l, coords = PList l /\ Forall (shorter_than 2) l)
  \/ (t = "MultiLineString" /\
        exists l, coords = PList l /\ Forall (shorter_than 2) l)
  \/ (t = "MultiPolygon" /\
        exists l, coords = PList l /\ Forall bad_polygon l).

Inductive defect (kvs : list (string * pyval)) : Prop :=
  | missing_type :
      dict_get "type" kvs = None -> defect kvs
  | unrecognised_type v :
      dict_get "type" kvs = Some v ->
      (forall t, v = PStr t ->
                 str_in t (geom_types ++ ["GeometryCollection"]) = false) ->
      defect kvs
  | missing_coordinates t :
      dict_get "type" kvs = Some (PStr t) ->
      str_in t geom_types = true ->
      dict_get "coordinates" kvs = None ->
      defect kvs
  | missing_geometries :
      dict_get "type" kvs = Some (PStr "GeometryCollection") ->
      dict_get "geometries" kvs = None ->
      defect kvs
  | short_coordinates t coords :
      dict_get "type" kvs = Some (PStr t) ->
      dict_get "coordinates" kvs = Some coords ->
      too_short t coords ->
      defect kvs.

(** *** Unfolding lemmas *)

Lemma with_key_dict_get {A} (k : string) (found : pyval -> A) (missing : A) kvs :
  with_key k found missing kvs
  = match dict_get k kvs with Some v => found v | None => missing end.
Proof.
  induction kvs as [|[k' v] rest IH]; simpl; [reflexivity|].
  destruct (String.eqb k k'); [reflexivity | exact IH].
Qed.

(** The members loop on a list of geometries. *)
Definition members_valid (geometries : pyval) : result bool :=
  match geometries with
  | PList [] => Ok false
  | PList gs => all_valid is_valid_geom gs
  | PStr _ | PDict _ => Ok false
  | _ => Raise TypeError
  end.

Lemma is_valid_geom_dict kvs :
  is_valid_geom (PDict kvs)
  = match recognised_type kvs with
    | None => Ok false
    | Some geom_type =>
        if str_in geom_type geom_types then
          match dict_get "coordinates" kvs with
          | None => Ok false
          | Some coords => coords_valid geom_type coords
          end
        else
          match dict_get "geometries" kvs with
          | None => Ok false
          | Some geometries => members_valid geometries
          end
    end.
Proof.
  cbn [is_valid_geom geo_interface].
  destruct (recognised_type kvs) as [t|]; [|reflexivity].
  destruct (str_in t geom_types); [reflexivity|].
  rewrite with_key_dict_get. reflexivity.
Qed.

Lemma is_valid_geom_obj kvs :
  kvs <> [] -> is_valid_geom (PObj (PDict kvs)) = is_valid_geom (PDict kvs).
Proof.
  intros H. destruct kvs as [|kv rest]; [congruence|]. reflexivity.
Qed.

Lemma all_valid_app valid pre g post :
  Forall (fun m => valid m = Ok true) pre ->
  all_valid valid (pre ++ g :: post)
  = (b <- valid g ;; if b then all_valid valid post else Ok false).
Proof.
  induction 1 as [|m pre Hm _ IH]; [reflexivity|].
  cbn [app all_valid]. rewrite Hm. exact IH.
Qed.

Lemma all_valid_true valid gs :
  all_valid valid gs = Ok true <-> Forall (fun m => valid m = Ok true) gs.
Proof.
  induction gs as [|g rest IH]; cbn [all_valid].
  - split; [constructor | reflexivity].
  - destruct (valid g) as [[|]|e] eqn:Hg; cbn [bind].
    + rewrite IH. split; [intros H; constructor; assumption|].
      inversion 1; assumption.
    + split; [discriminate|]. inversion 1; congruence.
    + split; [discriminate|]. inversion 1; congruence.
Qed.

(** The loop answers [False] exactly when it meets an invalid member
    after valid ones only. *)
Lemma all_valid_false valid gs :
  all_valid valid gs = Ok false <->
  exists pre g post, gs = pre ++ g :: post
    /\ Forall (fun m => valid m = Ok true) pre /\ valid g = Ok false.
Proof.
  induction gs as [|g rest IH]; cbn [all_valid].
  - split; [discriminate|]. intros (pre & g & post & H & _).
    destruct pre; discriminate.
  - destruct (valid g) as [[|]|e] eqn:Hg; cbn [bind].
    + rewrite IH. split.
      * intros (pre & g' & post & -> & Hpre & Hg').
        exists (g :: pre), g', post. repeat split; auto.
      * intros (pre & g' & post & Heq & Hpre & Hg').
        destruct pre as [|m pre]; cbn [app] in Heq; inversion Heq; subst.
        -- congruence.
        -- inversion Hpre; subst. exists pre, g', post. auto.
    + split; [intros _|reflexivity].
      exists [], g, rest. repeat split; auto.
    + split; [discriminate|].
      intros (pre & g' & post & Heq & Hpre & Hg').
      destruct pre as [|m pre]; cbn [app] in Heq; inversion Heq; subst.
      * congruence.
      * inversion Hpre; congruence.
Qed.

Lemma all_valid_total valid gs :
  (forall m, In m gs -> exists b, valid m = Ok b) ->
  exists b, all_valid valid gs = Ok b.
Proof.
  induction gs as [|g rest IH]; intros H; cbn [all_valid].
  - eexists; reflexivity.
  - destruct (H g (or_introl eq_refl)) as [[|] ->]; cbn [bind].
    + apply IH. intros m Hm. apply H. right; exact Hm.
    + eexists; reflexivity.
Qed.

(** *** GeometryCollection *)

(** The amended C4.  For a mapping of type GeometryCollection whose
    ['geometries'] is the sequence [gs]: [is_valid_geom] answers [False] exactly when
    [gs] is empty or the loop meets an invalid member after valid ones
    only, whatever follows it (the loop stops there); when the
    check of every member returns, it returns too, [False] exactly
    when [gs] is empty or some member is invalid, [True] exactly when
    [gs] is not empty and every member is valid; and a member whose
    check raises after valid ones only makes the check raise that
    exception. *)
Theorem is_valid_geom_collection kvs gs :
  dict_get "type" kvs = Some (PStr "GeometryCollection") ->
  dict_get "geometries" kvs = Some (PList gs) ->
  (is_valid_geom (PDict kvs) = Ok false <->
     gs = [] \/
     exists pre g post, gs = pre ++ g :: post
       /\ Forall (fun m => is_valid_geom m = Ok true) pre
       /\ is_valid_geom g = Ok false)
  /\ ((forall m, In m gs -> exists b, is_valid_geom m = Ok b) ->
      (exists b, is_valid_geom (PDict kvs) = Ok b)
      /\ (is_valid_geom (PDict kvs) = Ok false <->
            gs = [] \/ exists m, In m gs /\ is_valid_geom m = Ok false)
      /\ (is_valid_geom (PDict kvs) = Ok true <->
            gs <> [] /\ forall m, In m gs -> is_valid_geom m = Ok true))
  /\ (forall pre g post e,
        gs = pre ++ g :: post ->
        Forall (fun m => is_valid_geom m = Ok true) pre ->
        is_valid_geom g = Raise e ->
        is_valid_geom (PDict kvs) = Raise e).
Proof.
  intros Hty Hgs.
  assert (Hdict : is_valid_geom (PDict kvs)
                  = match gs with [] => Ok false
                    | _ => all_valid is_valid_geom gs end).
  { rewrite is_valid_geom_dict. unfold recognised_type. rewrite Hty.
    cbn -[dict_get]. rewrite Hgs. reflexivity. }
  assert (Hshort : is_valid_geom (PDict kvs) = Ok false <->
     gs = [] \/
     exists pre g post, gs = pre ++ g :: post
       /\ Forall (fun m => is_valid_geom m = Ok true) pre
       /\ is_valid_geom g = Ok false).
  { rewrite Hdict. destruct gs as [|g0 rest].
    - split; auto.
    - rewrite all_valid_false. split; [auto|].
      intros [H|H]; [discriminate | exact H]. }
  assert (Hraise : forall pre g post e,
             gs = pre ++ g :: post ->
             Forall (fun m => is_valid_geom m = Ok true) pre ->
             is_valid_geom g = Raise e ->
             is_valid_geom (PDict kvs) = Raise e).
  { intros pre g post e Heq Hpre Hg. rewrite Hdict, Heq.
    rewrite (all_valid_app _ _ _ _ Hpre), Hg.
    destruct pre; reflexivity. }
  split; [exact Hshort|]. split; [|exact Hraise].
  intros Htot. split; [|split].
  - rewrite Hdict. destruct gs as [|g0 rest]; [eexists; reflexivity|].
    apply all_valid_total. exact Htot.
  - rewrite Hshort. split.
    + intros [H|(pre & g & post & -> & _ & Hg)]; [left; exact H|].
      right. exists g. split; [|exact Hg].
      apply in_or_app. right. left. reflexivity.
    + intros [H|(m & Hin & Hm)]; [left; exact H|]. right.
      clear Hdict Hshort Hgs Hraise.
      induction gs as [|g rest IH]; [destruct Hin|].
      destruct (Htot g (or_introl eq_refl)) as [[|] Hg].
      * destruct Hin as [->|Hin]; [congruence|].
        destruct IH as (pre & g' & post & -> & Hpre & Hg').
        -- intros x Hx. apply Htot. right; exact Hx.
        -- exact Hin.
        -- exists (g :: pre), g', post. repeat split; auto.
      * exists [], g, rest. repeat split; auto.
  - rewrite Hdict. destruct gs as [|g0 rest].
    + split; [discriminate|]. intros [H _]. congruence.
    + rewrite all_valid_true, Forall_forall. split.
      * intros H. split; [discriminate | exact H].
      * intros [_ H]. exact H.
Qed.

(** A collection of a point, a line that is too short, and a member
    that is not a mapping at all: the loop stops at the line. *)
Definition point_xy : pyval :=
  PDict [("type", PStr "Point");
         ("coordinates", PList [PNum (Int 1); PNum (Int 2)])].

Definition short_line : pyval :=
  PDict [("type", PStr "LineString");
         ("coordinates", PList [PList [PNum (Int 0); PNum (Int 0)]])].

Definition collection_of (gs : list pyval) : list (string * pyval) :=
  [("type", PStr "GeometryCollection"); ("geometries", PList gs)].

Lemma is_valid_geom_collection_witness :
  is_valid_geom (PDict (collection_of [point_xy; short_line; PNone])) = Ok false
  /\ is_valid_geom (PDict (collection_of [point_xy; point_xy])) = Ok true.
Proof.
  split.
  - apply (proj1 (is_valid_geom_collection
                    (collection_of [point_xy; short_line; PNone])
                    [point_xy; short_line; PNone] eq_refl eq_refl)).
    right. exists [point_xy], short_line, [PNone].
    repeat split. constructor; [reflexivity | constructor].
  - pose proof (proj1 (proj2 (is_valid_geom_collection
                    (collection_of [point_xy; point_xy])
                    [point_xy; point_xy] eq_refl eq_refl))) as H.
    apply H.
    + intros m [<-|[<-|[]]]; exists true; reflexivity.
    + split; [discriminate|]. intros m [<-|[<-|[]]]; reflexivity.
Defined.

(** *** Rejection of malformed mappings *)

Lemma len_ge_short n x k :
  shorter_than n x -> n <= k -> len_ge (Ok x) k = Ok false.
Proof.
  intros (l & -> & Hl) Hk. unfold len_ge. cbn [bind py_len].
  f_equal. apply Nat.leb_gt. lia.
Qed.

(** The first element [l] inspected is shorter than [n]: the conjunction
    stops there. *)
Ltac short_first n l H :=
  unfold and_then, len_ge, item0; cbn [bind py_len py_item0 length];
  replace (Nat.leb n (List.length l)) with false
    by (symmetry; apply Nat.leb_gt; exact H);
  reflexivity.

Lemma coords_valid_too_short t coords :
  too_short t coords -> coords_valid t coords = Ok false.
Proof.
  intros [[-> H]|[[-> H]|[[-> H]|[[-> H]|[[-> H]|[[-> H]|[-> H]]]]]]];
    unfold coords_valid; cbn [String.eqb Ascii.eqb Bool.eqb].
  - apply (len_ge_short 2); [exact H | lia].
  - rewrite (len_ge_short 2 coords 2 H); [reflexivity | lia].
  - rewrite (len_ge_short 4 coords 4 H); [reflexivity | lia].
  - destruct H as [->|(ring & rest & -> & Hr)]; [reflexivity|].
    short_first 4 ring Hr.
  - destruct H as (l & -> & Hl).
    destruct Hl as [|m l (p & -> & Hp) _]; [reflexivity|].
    short_first 2 p Hp.
  - destruct H as (l & -> & Hl).
    destruct Hl as [|m l (p & -> & Hp) _]; [reflexivity|].
    short_first 2 p Hp.
  - destruct H as (l & -> & Hl).
    destruct Hl as [|m l Hm _]; [reflexivity|].
    destruct Hm as [->|(ring & rest & -> & Hr)]; [reflexivity|].
    short_first 4 ring Hr.
Qed.

Lemma too_short_leaf_type t coords :
  too_short t coords -> str_in t geom_types = true.
Proof.
  intros [[-> _]|[[-> _]|[[-> _]|[[-> _]|[[-> _]|[[-> _]|[-> _]]]]]]];
    reflexivity.
Qed.

Lemma str_in_app_l s l1 l2 :
  str_in s l1 = true -> str_in s (l1 ++ l2) = true.
Proof.
  unfold str_in. rewrite existsb_app. intros ->. reflexivity.
Qed.

(** C9.  On a mapping with a structural defect (no ['type'] key, an
    unrecognised type, no ['coordinates'] or ['geometries'] key, or
    coordinate arrays below the minimum cardinality of the type)
    [is_valid_geom] returns [False] and does not raise; the same holds
    for an object whose [__geo_interface__] is such a mapping, when the
    mapping is not empty. *)
Theorem is_valid_geom_rejects_defects kvs :
  defect kvs ->
  is_valid_geom (PDict kvs) = Ok false
  /\ (kvs <> [] -> is_valid_geom (PObj (PDict kvs)) = Ok false).
Proof.
  intros Hd.
  assert (H : is_valid_geom (PDict kvs) = Ok false).
  { rewrite is_valid_geom_dict. unfold recognised_type.
    destruct Hd as [Hty | v Hty Hv | t Hty Ht Hc | Hty Hg | t coords Hty Hc Hs];
      rewrite Hty.
    - reflexivity.
    - destruct v; try reflexivity. rewrite (Hv s eq_refl). reflexivity.
    - rewrite (str_in_app_l _ _ _ Ht), Ht, Hc. reflexivity.
    - cbn -[dict_get]. rewrite Hg. reflexivity.
    - pose proof (too_short_leaf_type _ _ Hs) as Ht.
      rewrite (str_in_app_l _ _ _ Ht), Ht, Hc.
      apply coords_valid_too_short. exact Hs. }
  split; [exact H|].
  intros Hne. rewrite is_valid_geom_obj; assumption.
Qed.

(** One mapping per class of defect. *)
Definition defective_examples : list (list (string * pyval)) :=
  [ [("coordinates", PList [PNum (Int 1); PNum (Int 2)])];
    [("type", PStr "Circle"); ("coordinates", PList [])];
    [("type", PList [PStr "Point"])];
    [("type", PStr "Polygon")];
    [("type", PStr "GeometryCollection")];
    [("type", PStr "Point"); ("coordinates", PList [PNum (Int 1)])];
    [("type", PStr "MultiPolygon");
     ("coordinates", PList [PList [PList [PList [PNum (Int 0); PNum (Int 0)]]]])] ].

Lemma is_valid_geom_rejects_defects_witness :
  Forall (fun kvs => is_valid_geom (PDict kvs) = Ok false
                     /\ is_valid_geom (PObj (PDict kvs)) = Ok false)
         defective_examples.
Proof.
  assert (step : forall kvs, defect kvs -> kvs <> [] ->
            is_valid_geom (PDict kvs) = Ok false
            /\ is_valid_geom (PObj (PDict kvs)) = Ok false).
  { intros kvs Hd Hne.
    destruct (is_valid_geom_rejects_defects kvs Hd) as [H1 H2].
    split; [exact H1 | exact (H2 Hne)]. }
  unfold defective_examples.
  repeat (apply Forall_cons; [apply step; [|discriminate]|]);
    [ | | | | | | | apply Forall_nil].
  - apply missing_type. reflexivity.
  - apply (unrecognised_type _ (PStr "Circle")); [reflexivity|].
    intros t Ht. injection Ht as <-. reflexivity.
  - apply (unrecognised_type _ (PList [PStr "Point"])); [reflexivity|].
    intros t Ht. discriminate.
  - apply (missing_coordinates _ "Polygon"); reflexivity.
  - apply missing_geometries; reflexivity.
  - apply (short_coordinates _ "Point" (PList [PNum (Int 1)]));
      [reflexivity | reflexivity |].
    left. split; [reflexivity|]. eexists. split; [reflexivity | simpl; lia].
  - eapply (short_coordinates _ "MultiPolygon"); [reflexivity | reflexivity |].
    do 6 right. split; [reflexivity|]. eexists. split; [reflexivity|].
    constructor; [|constructor]. right. do 2 eexists.
    split; [reflexivity | simpl; lia].
Defined.

(** A MultiPoint whose coordinates are a flat pair of numbers has no
    valid member, yet the check does not answer: [len(coords[0])] is
    the length of a number. *)
Definition flat_multipoint : pyval :=
  PDict [("type", PStr "MultiPoint");
         ("coordinates", PList [PNum (Int 10); PNum (Int 20)])].

Lemma is_valid_geom_flat_multipoint_raises :
  is_valid_geom flat_multipoint = Raise TypeError
  /\ is_valid_geom flat_multipoint <> Ok false.
Proof. split; [reflexivity | discriminate]. Qed.

(** C4 as the spec states it fails on a collection whose first member
    makes the check raise and whose second member is invalid: a
    member is invalid, yet the answer is not [False], the exception
    of the first member comes out. *)
Lemma is_valid_geom_collection_member_raises :
  let gs := [flat_multipoint; short_line] in
  is_valid_geom short_line = Ok false
  /\ is_valid_geom (PDict (collection_of gs)) = Raise TypeError
  /\ ~ (is_valid_geom (PDict (collection_of gs)) = Ok false
        <-> gs = [] \/ exists m, In m gs /\ is_valid_geom m = Ok false).
Proof.
  cbv zeta. split; [reflexivity|]. split; [reflexivity|].
  intros [_ H].
  assert (Hf : is_valid_geom
                 (PDict (collection_of [flat_multipoint; short_line]))
               = Ok false).
  { apply H. right. exists short_line.
    split; [right; left; reflexivity | reflexivity]. }
  discriminate Hf.
Qed.

(** *** What a valid geometry looks like *)

Lemma is_valid_geom_unwrap geom :
  is_valid_geom geom
  = match geo_interface geom with
    | PDict kvs => is_valid_geom (PDict kvs)
    | PList _ | PStr _ => Ok false
    | _ => Raise TypeError
    end.
Proof.
  destruct geom; reflexivity.
Qed.

Lemma len_ge_true x k :
  len_ge (Ok x) (S k) = Ok true -> exists n, py_len x = Ok (S n).
Proof.
  unfold len_ge. cbn [bind]. destruct (py_len x) as [[|n]|e]; cbn [bind];
    try discriminate.
  intros _. exists n. reflexivity.
Qed.

Lemma and_then_true a b : and_then a b = Ok true -> a = Ok true.
Proof.
  unfold and_then. destruct a as [[|]|e]; cbn [bind]; congruence.
Qed.

Lemma coords_valid_nonempty t coords :
  str_in t geom_types = true -> coords_valid t coords = Ok true ->
  exists n, py_len coords = Ok (S n).
Proof.
  intros Ht. unfold coords_valid.
  repeat match goal with
         | |- context [if String.eqb t ?s then _ else _] =>
             destruct (String.eqb_spec t s) as [->|?]
         end;
    try (intros H; first [ apply len_ge_true in H; exact H
                         | apply and_then_true, len_ge_true in H; exact H ]).
  exfalso. unfold str_in, geom_types in Ht. cbn [existsb] in Ht.
  repeat match goal with
         | H : t <> ?s |- _ =>
             apply String.eqb_neq in H; rewrite H in Ht; clear H
         end.
  discriminate.
Qed.

(** X1.  [is_valid_geom] answers [True] only for a mapping (or an object
    whose interface is one) with a recognised type, which is then not
    empty: a geometry has its ['coordinates'], of positive length, and
    a collection its ['geometries'], a sequence of at least one member,
    all of them valid. *)
Theorem is_valid_geom_true_inv geom :
  is_valid_geom geom = Ok true ->
  exists kvs t,
    geo_interface geom = PDict kvs
    /\ dict_get "type" kvs = Some (PStr t)
    /\ ((str_in t geom_types = true
         /\ exists coords n,
              dict_get "coordinates" kvs = Some coords
              /\ py_len coords = Ok (S n))
        \/ (t = "GeometryCollection"
            /\ exists g gs,
                 dict_get "geometries" kvs = Some (PList (g :: gs))
                 /\ Forall (fun m => is_valid_geom m = Ok true) (g :: gs))).
Proof.
  rewrite is_valid_geom_unwrap.
  destruct (geo_interface geom) as [| | | | |kvs|]; try discriminate.
  rewrite is_valid_geom_dict. unfold recognised_type.
  destruct (dict_get "type" kvs) as [[| | |t| | |]|] eqn:Hty; try discriminate.
  destruct (str_in t (geom_types ++ ["GeometryCollection"])) eqn:Hall;
    [|discriminate].
  intros H. exists kvs, t. split; [reflexivity|]. split; [exact Hty|].
  destruct (str_in t geom_types) eqn:Hleaf.
  - left. split; [reflexivity|].
    destruct (dict_get "coordinates" kvs) as [coords|] eqn:Hc; [|discriminate].
    destruct (coords_valid_nonempty t coords Hleaf H) as [n Hn].
    exists coords, n. auto.
  - right. unfold str_in in Hall, Hleaf. rewrite existsb_app, Hleaf in Hall.
    cbn in Hall. rewrite orb_false_r in Hall. apply String.eqb_eq in Hall.
    split; [exact Hall|].
    destruct (dict_get "geometries" kvs) as [[| | | |[|g gs]| |]|] eqn:Hgs;
      try discriminate.
    exists g, gs. split; [reflexivity|].
    apply all_valid_true. exact H.
Qed.

Lemma is_valid_geom_true_inv_witness :
  exists kvs t,
    geo_interface (PObj point_xy) = PDict kvs
    /\ dict_get "type" kvs = Some (PStr t)
    /\ ((str_in t geom_types = true
         /\ exists coords n,
              dict_get "coordinates" kvs = Some coords
              /\ py_len coords = Ok (S n))
        \/ (t = "GeometryCollection"
            /\ exists g gs,
                 dict_get "geometries" kvs = Some (PList (g :: gs))
                 /\ Forall (fun m => is_valid_geom m = Ok true) (g :: gs))).
Proof. exact (is_valid_geom_true_inv (PObj point_xy) eq_refl). Defined.


(** *** Only the first coordinate is looked at *)

(** Two coordinate arrays that agree along their first elements: the
    same value, or two sequences of the same length whose first
    elements agree in that sense. *)
Inductive same_spine : pyval -> pyval -> Prop :=
  | spine_same x : same_spine x x
  | spine_first x x' rest rest' :
      same_spine x x' -> List.length rest = List.length rest' ->
      same_spine (PList (x :: rest)) (PList (x' :: rest')).

Inductive same_spine_result : result pyval -> result pyval -> Prop :=
  | spine_ok x x' : same_spine x x' -> same_spine_result (Ok x) (Ok x')
  | spine_raise e : same_spine_result (Raise e) (Raise e).

Lemma item0_spine r r' :
  same_spine_result r r' -> same_spine_result (item0 r) (item0 r').
Proof.
  intros [x x' H|e]; [|constructor]. unfold item0. cbn [bind].
  destruct H as [x|x x' rest rest' H _].
  - destruct (py_item0 x); constructor. constructor.
  - cbn [py_item0]. constructor. exact H.
Qed.

Lemma len_ge_spine r r' k :
  same_spine_result r r' -> len_ge r k = len_ge r' k.
Proof.
  intros [x x' H|e]; [|reflexivity]. unfold len_ge. cbn [bind].
  destruct H as [x|x x' rest rest' _ Hlen]; [reflexivity|].
  cbn [py_len List.length]. rewrite Hlen. reflexivity.
Qed.

Lemma coords_valid_spine t coords coords' :
  same_spine coords coords' -> coords_valid t coords = coords_valid t coords'.
Proof.
  intros H. unfold coords_valid.
  pose proof (spine_ok _ _ H) as H0.
  pose proof (item0_spine _ _ H0) as H1.
  pose proof (item0_spine _ _ H1) as H2.
  pose proof (item0_spine _ _ H2) as H3.
  cbv zeta.
  rewrite !(fun k => len_ge_spine _ _ k H0), !(fun k => len_ge_spine _ _ k H1),
    !(fun k => len_ge_spine _ _ k H2), !(fun k => len_ge_spine _ _ k H3).
  reflexivity.
Qed.

(** X2.  The check measures a coordinate array along its first elements
    only: two geometries of the same type whose coordinates have the
    same lengths there get the same answer, whatever the other
    coordinates are. *)
Theorem is_valid_geom_first_coordinate_only kvs kvs' t coords coords' :
  dict_get "type" kvs = Some (PStr t) ->
  dict_get "type" kvs' = Some (PStr t) ->
  str_in t geom_types = true ->
  dict_get "coordinates" kvs = Some coords ->
  dict_get "coordinates" kvs' = Some coords' ->
  same_spine coords coords' ->
  is_valid_geom (PDict kvs) = is_valid_geom (PDict kvs').
Proof.
  intros Hty Hty' Ht Hc Hc' Hs. rewrite !is_valid_geom_dict.
  unfold recognised_type. rewrite Hty, Hty', (str_in_app_l _ _ _ Ht), Ht, Hc, Hc'.
  apply coords_valid_spine. exact Hs.
Qed.

(** A ring of four positions, and the same ring followed by a second
    ring that is a number: both polygons are valid. *)
Definition ring4 : pyval :=
  PList [PList [PNum (Int 0); PNum (Int 0)]; PList [PNum (Int 1)];
         PNone; PList [PNum (Int 0); PNum (Int 0)]].

Definition polygon_of (rings : list pyval) : list (string * pyval) :=
  [("type", PStr "Polygon"); ("coordinates", PList rings)].

Lemma is_valid_geom_first_coordinate_only_witness :
  is_valid_geom (PDict (polygon_of [ring4; PNum (Int 7)]))
  = is_valid_geom (PDict (polygon_of [ring4; ring4]))
  /\ is_valid_geom (PDict (polygon_of [ring4; PNum (Int 7)])) = Ok true.
Proof.
  split; [|reflexivity].
  apply (is_valid_geom_first_coordinate_only _ _ "Polygon"
           (PList [ring4; PNum (Int 7)]) (PList [ring4; ring4]));
    try reflexivity.
  apply spine_first; [apply spine_same | reflexivity].
Defined.

(** *** Keys the check does not read *)

(** X3.  The answer depends on the keys ['type'], ['coordinates'] and
    ['geometries'] only: two mappings that agree on them, whatever
    their other keys and the order of their keys, get the same
    answer. *)
Theorem is_valid_geom_other_keys kvs kvs' :
  dict_get "type" kvs = dict_get "type" kvs' ->
  dict_get "coordinates" kvs = dict_get "coordinates" kvs' ->
  dict_get "geometries" kvs = dict_get "geometries" kvs' ->
  is_valid_geom (PDict kvs) = is_valid_geom (PDict kvs')
  /\ (kvs <> [] -> kvs' <> [] ->
      is_valid_geom (PObj (PDict kvs)) = is_valid_geom (PObj (PDict kvs'))).
Proof.
  intros Ht Hc Hg.
  assert (H : is_valid_geom (PDict kvs) = is_valid_geom (PDict kvs')).
  { rewrite !is_valid_geom_dict. unfold recognised_type.
    rewrite Ht, Hc, Hg. reflexivity. }
  split; [exact H|]. intros Hne Hne'.
  rewrite !is_valid_geom_obj by assumption. exact H.
Qed.

Lemma is_valid_geom_other_keys_witness :
  is_valid_geom (PDict [("bbox", PList []); ("coordinates",
                           PList [PNum (Int 1); PNum (Int 2)]);
                        ("type", PStr "Point")])
  = is_valid_geom point_xy.
Proof.
  exact (proj1 (is_valid_geom_other_keys
           [("bbox", PList []);
            ("coordinates", PList [PNum (Int 1); PNum (Int 2)]);
            ("type", PStr "Point")]
           [("type", PStr "Point");
            ("coordinates", PList [PNum (Int 1); PNum (Int 2)])]
           eq_refl eq_refl eq_refl)).
Defined.

(** *** Collections in collections *)

(** [geom] wrapped in [n] collections of one member. *)
Fixpoint nest (n : nat) (geom : pyval) : pyval :=
  match n with
  | O => geom
  | S n' => PDict (collection_of [nest n' geom])
  end.

(** X4.  The check goes down collections of collections to any depth: a
    geometry wrapped in any number of one-member collections gets the
    answer, or the exception, of the geometry. *)
Theorem is_valid_geom_nested n geom :
  is_valid_geom (nest n geom) = is_valid_geom geom.
Proof.
  induction n as [|n IH]; [reflexivity|].
  cbn [nest]. rewrite is_valid_geom_dict.
  cbn [recognised_type collection_of dict_get String.eqb Ascii.eqb Bool.eqb
       str_in geom_types existsb app orb members_valid all_valid].
  rewrite IH. destruct (is_valid_geom geom) as [[|]|e]; reflexivity.
Qed.


(** *** The exceptions of the check *)

(** Induction over Python values, with the hypothesis for every element
    of a list and every value of a mapping. *)
Section PyvalInduction.

Variable P : pyval -> Prop.
Hypothesis HNone : P PNone.
Hypothesis HBool : forall b, P (PBool b).
Hypothesis HNum : forall n, P (PNum n).
Hypothesis HStr : forall s, P (PStr s).
Hypothesis HList : forall l, Forall P l -> P (PList l).
Hypothesis HDict : forall kvs, Forall (fun kv => P (snd kv)) kvs -> P (PDict kvs).
Hypothesis HObj : forall j, P j -> P (PObj j).

Fixpoint pyval_nested_ind (v : pyval) : P v :=
  match v with
  | PNone => HNone
  | PBool b => HBool b
  | PNum n => HNum n
  | PStr s => HStr s
  | PList l =>
      HList l ((fix all (l : list pyval) : Forall P l :=
                  match l with
                  | [] => Forall_nil P
                  | x :: rest => Forall_cons x (pyval_nested_ind x) (all rest)
                  end) l)
  | PDict kvs =>
      HDict kvs
        ((fix all (kvs : list (string * pyval))
            : Forall (fun kv => P (snd kv)) kvs :=
            match kvs with
            | [] => Forall_nil _
            | kv :: rest =>
                Forall_cons kv (pyval_nested_ind (snd kv)) (all rest)
            end) kvs)
  | PObj j => HObj j (pyval_nested_ind j)
  end.

End PyvalInduction.

Definition type_or_key_error (e : exn) : Prop := e = TypeError \/ e = KeyError.

(** A value, or an exception that is a [TypeError] or a [KeyError]. *)
Definition safe (r : result pyval) : Prop :=
  forall e, r = Raise e -> type_or_key_error e.

Lemma safe_ok x : safe (Ok x).
Proof. intros e H. discriminate H. Qed.

Lemma len_ge_safe r n e :
  safe r -> len_ge r n = Raise e -> type_or_key_error e.
Proof.
  unfold len_ge. destruct r as [x|e']; cbn [bind].
  - intros _. destruct x; cbn [py_len bind]; try discriminate;
      intros H; injection H as <-; left; reflexivity.
  - intros Hs H. injection H as <-. apply Hs. reflexivity.
Qed.

(** Indexing a value whose length is known to be positive raises
    nothing but [KeyError], on a mapping. *)
Lemma item0_safe r k :
  safe r -> len_ge r (S k) = Ok true -> safe (item0 r).
Proof.
  unfold len_ge, item0. destruct r as [x|e']; cbn [bind]; [|discriminate].
  intros _ Hg e.
  destruct x as [| | |s|l|kvs|]; cbn [py_len py_item0 bind] in *;
    try discriminate.
  - destruct s; [discriminate Hg | discriminate].
  - destruct l; [discriminate Hg | discriminate].
  - intros H. injection H as <-. right. reflexivity.
Qed.

Lemma and_then_raises a b e :
  and_then a b = Raise e ->
  a = Raise e \/ (a = Ok true /\ b = Raise e).
Proof.
  unfold and_then. destruct a as [[|]|e']; cbn [bind]; intros H;
    [right; auto | discriminate | left; exact H].
Qed.

Ltac prove_safe :=
  first [ apply safe_ok
        | eapply item0_safe; [prove_safe | eassumption] ].

Ltac guarded_chain :=
  repeat match goal with
         | H : and_then _ _ = Raise _ |- _ =>
             apply and_then_raises in H; destruct H as [H|[? H]]
         | H : len_ge _ _ = Raise _ |- _ =>
             solve [eapply len_ge_safe; [|exact H]; prove_safe]
         end.

Lemma coords_valid_raises t coords e :
  coords_valid t coords = Raise e -> type_or_key_error e.
Proof.
  unfold coords_valid. cbv zeta.
  repeat match goal with
         | |- context [if String.eqb t ?s then _ else _] =>
             destruct (String.eqb t s)
         end; try discriminate; intros H; guarded_chain.
Qed.

Lemma all_valid_raises valid gs e :
  all_valid valid gs = Raise e -> exists m, In m gs /\ valid m = Raise e.
Proof.
  induction gs as [|g rest IH]; cbn [all_valid]; [discriminate|].
  destruct (valid g) as [[|]|e'] eqn:Hg; cbn [bind].
  - intros H. destruct (IH H) as (m & Hin & Hm). exists m. split; [right|]; auto.
  - discriminate.
  - intros H. injection H as <-. exists g. split; [left; reflexivity | exact Hg].
Qed.

Lemma dict_get_In k kvs v :
  dict_get k kvs = Some v -> exists kv, In kv kvs /\ snd kv = v.
Proof.
  induction kvs as [|[k' v'] rest IH]; cbn [dict_get]; [discriminate|].
  destruct (String.eqb k k').
  - intros H. injection H as <-. exists (k', v'). split; [left|]; reflexivity.
  - intros H. destruct (IH H) as (kv & Hin & Hkv). exists kv. split; [right|]; auto.
Qed.

Lemma is_valid_geom_exn geom e :
  is_valid_geom geom = Raise e -> type_or_key_error e.
Proof.
  revert e.
  enough (H : (forall e, is_valid_geom geom = Raise e -> type_or_key_error e)
              /\ (forall l, geom = PList l ->
                    Forall (fun m => forall e, is_valid_geom m = Raise e ->
                                               type_or_key_error e) l))
    by exact (proj1 H).
  induction geom as [| b | n | s | l IH | kvs IH | j IH]
    using pyval_nested_ind.
  - split; [|discriminate]. intros e H. injection H as <-. left. reflexivity.
  - split; [|discriminate]. intros e H. injection H as <-. left. reflexivity.
  - split; [|discriminate]. intros e H. injection H as <-. left. reflexivity.
  - split; discriminate.
  - split; [discriminate|]. intros l' Hl. injection Hl as <-.
    eapply Forall_impl; [|exact IH]. intros m [Hm _]. exact Hm.
  - split; [|discriminate]. intros e. rewrite is_valid_geom_dict.
    destruct (recognised_type kvs) as [t|]; [|discriminate].
    destruct (str_in t geom_types).
    + destruct (dict_get "coordinates" kvs) as [coords|]; [|discriminate].
      apply coords_valid_raises.
    + destruct (dict_get "geometries" kvs) as [geometries|] eqn:Hg;
        [|discriminate].
      destruct (dict_get_In _ _ _ Hg) as (kv & Hin & Hkv).
      rewrite Forall_forall in IH. destruct (IH kv Hin) as [_ Hmem].
      rewrite Hkv in Hmem.
      destruct geometries as [| | | |gs| |]; cbn [members_valid];
        try discriminate;
        try (intros H; injection H as <-; left; reflexivity).
      destruct gs as [|g gs]; [discriminate|].
      intros H. apply all_valid_raises in H. destruct H as (m & Hm & He).
      specialize (Hmem _ eq_refl). rewrite Forall_forall in Hmem.
      exact (Hmem m Hm e He).
  - split; [|discriminate]. intros e. rewrite is_valid_geom_unwrap.
    cbn [geo_interface]. destruct (truthy j).
    + destruct IH as [IH _].
      destruct j; try discriminate;
        try (intros H; injection H as <-; left; reflexivity).
      apply IH.
    + intros H. injection H as <-. left. reflexivity.
Qed.

(** X5.  Whatever it is given, the check raises nothing but [TypeError]
    (the length or the membership test of something that has none) or
    [KeyError] (the first element of a mapping): the lengths it tests
    guard every index it takes, so that no [IndexError] comes out. *)
Theorem is_valid_geom_raises_type_or_key_error geom e :
  is_valid_geom geom = Raise e -> e = TypeError \/ e = KeyError.
Proof. apply is_valid_geom_exn. Qed.

Lemma is_valid_geom_raises_type_or_key_error_witness :
  (TypeError = TypeError \/ TypeError = KeyError)
  /\ (KeyError = TypeError \/ KeyError = KeyError).
Proof.
  split.
  - exact (is_valid_geom_raises_type_or_key_error flat_multipoint TypeError
             eq_refl).
  - exact (is_valid_geom_raises_type_or_key_error
             (PDict [("type", PStr "MultiPoint");
                     ("coordinates", PDict [("0", PNone)])])
             KeyError eq_refl).
Defined.


End Validator.

(** ** Numeric kinds *)

Module Dtypes.
Import Py.

(** numpy dtypes; the first seven are the ones [rasterize] accepts. *)
Inductive np_dtype :=
  | int16 | int32 | uint8 | uint16 | uint32 | float32 | float64
  | int8 | int64 | uint64 | float16 | bool_ | complex128.

(** [np.dtype(d).name]. *)
Definition dtype_name (d : np_dtype) : string :=
  match d with
  | int16 => "int16" | int32 => "int32" | uint8 => "uint8"
  | uint16 => "uint16" | uint32 => "uint32"
  | float32 => "float32" | float64 => "float64"
  | int8 => "int8" | int64 => "int64" | uint64 => "uint64"
  | float16 => "float16" | bool_ => "bool" | complex128 => "complex128"
  end.

(** The tuple [valid_dtypes] of [rasterize]. *)
Definition valid_dtypes : list string :=
  ["int16"; "int32"; "uint8"; "uint16"; "uint32"; "float32"; "float64"].

Definition in_valid_dtypes (d : np_dtype) : bool :=
  existsb (String.eqb (dtype_name d)) valid_dtypes.

Definition lattice : list np_dtype :=
  [int16; int32; uint8; uint16; uint32; float32; float64].

(** Modelled from the spec: what a dtype "can hold" ([rasterio.dtypes]
    is not among the sources).  An integer dtype holds the integers of
    its range, a float dtype the numbers of its range. *)
Definition int_range (d : np_dtype) : option (Z * Z) :=
  match d with
  | bool_ => Some (0, 1)
  | uint8 => Some (0, 255)
  | uint16 => Some (0, 65535)
  | uint32 => Some (0, 4294967295)
  | uint64 => Some (0, 18446744073709551615)
  | int8 => Some (-128, 127)
  | int16 => Some (-32768, 32767)
  | int32 => Some (-2147483648, 2147483647)
  | int64 => Some (-9223372036854775808, 9223372036854775807)
  | _ => None
  end%Z.

(** Largest finite value of a float dtype, [None] where the range is
    that of a Python float. *)
Definition float_max (d : np_dtype) : option Q :=
  match d with
  | float16 => Some (inject_Z 65504)
  | float32 => Some (inject_Z ((2 ^ 24 - 1) * 2 ^ 104))
  | _ => None
  end.

Definition holds (d : np_dtype) (v : number) : bool :=
  match int_range d with
  | Some (lo, hi) =>
      match v with
      | Int z => Z.leb lo z && Z.leb z hi
      | Flt _ => false
      end
  | None =>
      match float_max d with
      | Some m => Qle_bool (Qopp m) (to_Q v) && Qle_bool (to_Q v) m
      | None => true
      end
  end.

Definition holds_all (d : np_dtype) (vs : list number) : bool :=
  forallb (holds d) vs.

(** The order "smaller than" on the lattice: by width, unsigned before
    signed and integer before float at equal width. *)
Definition width (d : np_dtype) : nat :=
  match d with
  | uint8 | int8 | bool_ => 1
  | uint16 | int16 | float16 => 2
  | uint32 | int32 | float32 => 4
  | uint64 | int64 | float64 => 8
  | complex128 => 16
  end.

Definition rank (d : np_dtype) : nat :=
  match d with
  | uint8 => 0 | uint16 => 1 | int16 => 2 | uint32 => 3 | int32 => 4
  | float32 => 5 | float64 => 6
  | _ => 7
  end.

Definition is_float (d : np_dtype) : bool :=
  match d with float16 | float32 | float64 => true | _ => false end.

Definition is_unsigned (d : np_dtype) : bool :=
  match d with uint8 | uint16 | uint32 | uint64 => true | _ => false end.

(** [d] is the smallest member of the lattice that can hold [vs]. *)
Definition least_holding (d : np_dtype) (vs : list number) : Prop :=
  In d lattice /\ holds_all d vs = true /\
  forall d', In d' lattice -> holds_all d' vs = true -> rank d <= rank d'.

(** Modelled from the spec: [get_minimum_dtype], "computed from a
    numeric range": the bounds of the values select the first integer
    kind they fit in, unsigned when nothing is negative, and a float
    kind when a value is a float or no integer kind is wide enough. *)
Definition is_int (v : number) : bool :=
  match v with Int _ => true | Flt _ => false end.

Definition Qmin_list (vs : list number) : Q :=
  match vs with
  | [] => 0%Q
  | v :: rest => fold_left (fun m x => Qmin m (to_Q x)) rest (to_Q v)
  end.

Definition Qmax_list (vs : list number) : Q :=
  match vs with
  | [] => 0%Q
  | v :: rest => fold_left (fun m x => Qmax m (to_Q x)) rest (to_Q v)
  end.

Definition within (lo hi : Z) (vs : list number) : bool :=
  Qle_bool (inject_Z lo) (Qmin_list vs) && Qle_bool (Qmax_list vs) (inject_Z hi).

Definition get_minimum_dtype (values : list number) : np_dtype :=
  let fmax := inject_Z ((2 ^ 24 - 1) * 2 ^ 104) in
  if forallb is_int values then
    if within 0 255 values then uint8
    else if within 0 65535 values then uint16
    else if within (-32768) 32767 values then int16
    else if within 0 4294967295 values then uint32
    else if within (-2147483648) 2147483647 values then int32
    else if Qle_bool (Qopp fmax) (Qmin_list values)
            && Qle_bool (Qmax_list values) fmax then float32
    else float64
  else
    if Qle_bool (Qopp fmax) (Qmin_list values)
       && Qle_bool (Qmax_list values) fmax then float32
    else float64.

(** Modelled from the spec: [validate_dtype], "representable in the
    admissible lattice", and [can_cast_dtype], "castable into" a dtype,
    read as [rasterio.dtypes] has them.  The values come as the array
    [np.array] makes of them: integers when all of them are, floats as
    soon as one is.  [validate_dtype] accepts them when the dtype of
    that array or their minimum dtype is among the valid ones, and
    integers beyond 32 bits have no minimum dtype; [can_cast_dtype]
    accepts them when they come back from the dtype as they went,
    exactly for integers and up to the tolerance of [np.allclose] for
    floats. *)

(** A number that is [n / 2^k], as every Python float is, to the
    nearest float of precision [prec] and exponent bound [emax], the
    one with an even significand of the two when it is half way;
    [None] beyond the range of these floats. *)
Definition round_binary (prec emax : Z) (q : Q) : option Q :=
  let k := Z.log2 (Zpos (Qden q)) in
  if Pos.eqb (Qden q) (Z.to_pos (2 ^ k)) then
    match binary_normalize prec emax (Qnum q) (- k) false with
    | S754_zero _ => Some 0%Q
    | S754_finite s m e =>
        Some (Qred (inject_Z (if s then Zneg m else Zpos m) * Qpower 2 e))
    | _ => None
    end
  else Some q.

(** The integer a float is cut to, toward zero. *)
Definition truncate (q : Q) : Z := Z.quot (Qnum q) (Zpos (Qden q)).

(** [values.astype(d)] on one value, [None] where it does not fit. *)
Definition cast (d : np_dtype) (q : Q) : option Q :=
  match int_range d with
  | Some (lo, hi) =>
      let t := truncate q in
      if Z.leb lo t && Z.leb t hi then Some (inject_Z t) else None
  | None =>
      match d with
      | float16 => round_binary 11 16 q
      | float32 => round_binary 24 128 q
      | float64 => round_binary 53 1024 q
      | _ => Some q
      end
  end.

(** [np.allclose(a, b)] on one value: [|a - b| <= atol + rtol * |b|]
    with [atol = 1e-8] and [rtol = 1e-5]. *)
Definition close (a b : Q) : bool :=
  Qle_bool (Qabs (a - b)) ((1 # 100000000) + (1 # 100000) * Qabs b).

Definition array_dtype (values : list number) : np_dtype :=
  if forallb is_int values then int64 else float64.

Definition validate_dtype (values : list number) (valid : list string) : bool :=
  existsb (String.eqb (dtype_name (array_dtype values))) valid
  || (let d := get_minimum_dtype values in
      (negb (forallb is_int values) || negb (is_float d))
      && existsb (String.eqb (dtype_name d)) valid).

Definition can_cast_dtype (values : list number) (d : np_dtype) : bool :=
  if String.eqb (dtype_name (array_dtype values)) (dtype_name d) then true
  else if forallb is_int values then
    forallb (fun v => match cast d (to_Q v) with
                      | Some c => Qeq_bool c (to_Q v)
                      | None => false
                      end) values
  else
    forallb (fun v => match round_binary 53 1024 (to_Q v) with
                      | Some x =>
                          match cast d x with
                          | Some c => close x c
                          | None => false
                          end
                      | None => false
                      end) values.

(** *** The minimum dtype is the least holding one *)

Lemma fold_Qmin_ge (lo : Q) rest a :
  (lo <= fold_left (fun m x => Qmin m (to_Q x)) rest a)%Q <->
  (lo <= a)%Q /\ Forall (fun x => (lo <= to_Q x)%Q) rest.
Proof.
  revert a. induction rest as [|x rest IH]; intros a; cbn [fold_left].
  - split; [intros H; split; [exact H | constructor] | intros [H _]; exact H].
  - rewrite IH, Q.min_glb_iff. split.
    + intros [[Ha Hx] Hr]. split; [exact Ha | constructor; assumption].
    + intros [Ha Hr]. inversion Hr; subst. repeat split; assumption.
Qed.

Lemma fold_Qmax_le (hi : Q) rest a :
  (fold_left (fun m x => Qmax m (to_Q x)) rest a <= hi)%Q <->
  (a <= hi)%Q /\ Forall (fun x => (to_Q x <= hi)%Q) rest.
Proof.
  revert a. induction rest as [|x rest IH]; intros a; cbn [fold_left].
  - split; [intros H; split; [exact H | constructor] | intros [H _]; exact H].
  - rewrite IH, Q.max_lub_iff. split.
    + intros [[Ha Hx] Hr]. split; [exact Ha | constructor; assumption].
    + intros [Ha Hr]. inversion Hr; subst. repeat split; assumption.
Qed.

(** The bounds of a list lie in an interval around zero exactly when
    every element does. *)
Lemma bounds_in_range (lo hi : Q) vs :
  (lo <= 0)%Q -> (0 <= hi)%Q ->
  Qle_bool lo (Qmin_list vs) && Qle_bool (Qmax_list vs) hi = true <->
  Forall (fun x => (lo <= to_Q x)%Q /\ (to_Q x <= hi)%Q) vs.
Proof.
  intros Hlo Hhi. rewrite andb_true_iff, !Qle_bool_iff.
  destruct vs as [|v rest]; cbn [Qmin_list Qmax_list].
  - split; [constructor | auto].
  - rewrite fold_Qmin_ge, fold_Qmax_le, !Forall_forall. split.
    + intros [[H1 H2] [H3 H4]] x [<-|Hx]; [split; assumption|].
      split; [apply H2 | apply H4]; exact Hx.
    + intros H. repeat split; try apply (H v (or_introl eq_refl));
        intros x Hx; apply H; right; exact Hx.
Qed.

Lemma holds_all_int d lo hi vs :
  int_range d = Some (lo, hi) -> (lo <= 0)%Z -> (0 <= hi)%Z ->
  holds_all d vs = forallb is_int vs && within lo hi vs.
Proof.
  intros Hd Hlo Hhi. apply eq_true_iff_eq.
  rewrite andb_true_iff. unfold within.
  rewrite bounds_in_range
    by (change 0%Q with (inject_Z 0); rewrite <- Zle_Qle; assumption).
  unfold holds_all. rewrite !forallb_forall, Forall_forall.
  unfold holds. rewrite Hd. split.
  - intros H. split; intros x Hx; specialize (H x Hx); destruct x as [z|q];
      try discriminate; try reflexivity.
    apply andb_true_iff in H. destruct H as [H1 H2].
    apply Z.leb_le in H1, H2. cbn [to_Q]. rewrite <- !Zle_Qle. auto.
  - intros [Hi Hr] x Hx. specialize (Hi x Hx). specialize (Hr x Hx).
    destruct x as [z|q]; [|discriminate]. cbn [to_Q] in Hr.
    rewrite <- !Zle_Qle in Hr. apply andb_true_iff.
    split; apply Z.leb_le; tauto.
Qed.

Lemma holds_all_float32 vs :
  let fmax := inject_Z ((2 ^ 24 - 1) * 2 ^ 104) in
  holds_all float32 vs
  = Qle_bool (Qopp fmax) (Qmin_list vs) && Qle_bool (Qmax_list vs) fmax.
Proof.
  intros fmax. apply eq_true_iff_eq.
  rewrite bounds_in_range by (unfold fmax; cbv; discriminate).
  unfold holds_all. rewrite forallb_forall, Forall_forall.
  unfold holds. cbn [int_range float_max]. fold fmax.
  split; intros H x Hx; specialize (H x Hx).
  - apply andb_true_iff in H. rewrite !Qle_bool_iff in H. exact H.
  - apply andb_true_iff. rewrite !Qle_bool_iff. exact H.
Qed.

Lemma holds_all_float64 vs : holds_all float64 vs = true.
Proof. apply forallb_forall. reflexivity. Qed.

(** The members of the lattice from the smallest to the largest. *)
Definition ranked : list np_dtype :=
  [uint8; uint16; int16; uint32; int32; float32; float64].

Lemma get_minimum_dtype_first vs :
  get_minimum_dtype vs
  = match find (fun d => holds_all d vs) ranked with
    | Some d => d
    | None => float64
    end.
Proof.
  unfold get_minimum_dtype. cbn [find ranked].
  rewrite (holds_all_int uint8 0 255), (holds_all_int uint16 0 65535),
    (holds_all_int int16 (-32768) 32767), (holds_all_int uint32 0 4294967295),
    (holds_all_int int32 (-2147483648) 2147483647)
    by (reflexivity || lia).
  rewrite holds_all_float32, holds_all_float64.
  destruct (forallb is_int vs); cbn [andb];
    repeat match goal with
           | |- context [if ?b then _ else _] => destruct b; try reflexivity
           end.
Qed.

Lemma get_minimum_dtype_least vs : least_holding (get_minimum_dtype vs) vs.
Proof.
  rewrite get_minimum_dtype_first. cbn [find ranked].
  pose proof (holds_all_float64 vs) as H64.
  destruct (holds_all uint8 vs) eqn:H0;
    [|destruct (holds_all uint16 vs) eqn:H1;
      [|destruct (holds_all int16 vs) eqn:H2;
        [|destruct (holds_all uint32 vs) eqn:H3;
          [|destruct (holds_all int32 vs) eqn:H4;
            [|destruct (holds_all float32 vs) eqn:H5;
              [|rewrite H64]]]]]];
    (split; [cbn; tauto|]); (split; [assumption|]);
    intros d' Hin Hd'; cbn in Hin;
    repeat (destruct Hin as [<-|Hin]; [cbn; first [lia | congruence]|]);
    destruct Hin.
Qed.

(** What being least for [rank] gives: least in width, an unsigned
    kind rather than another of its width, an integer kind rather than
    a float. *)
Lemma least_holding_width d vs d' :
  least_holding d vs -> In d' lattice -> holds_all d' vs = true ->
  width d <= width d'.
Proof.
  intros (Hd & _ & Hleast) Hd' Hh. specialize (Hleast d' Hd' Hh).
  cbn in Hd, Hd'.
  repeat (destruct Hd as [<-|Hd]; [|]); try (destruct Hd);
    repeat (destruct Hd' as [<-|Hd']; [|]); try (destruct Hd');
    cbn in *; lia.
Qed.

Lemma least_holding_unsigned d vs d' :
  least_holding d vs -> In d' lattice -> holds_all d' vs = true ->
  is_unsigned d' = true -> width d' = width d -> d = d'.
Proof.
  intros (Hd & _ & Hleast) Hd' Hh Hu Hw. specialize (Hleast d' Hd' Hh).
  cbn in Hd, Hd'.
  repeat (destruct Hd as [<-|Hd]; [|]); try (destruct Hd);
    repeat (destruct Hd' as [<-|Hd']; [|]); try (destruct Hd');
    cbn in *; first [reflexivity | discriminate | lia].
Qed.

Lemma least_holding_float d vs d' :
  least_holding d vs -> In d' lattice -> holds_all d' vs = true ->
  is_float d = true -> is_float d' = true.
Proof.
  intros (Hd & _ & Hleast) Hd' Hh Hf. specialize (Hleast d' Hd' Hh).
  cbn in Hd, Hd'.
  repeat (destruct Hd as [<-|Hd]; [|]); try (destruct Hd);
    repeat (destruct Hd' as [<-|Hd']; [|]); try (destruct Hd');
    cbn in *; first [reflexivity | discriminate | lia].
Qed.

(** [least_holding] only looks at which values a list has. *)
Lemma least_holding_ext d vs vs' :
  (forall d', holds_all d' vs = holds_all d' vs') ->
  least_holding d vs -> least_holding d vs'.
Proof.
  intros Heq (Hd & Hh & Hleast). split; [exact Hd|]. split.
  - rewrite <- Heq. exact Hh.
  - intros d' Hd' Hh'. apply Hleast; [exact Hd'|]. rewrite Heq. exact Hh'.
Qed.

End Dtypes.

(** ** RasterizationOrchestrator: [rasterize] and [geometry_mask] *)

Module Rasterize.
Import Py Validator Dtypes.

Inductive MergeAlg := replace | add.

(** An element of [shapes]: a [(geometry, value)] pair, whose value may
    be [None], or a geometry alone, [Bare geom], where [geom] is an
    object that is neither a tuple nor a list.  The items are taken to
    be of these two kinds: a tuple or list of another length than two,
    on which the unpacking of line 264 raises a [ValueError], is not
    among them. *)
Inductive item :=
  | Pair (geom : pyval) (value : option number)
  | Bare (geom : pyval).

(** A two-dimensional array and its dtype. *)
Record ndarray := {
  dtype : np_dtype;
  height : nat;
  width : nat;
  px : nat -> nat -> number
}.

(** An array of dtype 'bool'. *)
Record bool_array := {
  b_height : nat;
  b_width : nat;
  b_px : nat -> nat -> bool
}.

(** [a.astype('bool')]. *)
Definition astype_bool (a : ndarray) : bool_array :=
  {| b_height := height a;
     b_width := width a;
     b_px := fun r c => negb (num_eqb (px a r c) (Int 0)) |}.

Definition mapM {A B} (f : A -> B) (m : M A) : M B :=
  (fst m, match snd m with Ok a => Ok (f a) | Raise e => Raise e end).

(** [enumerate(shapes)]. *)
Definition enumerate {A} (l : list A) : list (nat * A) :=
  combine (seq 0 (List.length l)) l.

(** Lines 263-270: the geometry and the value of an item. *)
Definition item_value (fill default_value : number) (it : item) : number :=
  match it with
  | Pair _ (Some value) => value
  | Pair _ None => fill
  | Bare _ => default_value
  end.

Definition item_geom (it : item) : pyval :=
  geo_interface match it with Pair geom _ => geom | Bare geom => geom end.

(** Lines 275-285: the shapes a valid geometry stands for, the members
    of a GeometryCollection or the geometry itself. *)
Definition geom_parts (geom : pyval) : result (list pyval) :=
  match geom with
  | PDict kvs =>
      match dict_get "type" kvs with
      | None => Raise KeyError
      | Some t =>
          if is_str "GeometryCollection" t then
            match dict_get "geometries" kvs with
            | None => Raise KeyError
            | Some geometries => py_iter geometries
            end
          else Ok [geom]
      end
  | _ => Raise TypeError              (* geom['type'] *)
  end.

(** The items that pass the check, and the (shape, value) pairs an
    item stands for: none when it is not valid, one per first-level
    member for a GeometryCollection, else the geometry itself. *)
Definition is_valid_item (it : item) : bool :=
  match is_valid_geom (item_geom it) with
  | Ok true => true
  | _ => false
  end.

Definition first_level_members (geom : pyval) : list pyval :=
  match geom_parts geom with
  | Ok parts => parts
  | Raise _ => []
  end.

Definition item_shapes (it : item) : list pyval :=
  if is_valid_item it then first_level_members (item_geom it) else [].

Definition shape_pairs (fill default_value : number) (it : item)
  : list (pyval * number) :=
  map (fun part => (part, item_value fill default_value it)) (item_shapes it).

(** An item the loop gets past: rejected by the check, or a valid
    mapping. *)
Definition item_ok (it : item) : Prop :=
  is_valid_geom (item_geom it) = Ok false
  \/ (is_valid_geom (item_geom it) = Ok true
      /\ exists kvs, item_geom it = PDict kvs).

(** *** What the items are to be burned as

    The normalisation in the words of the spec, to compare the loop
    with: the value an item carries, and the shapes it stands for. *)

Definition given_geom (it : item) : pyval :=
  match it with Pair geom _ => geom | Bare geom => geom end.

Inductive burned_value (fill default_value : number) : item -> number -> Prop :=
  | value_given geom v :
      burned_value fill default_value (Pair geom (Some v)) v
  | value_none geom :
      burned_value fill default_value (Pair geom None) fill
  | value_bare geom :
      burned_value fill default_value (Bare geom) default_value.

Inductive burned_as (fill default_value : number) (it : item)
  : list (pyval * number) -> Prop :=
  | burned_single kvs t v :
      geo_interface (given_geom it) = PDict kvs ->
      is_valid_geom (PDict kvs) = Ok true ->
      dict_get "type" kvs = Some (PStr t) ->
      t <> "GeometryCollection" ->
      burned_value fill default_value it v ->
      burned_as fill default_value it [(PDict kvs, v)]
  | burned_members kvs members v :
      geo_interface (given_geom it) = PDict kvs ->
      is_valid_geom (PDict kvs) = Ok true ->
      dict_get "type" kvs = Some (PStr "GeometryCollection") ->
      dict_get "geometries" kvs = Some (PList members) ->
      burned_value fill default_value it v ->
      burned_as fill default_value it (map (fun member => (member, v)) members)
  | burned_nothing :
      is_valid_geom (geo_interface (given_geom it)) = Ok false ->
      burned_as fill default_value it [].

Section Helpers.

(** The helpers of [rasterio.dtypes], the transform guard and the
    native burn are not among the sources; the function is read
    against any of them. *)
Variable validate_dtype : list number -> list string -> bool.
Variable can_cast_dtype : list number -> np_dtype -> bool.
Variable get_minimum_dtype : list number -> np_dtype.
(** The value an array of a dtype stores when a number is written. *)
Variable astype : np_dtype -> number -> number.
Variable transform : Type.
Variable guard_transform : transform -> result transform.
(** The pixels (row, column) the native engine burns for a geometry. *)
Variable covers : pyval -> transform -> bool -> nat -> nat -> bool.

(** Lines 241-258: the checks on [fill], [default_value] and [dtype]. *)
Definition check_fill (fill : number) (dtype : option np_dtype) : result unit :=
  if negb (num_eqb fill (Int 0)) then
    if negb (validate_dtype [fill] valid_dtypes) then
      Raise (ValueError (InvalidDtype "fill"))
    else
      match dtype with
      | Some d =>
          if negb (can_cast_dtype [fill] d) then
            Raise (ValueError (CastError "fill" (dtype_name d)))
          else Ok tt
      | None => Ok tt
      end
  else Ok tt.

Definition check_default_value (default_value : number)
    (dtype : option np_dtype) : result unit :=
  if negb (num_eqb default_value (Int 1)) then
    if negb (validate_dtype [default_value] valid_dtypes) then
      Raise (ValueError (InvalidDtype "default_value"))
    else
      match dtype with
      | Some d =>
          if negb (can_cast_dtype [default_value] d) then
            Raise (ValueError (CastError "default_vaue" (dtype_name d)))
          else Ok tt
      | None => Ok tt
      end
  else Ok tt.

Definition check_dtype (dtype : option np_dtype) : result unit :=
  match dtype with
  | Some d =>
      if negb (in_valid_dtypes d) then Raise (ValueError (InvalidDtype "dtype"))
      else Ok tt
  | None => Ok tt
  end.

(** Lines 260-289: the loop over [enumerate(shapes)], with the lists
    [valid_shapes] and [shape_values] it appends to. *)
Fixpoint shapes_loop (fill default_value : number)
    (shapes : list (nat * item))
    (valid_shapes : list (pyval * number)) (shape_values : list number)
  : M (list (pyval * number) * list number) :=
  match shapes with
  | [] => retM (valid_shapes, shape_values)
  | (index, it) :: rest =>
      let value := item_value fill default_value it in
      let geom := item_geom it in
      ok <~ lift (is_valid_geom geom) ;;
      if ok then
        parts <~ lift (geom_parts geom) ;;
        shapes_loop fill default_value rest
          (valid_shapes ++ map (fun part => (part, value)) parts)
          (shape_values ++ [value])
      else
        _ <~ warn index ;;
        shapes_loop fill default_value rest valid_shapes shape_values
  end.

(** [np.empty(out_shape, dtype=dtype)] followed by [out.fill(fill)]. *)
Definition full (h w : nat) (d : np_dtype) (fill : number) : ndarray :=
  {| dtype := d; height := h; width := w;
     px := fun _ _ => astype d fill |}.

(** Modelled from the spec: the native [_rasterize], which writes in
    place: each shape in turn sets the pixels it covers to its value,
    or adds its value to them under [MergeAlg.add]. *)
Definition burn (merge_alg : MergeAlg) (d : np_dtype) (old v : number) : number :=
  match merge_alg with
  | replace => astype d v
  | add => astype d (num_add old v)
  end.

Definition burn_shape (T : transform) (all_touched : bool)
    (merge_alg : MergeAlg) (out : ndarray) (shape : pyval * number) : ndarray :=
  {| dtype := dtype out; height := height out; width := width out;
     px := fun r c =>
             if covers (fst shape) T all_touched r c
             then burn merge_alg (dtype out) (px out r c) (snd shape)
             else px out r c |}.

Definition _rasterize (valid_shapes : list (pyval * number)) (out : ndarray)
    (T : transform) (all_touched : bool) (merge_alg : MergeAlg) : ndarray :=
  fold_left (burn_shape T all_touched merge_alg) valid_shapes out.

(** Lines 291-328, after the loop. *)
Definition resolve_dtype (shape_values : list number) (fill : number)
    (dtype : option np_dtype) : result np_dtype :=
  match dtype with
  | None => Ok (get_minimum_dtype (shape_values ++ [fill]))
  | Some d =>
      if negb (can_cast_dtype shape_values d) then
        Raise (ValueError (CastError "shape values" (dtype_name d)))
      else Ok d
  end.

Definition resolve_out (shape_values : list number) (fill : number)
    (d : np_dtype) (out : option ndarray) (out_shape : option (list nat))
  : result ndarray :=
  match out with
  | Some o =>
      if negb (in_valid_dtypes (dtype o)) then
        Raise (ValueError (InvalidDtype "out"))
      else if negb (can_cast_dtype shape_values (dtype o)) then
        Raise (ValueError (CastError "shape values" (dtype_name (dtype o))))
      else Ok o
  | None =>
      match out_shape with
      | Some [h; w] => Ok (full h w d fill)
      | Some _ => Raise (ValueError OutShapeNot2D)
      | None => Raise (ValueError NoOutput)
      end
  end.

Definition finish (valid_shapes : list (pyval * number))
    (shape_values : list number) (out_shape : option (list nat))
    (fill : number) (out : option ndarray) (T : transform)
    (all_touched : bool) (merge_alg : MergeAlg) (dtype : option np_dtype)
  : result ndarray :=
  match valid_shapes with
  | [] => Raise (ValueError NoValidGeometry)
  | _ =>
      if negb (validate_dtype shape_values valid_dtypes) then
        Raise (ValueError (InvalidDtype "shape values"))
      else
        d <- resolve_dtype shape_values fill dtype ;;
        o <- resolve_out shape_values fill d out out_shape ;;
        if Nat.eqb (Nat.min (height o) (width o)) 0 then
          Raise (ValueError ZeroSize)
        else
          T' <- guard_transform T ;;
          Ok (_rasterize valid_shapes o T' all_touched merge_alg)
  end.

Definition rasterize (shapes : list item) (out_shape : option (list nat))
    (fill : number) (out : option ndarray) (T : transform)
    (all_touched : bool) (merge_alg : MergeAlg) (default_value : number)
    (dtype : option np_dtype) : M ndarray :=
  _ <~ lift (check_fill fill dtype) ;;
  _ <~ lift (check_default_value default_value dtype) ;;
  _ <~ lift (check_dtype dtype) ;;
  lists <~ shapes_loop fill default_value (enumerate shapes) [] [] ;;
  lift (finish (fst lists) (snd lists) out_shape fill out T
               all_touched merge_alg dtype).

(** Lines 26-68. *)
Definition geometry_mask (geometries : list item) (out_shape : list nat)
    (T : transform) (all_touched invert : bool) : M bool_array :=
  let (fill, mask_value) :=
    if invert then (Int 0, Int 1) else (Int 1, Int 0) in
  mapM astype_bool
    (rasterize geometries (Some out_shape) fill None T all_touched
               replace mask_value None).


(** *** The loop over the shapes *)

Lemma bindM_lift {A B} (r : result A) (k : A -> M B) :
  bindM (lift r) k = match r with Ok a => k a | Raise e => ([], Raise e) end.
Proof.
  destruct r as [a|e]; [|reflexivity].
  unfold bindM, lift. cbn [fst snd app]. destruct (k a); reflexivity.
Qed.

Lemma bindM_warn {B} index (k : unit -> M B) :
  bindM (warn index) k = (index :: fst (k tt), snd (k tt)).
Proof. reflexivity. Qed.

Lemma str_in_leaf_not_collection t :
  str_in t geom_types = true -> String.eqb "GeometryCollection" t = false.
Proof.
  intros H. destruct (String.eqb_spec "GeometryCollection" t) as [<-|]; auto.
Qed.

(** A valid mapping always has parts, and at least one. *)
Lemma valid_dict_parts kvs :
  is_valid_geom (PDict kvs) = Ok true ->
  exists part parts, geom_parts (PDict kvs) = Ok (part :: parts).
Proof.
  rewrite is_valid_geom_dict. unfold recognised_type, geom_parts.
  destruct (dict_get "type" kvs) as [[| | |t| | |]|]; try discriminate.
  destruct (str_in t (geom_types ++ ["GeometryCollection"])) eqn:Hall;
    [|discriminate].
  cbn [is_str]. destruct (str_in t geom_types) eqn:Hleaf.
  - intros _. rewrite (str_in_leaf_not_collection _ Hleaf).
    eexists _, _. reflexivity.
  - unfold str_in in Hall, Hleaf. rewrite existsb_app, Hleaf in Hall.
    cbn in Hall. rewrite orb_false_r in Hall.
    apply String.eqb_eq in Hall. subst t. cbn [String.eqb Ascii.eqb Bool.eqb].
    destruct (dict_get "geometries" kvs) as [[| | | |[|g gs]| |]|];
      try discriminate.
    intros _. eexists _, _. reflexivity.
Qed.

Definition warned (shapes : list (nat * item)) : list nat :=
  map fst (filter (fun p => negb (is_valid_item (snd p))) shapes).

Definition values_of (fill default_value : number)
    (shapes : list (nat * item)) : list number :=
  map (fun p => item_value fill default_value (snd p))
      (filter (fun p => is_valid_item (snd p)) shapes).

Definition pairs_of (fill default_value : number)
    (shapes : list (nat * item)) : list (pyval * number) :=
  flat_map (fun p => shape_pairs fill default_value (snd p)) shapes.

(** What a loop that completes has done. *)
Lemma shapes_loop_inv fill dv shapes :
  forall vs vals ws vs' vals',
  shapes_loop fill dv shapes vs vals = (ws, Ok (vs', vals')) ->
  ws = warned shapes
  /\ vs' = vs ++ pairs_of fill dv shapes
  /\ vals' = vals ++ values_of fill dv shapes.
Proof.
  induction shapes as [|[index it] rest IH]; intros vs vals ws vs' vals'.
  - cbn. intros H. injection H as <- <- <-. rewrite !app_nil_r. auto.
  - cbn [shapes_loop]. rewrite bindM_lift.
    unfold warned, values_of, pairs_of, shape_pairs, item_shapes,
      first_level_members, is_valid_item.
    cbn [filter flat_map snd map].
    destruct (is_valid_geom (item_geom it)) as [[|]|e]; [| |discriminate].
    + rewrite bindM_lift.
      destruct (geom_parts (item_geom it)) as [parts|e]; [|discriminate].
      intros H. apply IH in H. destruct H as (-> & -> & ->).
      cbn [negb map]. rewrite <- !app_assoc. auto.
    + rewrite bindM_warn. intros H. injection H as <- H.
      destruct (shapes_loop fill dv rest vs vals) as [ws0 r] eqn:Hrest.
      cbn [snd] in H. subst r. apply IH in Hrest.
      destruct Hrest as (-> & -> & ->). cbn [negb map fst app]. auto.
Qed.

(** A loop over items it gets past completes. *)
Lemma shapes_loop_total fill dv shapes :
  Forall (fun p => item_ok (snd p)) shapes ->
  forall vs vals,
  shapes_loop fill dv shapes vs vals
  = (warned shapes,
     Ok (vs ++ pairs_of fill dv shapes, vals ++ values_of fill dv shapes)).
Proof.
  intros Hok vs vals.
  assert (H : exists ws r, shapes_loop fill dv shapes vs vals = (ws, Ok r)).
  { revert vs vals. induction Hok as [|[index it] rest Hit _ IH];
      intros vs vals.
    - eexists _, _. reflexivity.
    - cbn [shapes_loop]. rewrite bindM_lift. cbn [snd] in Hit.
      destruct Hit as [Hv|[Hv [kvs Hk]]]; rewrite Hv.
      + rewrite bindM_warn.
        destruct (IH vs vals) as (ws & r & ->). eexists _, _. reflexivity.
      + rewrite bindM_lift. rewrite Hk in Hv |- *.
        destruct (valid_dict_parts kvs Hv) as (part & parts & ->).
        apply IH. }
  destruct H as (ws & [vs' vals'] & H).
  rewrite H. apply shapes_loop_inv in H. destruct H as (-> & -> & ->).
  reflexivity.
Qed.

(** *** Indices of [enumerate] *)

Lemma in_combine_seq {A} (l : list A) k i (a : A) :
  In (i, a) (combine (seq k (List.length l)) l)
  <-> k <= i /\ nth_error l (i - k) = Some a.
Proof.
  revert k. induction l as [|x l IH]; intros k; cbn [List.length seq combine].
  - split; [intros [] | intros [_ H]]. destruct (i - k); discriminate.
  - cbn [In]. rewrite IH. split.
    + intros [H|[Hle H]].
      * injection H as <- <-. rewrite Nat.sub_diag. split; [lia | reflexivity].
      * split; [lia|]. replace (i - k) with (S (i - S k)) by lia. exact H.
    + intros [Hle H]. destruct (Nat.eq_dec i k) as [->|Hne].
      * rewrite Nat.sub_diag in H. injection H as <-. left; reflexivity.
      * right. split; [lia|].
        replace (i - k) with (S (i - S k)) in H by lia. exact H.
Qed.

Lemma warned_enumerate shapes i :
  In i (warned (enumerate shapes))
  <-> exists it, nth_error shapes i = Some it /\ is_valid_item it = false.
Proof.
  unfold warned, enumerate. rewrite in_map_iff. split.
  - intros ([j it] & <- & H). apply filter_In in H. destruct H as [H Hv].
    apply in_combine_seq in H. destruct H as [_ H].
    rewrite Nat.sub_0_r in H. cbn [fst snd] in *.
    exists it. split; [exact H|]. apply negb_true_iff. exact Hv.
  - intros (it & Hn & Hv). exists (i, it). split; [reflexivity|].
    apply filter_In. split.
    + apply in_combine_seq. rewrite Nat.sub_0_r. split; [lia | exact Hn].
    + cbn [snd]. rewrite Hv. reflexivity.
Qed.

Lemma warned_all {A} (f : nat * A -> bool) (l : list A) k :
  (forall a, In a l -> forall i, f (i, a) = true) ->
  map fst (filter f (combine (seq k (List.length l)) l))
  = seq k (List.length l).
Proof.
  revert k. induction l as [|x l IH]; intros k H; [reflexivity|].
  cbn [List.length seq combine filter].
  rewrite (H x (or_introl eq_refl) k). cbn [map fst]. f_equal.
  apply IH. intros a Ha. apply H. right; exact Ha.
Qed.

Lemma pairs_of_none fill dv (shapes : list (nat * item)) :
  (forall p, In p shapes -> is_valid_item (snd p) = false) ->
  pairs_of fill dv shapes = [].
Proof.
  induction shapes as [|p rest IH]; intros H; [reflexivity|].
  unfold pairs_of in *. cbn [flat_map]. unfold shape_pairs at 1, item_shapes.
  rewrite (H p (or_introl eq_refl)). cbn [app map].
  apply IH. intros q Hq. apply H. right; exact Hq.
Qed.

Lemma in_enumerate_snd {A} (l : list A) p :
  In p (enumerate l) -> In (snd p) l.
Proof.
  destruct p as [i a]. unfold enumerate. intros H.
  apply in_combine_r in H. exact H.
Qed.

(** *** The checks raise nothing but [ValueError] *)

Lemma check_fill_cases fill dtype :
  check_fill fill dtype = Ok tt
  \/ exists e, check_fill fill dtype = Raise (ValueError e).
Proof.
  unfold check_fill.
  destruct (negb (num_eqb fill (Int 0))); [|left; reflexivity].
  destruct (negb (validate_dtype [fill] valid_dtypes));
    [right; eexists; reflexivity|].
  destruct dtype as [d|]; [|left; reflexivity].
  destruct (negb (can_cast_dtype [fill] d));
    [right; eexists; reflexivity | left; reflexivity].
Qed.

Lemma check_default_value_cases dv dtype :
  check_default_value dv dtype = Ok tt
  \/ exists e, check_default_value dv dtype = Raise (ValueError e).
Proof.
  unfold check_default_value.
  destruct (negb (num_eqb dv (Int 1))); [|left; reflexivity].
  destruct (negb (validate_dtype [dv] valid_dtypes));
    [right; eexists; reflexivity|].
  destruct dtype as [d|]; [|left; reflexivity].
  destruct (negb (can_cast_dtype [dv] d));
    [right; eexists; reflexivity | left; reflexivity].
Qed.

Lemma check_dtype_cases dtype :
  check_dtype dtype = Ok tt
  \/ exists e, check_dtype dtype = Raise (ValueError e).
Proof.
  unfold check_dtype. destruct dtype as [d|]; [|left; reflexivity].
  destruct (negb (in_valid_dtypes d));
    [right; eexists; reflexivity | left; reflexivity].
Qed.

(** [rasterize] once the three checks have passed. *)
Lemma rasterize_checked shapes out_shape fill out T all_touched merge_alg
    default_value dtype :
  check_fill fill dtype = Ok tt ->
  check_default_value default_value dtype = Ok tt ->
  check_dtype dtype = Ok tt ->
  rasterize shapes out_shape fill out T all_touched merge_alg
            default_value dtype
  = (lists <~ shapes_loop fill default_value (enumerate shapes) [] [] ;;
     lift (finish (fst lists) (snd lists) out_shape fill out T
                  all_touched merge_alg dtype)).
Proof.
  intros H1 H2 H3. unfold rasterize.
  rewrite H1, bindM_lift, H2, bindM_lift, H3, bindM_lift. reflexivity.
Qed.

(** The amended C1.  When every item of [shapes] is either rejected
    by the check, which returns [False], or a valid mapping, the loop
    runs to its end: it warns once for
    each rejected item, with the index of the item in [shapes], drops
    that item and keeps the others.  When the check rejects every
    item, the call raises a [ValueError], which is 'No valid geometry
    objects found for rasterize' once the checks on [fill],
    [default_value] and [dtype] have passed, all the warnings having
    been emitted. *)
Theorem rasterize_warns_and_skips_invalid shapes out_shape fill out T
    all_touched merge_alg default_value dtype :
  Forall item_ok shapes ->
  shapes_loop fill default_value (enumerate shapes) [] []
  = (warned (enumerate shapes),
     Ok (pairs_of fill default_value (enumerate shapes),
         values_of fill default_value (enumerate shapes)))
  /\ (forall i, In i (warned (enumerate shapes)) <->
        exists it, nth_error shapes i = Some it
                   /\ is_valid_geom (item_geom it) = Ok false)
  /\ ((forall it, In it shapes -> is_valid_geom (item_geom it) = Ok false) ->
      (exists e, snd (rasterize shapes out_shape fill out T all_touched
                                merge_alg default_value dtype)
                 = Raise (ValueError e))
      /\ (check_fill fill dtype = Ok tt ->
          check_default_value default_value dtype = Ok tt ->
          check_dtype dtype = Ok tt ->
          rasterize shapes out_shape fill out T all_touched merge_alg
                    default_value dtype
          = (seq 0 (List.length shapes),
             Raise (ValueError NoValidGeometry)))).
Proof.
  intros Hok.
  assert (Hloop : shapes_loop fill default_value (enumerate shapes) [] []
                  = (warned (enumerate shapes),
                     Ok (pairs_of fill default_value (enumerate shapes),
                         values_of fill default_value (enumerate shapes)))).
  { apply (shapes_loop_total fill default_value (enumerate shapes)).
    apply Forall_forall. intros p Hp.
    rewrite Forall_forall in Hok. apply Hok, in_enumerate_snd, Hp. }
  split; [exact Hloop|]. split.
  - intros i. rewrite warned_enumerate. rewrite Forall_forall in Hok.
    split; intros (it & Hn & Hv); exists it; (split; [exact Hn|]).
    + unfold is_valid_item in Hv.
      destruct (Hok it (nth_error_In _ _ Hn)) as [H|[H _]];
        [exact H | rewrite H in Hv; discriminate].
    + unfold is_valid_item. rewrite Hv. reflexivity.
  - intros Hnone.
    assert (Hinv : forall it, In it shapes -> is_valid_item it = false).
    { intros it Hit. unfold is_valid_item. rewrite (Hnone it Hit).
      reflexivity. }
    assert (Hchecked :
      check_fill fill dtype = Ok tt ->
      check_default_value default_value dtype = Ok tt ->
      check_dtype dtype = Ok tt ->
      rasterize shapes out_shape fill out T all_touched merge_alg
                default_value dtype
      = (seq 0 (List.length shapes), Raise (ValueError NoValidGeometry))).
    { intros H1 H2 H3. rewrite (rasterize_checked _ _ _ _ _ _ _ _ _ H1 H2 H3).
      rewrite Hloop. unfold bindM. cbn [fst snd lift].
      rewrite pairs_of_none
        by (intros p Hp; apply Hinv, in_enumerate_snd, Hp).
      cbn [finish]. rewrite app_nil_r. f_equal.
      unfold warned, enumerate. apply warned_all.
      intros a Ha i. cbn [snd]. rewrite (Hinv a Ha). reflexivity. }
    split; [|exact Hchecked].
    destruct (check_fill_cases fill dtype) as [H1|[e H1]].
    2:{ exists e. unfold rasterize. rewrite H1, bindM_lift. reflexivity. }
    destruct (check_default_value_cases default_value dtype) as [H2|[e H2]].
    2:{ exists e. unfold rasterize.
        rewrite H1, bindM_lift, H2, bindM_lift. reflexivity. }
    destruct (check_dtype_cases dtype) as [H3|[e H3]].
    2:{ exists e. unfold rasterize.
        rewrite H1, bindM_lift, H2, bindM_lift, H3, bindM_lift.
        reflexivity. }
    exists NoValidGeometry. rewrite (Hchecked H1 H2 H3). reflexivity.
Qed.

(** *** What is handed to the burn *)

Lemma pairs_of_enumerate fill dv shapes :
  pairs_of fill dv (enumerate shapes) = flat_map (shape_pairs fill dv) shapes.
Proof.
  unfold pairs_of, enumerate. generalize 0.
  induction shapes as [|it rest IH]; intros k; [reflexivity|].
  cbn [List.length seq combine flat_map snd]. f_equal. apply IH.
Qed.

(** A call that returns has burned the pairs of its items into some
    array, under the guarded transform. *)
Lemma rasterize_returns shapes out_shape fill out T all_touched merge_alg
    default_value dtype ws a :
  rasterize shapes out_shape fill out T all_touched merge_alg
            default_value dtype = (ws, Ok a) ->
  exists o T',
    shapes_loop fill default_value (enumerate shapes) [] []
    = (ws, Ok (pairs_of fill default_value (enumerate shapes),
               values_of fill default_value (enumerate shapes)))
    /\ finish (pairs_of fill default_value (enumerate shapes))
              (values_of fill default_value (enumerate shapes))
              out_shape fill out T all_touched merge_alg dtype = Ok a
    /\ guard_transform T = Ok T'
    /\ a = _rasterize (flat_map (shape_pairs fill default_value) shapes)
                      o T' all_touched merge_alg.
Proof.
  intros H.
  destruct (check_fill_cases fill dtype) as [H1|[e H1]].
  2:{ unfold rasterize in H. rewrite H1, bindM_lift in H. discriminate. }
  destruct (check_default_value_cases default_value dtype) as [H2|[e H2]].
  2:{ unfold rasterize in H.
      rewrite H1, bindM_lift, H2, bindM_lift in H. discriminate. }
  destruct (check_dtype_cases dtype) as [H3|[e H3]].
  2:{ unfold rasterize in H.
      rewrite H1, bindM_lift, H2, bindM_lift, H3, bindM_lift in H.
      discriminate. }
  rewrite (rasterize_checked _ _ _ _ _ _ _ _ _ H1 H2 H3) in H.
  destruct (shapes_loop fill default_value (enumerate shapes) [] [])
    as [ws0 [[vs vals]|e]] eqn:Hloop; unfold bindM in H; cbn [fst snd lift] in H;
    [|discriminate].
  injection H as Hws Hfin. rewrite app_nil_r in Hws. subst ws0.
  destruct (shapes_loop_inv _ _ _ _ _ _ _ _ Hloop) as (_ & -> & ->).
  cbn [app] in *.
  pose proof Hfin as Hfin'. unfold finish in Hfin.
  destruct (pairs_of fill default_value (enumerate shapes)) eqn:Hp;
    [discriminate|]. rewrite <- Hp in *.
  destruct (negb (validate_dtype _ valid_dtypes)); [discriminate|].
  destruct (resolve_dtype _ fill dtype) as [d|e]; [|discriminate].
  cbn [bind] in Hfin.
  destruct (resolve_out _ fill d out out_shape) as [o|e]; [|discriminate].
  cbn [bind] in Hfin.
  destruct (Nat.eqb (Nat.min (height o) (width o)) 0); [discriminate|].
  destruct (guard_transform T) as [T'|e]; [|discriminate].
  cbn [bind] in Hfin. injection Hfin as <-.
  exists o, T'. rewrite pairs_of_enumerate in *. auto.
Qed.

Lemma shape_pairs_valid fill dv it kvs :
  item_geom it = PDict kvs ->
  is_valid_geom (PDict kvs) = Ok true ->
  exists part parts,
    shape_pairs fill dv it
    = map (fun p => (p, item_value fill dv it)) (part :: parts).
Proof.
  intros Hg Hv. destruct (valid_dict_parts kvs Hv) as (part & parts & Hp).
  exists part, parts.
  unfold shape_pairs, item_shapes, is_valid_item, first_level_members.
  rewrite Hg, Hv, Hp. reflexivity.
Qed.

Lemma pairs_nonempty fill dv shapes it :
  Forall item_ok shapes -> In it shapes ->
  is_valid_geom (item_geom it) = Ok true ->
  flat_map (shape_pairs fill dv) shapes <> [].
Proof.
  intros Hok Hin Hv. rewrite Forall_forall in Hok.
  destruct (Hok it Hin) as [H|[_ [kvs Hk]]]; [congruence|].
  rewrite Hk in Hv.
  destruct (shape_pairs_valid fill dv it kvs Hk Hv) as (part & parts & Hp).
  apply in_split in Hin. destruct Hin as (l1 & l2 & ->).
  rewrite flat_map_app. cbn [flat_map]. rewrite Hp. cbn [map].
  intros H. apply app_eq_nil in H. destruct H as [_ H]. discriminate.
Qed.

Lemma enumerate_items_ok shapes :
  Forall item_ok shapes -> Forall (fun p => item_ok (snd p)) (enumerate shapes).
Proof.
  rewrite !Forall_forall. intros H p Hp. apply H, in_enumerate_snd, Hp.
Qed.

(** The amended C8.  With an explicit [dtype]:
    - when it is not one of [valid_dtypes], the call raises a
      [ValueError] before any shape is looked at; the error is the one
      of the check on [fill] or [default_value] when one of them fails
      first, and '... dtype must be one of ...' for 'dtype' otherwise;
    - when it is one of them and the values of the valid shapes cannot
      be cast to it, the call returns no array: the loop over the
      shapes having completed, the error is '... cannot be cast to
      specified dtype' for 'shape values' once the earlier checks have
      passed, some shape is valid and the values are themselves of an
      admissible kind. *)
Theorem rasterize_explicit_dtype_errors shapes out_shape fill out T
    all_touched merge_alg default_value d :
  (in_valid_dtypes d = false ->
     (exists e, rasterize shapes out_shape fill out T all_touched merge_alg
                          default_value (Some d)
                = ([], Raise (ValueError e)))
     /\ (check_fill fill (Some d) = Ok tt ->
         check_default_value default_value (Some d) = Ok tt ->
         rasterize shapes out_shape fill out T all_touched merge_alg
                   default_value (Some d)
         = ([], Raise (ValueError (InvalidDtype "dtype")))))
  /\ (in_valid_dtypes d = true ->
      can_cast_dtype (values_of fill default_value (enumerate shapes)) d
      = false ->
      (forall a, snd (rasterize shapes out_shape fill out T all_touched
                                merge_alg default_value (Some d)) <> Ok a)
      /\ (Forall item_ok shapes ->
          check_fill fill (Some d) = Ok tt ->
          check_default_value default_value (Some d) = Ok tt ->
          (exists it, In it shapes /\ is_valid_geom (item_geom it) = Ok true) ->
          validate_dtype (values_of fill default_value (enumerate shapes))
                         valid_dtypes = true ->
          rasterize shapes out_shape fill out T all_touched merge_alg
                    default_value (Some d)
          = (warned (enumerate shapes),
             Raise (ValueError
                      (CastError "shape values" (dtype_name d)))))).
Proof.
  split.
  - intros Hd.
    assert (H3 : check_dtype (Some d) = Raise (ValueError (InvalidDtype "dtype"))).
    { unfold check_dtype. rewrite Hd. reflexivity. }
    assert (Hchecked :
      check_fill fill (Some d) = Ok tt ->
      check_default_value default_value (Some d) = Ok tt ->
      rasterize shapes out_shape fill out T all_touched merge_alg
                default_value (Some d)
      = ([], Raise (ValueError (InvalidDtype "dtype")))).
    { intros H1 H2. unfold rasterize.
      rewrite H1, bindM_lift, H2, bindM_lift, H3, bindM_lift. reflexivity. }
    split; [|exact Hchecked].
    destruct (check_fill_cases fill (Some d)) as [H1|[e H1]].
    2:{ exists e. unfold rasterize. rewrite H1, bindM_lift. reflexivity. }
    destruct (check_default_value_cases default_value (Some d)) as [H2|[e H2]].
    2:{ exists e. unfold rasterize.
        rewrite H1, bindM_lift, H2, bindM_lift. reflexivity. }
    eexists. apply Hchecked; assumption.
  - intros Hd Hcast.
    assert (H3 : check_dtype (Some d) = Ok tt).
    { unfold check_dtype. rewrite Hd. reflexivity. }
    assert (Hfin : forall vs,
      finish vs (values_of fill default_value (enumerate shapes))
             out_shape fill out T all_touched merge_alg (Some d)
      = match vs with
        | [] => Raise (ValueError NoValidGeometry)
        | _ => if negb (validate_dtype
                          (values_of fill default_value (enumerate shapes))
                          valid_dtypes)
               then Raise (ValueError (InvalidDtype "shape values"))
               else Raise (ValueError
                             (CastError "shape values" (dtype_name d)))
        end).
    { intros vs. unfold finish. destruct vs; [reflexivity|].
      destruct (negb (validate_dtype _ valid_dtypes)); [reflexivity|].
      unfold resolve_dtype. rewrite Hcast. reflexivity. }
    split.
    + intros a Ha.
      destruct (rasterize shapes out_shape fill out T all_touched merge_alg
                  default_value (Some d)) as [ws r] eqn:Hr.
      cbn [snd] in Ha. subst r.
      destruct (rasterize_returns _ _ _ _ _ _ _ _ _ _ _ Hr)
        as (o & T' & _ & Hf & _).
      rewrite Hfin in Hf.
      destruct (pairs_of fill default_value (enumerate shapes));
        [discriminate|].
      destruct (negb (validate_dtype _ valid_dtypes)); discriminate.
    + intros Hok H1 H2 (it & Hin & Hv) Hval.
      rewrite (rasterize_checked _ _ _ _ _ _ _ _ _ H1 H2 H3).
      rewrite (shapes_loop_total _ _ _ (enumerate_items_ok _ Hok)).
      unfold bindM. cbn [fst snd lift app]. rewrite app_nil_r. f_equal.
      rewrite Hfin, Hval. cbn [negb].
      pose proof (pairs_nonempty fill default_value shapes it Hok Hin Hv) as Hne.
      rewrite pairs_of_enumerate.
      destruct (flat_map (shape_pairs fill default_value) shapes);
        [congruence | reflexivity].
Qed.

(** *** The burn *)

Lemma rasterize_burn_shape T all_touched merge_alg vs :
  forall o,
  dtype (_rasterize vs o T all_touched merge_alg) = dtype o
  /\ height (_rasterize vs o T all_touched merge_alg) = height o
  /\ width (_rasterize vs o T all_touched merge_alg) = width o.
Proof.
  unfold _rasterize. induction vs as [|shape vs IH]; intros o; [auto|].
  cbn [fold_left]. destruct (IH (burn_shape T all_touched merge_alg o shape))
    as (-> & -> & ->). auto.
Qed.

(** A pixel no shape covers keeps the value it had. *)
Lemma rasterize_uncovered T all_touched merge_alg r c vs :
  forall o,
  (forall g v, In (g, v) vs -> covers g T all_touched r c = false) ->
  px (_rasterize vs o T all_touched merge_alg) r c = px o r c.
Proof.
  unfold _rasterize. induction vs as [|[g v] vs IH]; intros o H; [reflexivity|].
  cbn [fold_left]. rewrite IH by (intros g' v' Hin; apply (H g' v'); right; exact Hin).
  cbn [burn_shape px fst]. rewrite (H g v (or_introl eq_refl)). reflexivity.
Qed.


(** *** The values of the pairs are the values of the valid items *)

Lemma shapes_loop_items_ok fill dv shapes :
  forall vs vals ws r,
  shapes_loop fill dv shapes vs vals = (ws, Ok r) ->
  Forall (fun p => item_ok (snd p)) shapes.
Proof.
  induction shapes as [|[index it] rest IH]; intros vs vals ws r;
    [constructor|].
  cbn [shapes_loop]. rewrite bindM_lift.
  destruct (is_valid_geom (item_geom it)) as [[|]|e] eqn:Hv; [| |discriminate].
  - rewrite bindM_lift.
    destruct (geom_parts (item_geom it)) as [parts|e] eqn:Hp; [|discriminate].
    intros H. constructor; [|eapply IH; exact H].
    right. split; [exact Hv|]. cbn [snd].
    unfold geom_parts in Hp. destruct (item_geom it); try discriminate.
    eexists; reflexivity.
  - rewrite bindM_warn. intros H. injection H as _ H.
    constructor; [left; exact Hv|].
    destruct (shapes_loop fill dv rest vs vals) as [ws0 r0] eqn:Hrest.
    cbn [snd] in H. subst r0. eapply IH; exact Hrest.
Qed.

Lemma forallb_same_value {A B} (f : B -> bool) (v : B) (x : A) (l : list A) :
  forallb f (map snd (map (fun p => (p, v)) (x :: l))) = f v.
Proof.
  cbn [map snd forallb]. induction l as [|y l IH]; cbn [map snd forallb].
  - apply andb_true_r.
  - destruct (f v); [exact IH | reflexivity].
Qed.

Lemma pairs_values fill dv (f : number -> bool) shapes :
  Forall (fun p => item_ok (snd p)) shapes ->
  forallb f (map snd (pairs_of fill dv shapes))
  = forallb f (values_of fill dv shapes).
Proof.
  unfold pairs_of, values_of.
  induction 1 as [|[index it] rest Hit _ IH]; [reflexivity|].
  cbn [flat_map filter snd] in *. rewrite map_app, forallb_app, IH.
  unfold is_valid_item at 2. destruct Hit as [Hv|[Hv [kvs Hk]]].
  - unfold shape_pairs, item_shapes, is_valid_item. rewrite Hv. reflexivity.
  - rewrite Hv. cbn [map forallb snd]. f_equal.
    rewrite Hk in Hv.
    destruct (shape_pairs_valid fill dv it kvs Hk Hv) as (part & parts & ->).
    apply forallb_same_value.
Qed.

(** *** The loop against the normalisation *)

(** A call whose loop completes has met no item it could not get
    past. *)
Lemma items_ok_of_loop fill dv shapes ws r :
  shapes_loop fill dv (enumerate shapes) [] [] = (ws, Ok r) ->
  Forall item_ok shapes.
Proof.
  intros Hloop.
  pose proof (shapes_loop_items_ok _ _ _ _ _ _ _ Hloop) as Hok.
  apply Forall_forall. intros it Hit.
  apply In_nth_error in Hit. destruct Hit as [i Hi].
  rewrite Forall_forall in Hok.
  apply (Hok (i, it)). unfold enumerate. apply in_combine_seq.
  rewrite Nat.sub_0_r. split; [lia | exact Hi].
Qed.

(** A valid mapping is a geometry of a plain type, which is its own
    only part, or a collection, whose parts are its members. *)
Lemma valid_dict_cases kvs :
  is_valid_geom (PDict kvs) = Ok true ->
  (exists t, dict_get "type" kvs = Some (PStr t)
             /\ t <> "GeometryCollection"
             /\ geom_parts (PDict kvs) = Ok [PDict kvs])
  \/ (exists members,
         dict_get "type" kvs = Some (PStr "GeometryCollection")
         /\ dict_get "geometries" kvs = Some (PList members)
         /\ geom_parts (PDict kvs) = Ok members).
Proof.
  rewrite is_valid_geom_dict. unfold recognised_type, geom_parts.
  destruct (dict_get "type" kvs) as [[| | |t| | |]|]; try discriminate.
  destruct (str_in t (geom_types ++ ["GeometryCollection"])) eqn:Hall;
    [|discriminate].
  cbn [is_str]. destruct (str_in t geom_types) eqn:Hleaf.
  - intros _. left. exists t. split; [reflexivity|].
    pose proof (str_in_leaf_not_collection _ Hleaf) as Hne.
    rewrite Hne. split; [|reflexivity].
    intros ->. rewrite String.eqb_refl in Hne. discriminate.
  - unfold str_in in Hall, Hleaf. rewrite existsb_app, Hleaf in Hall.
    cbn in Hall. rewrite orb_false_r in Hall.
    apply String.eqb_eq in Hall. subst t. cbn [String.eqb Ascii.eqb Bool.eqb].
    destruct (dict_get "geometries" kvs) as [[| | | |[|g gs]| |]|];
      try discriminate.
    intros _. right. exists (g :: gs). auto.
Qed.

Lemma item_value_burned fill dv it :
  burned_value fill dv it (item_value fill dv it).
Proof. destruct it as [geom [v|]|geom]; constructor. Qed.

(** The pairs the loop makes of an item it gets past are the ones the
    normalisation asks for. *)
Lemma item_burned fill dv it :
  item_ok it -> burned_as fill dv it (shape_pairs fill dv it).
Proof.
  intros [Hv|[Hv [kvs Hk]]];
    unfold shape_pairs, item_shapes, is_valid_item, first_level_members;
    rewrite Hv.
  - apply burned_nothing.
    destruct it; exact Hv.
  - rewrite Hk in Hv |- *.
    assert (Hg : geo_interface (given_geom it) = PDict kvs)
      by (destruct it; exact Hk).
    destruct (valid_dict_cases kvs Hv)
      as [(t & Ht & Hne & ->)|(members & Ht & Hm & ->)].
    + cbn [map]. eapply burned_single; eauto using item_value_burned.
    + eapply burned_members; eauto using item_value_burned.
Qed.

Lemma burned_value_functional fill dv it v v' :
  burned_value fill dv it v -> burned_value fill dv it v' -> v = v'.
Proof. intros H H'. destruct H; inversion H'; reflexivity. Qed.

(** The normalisation leaves no choice. *)
Lemma burned_as_functional fill dv it l l' :
  burned_as fill dv it l -> burned_as fill dv it l' -> l = l'.
Proof.
  intros H H'.
  destruct H as [kvs t v Hg Hv Ht Hne Hval|kvs members v Hg Hv Ht Hm Hval|Hv];
    destruct H' as [kvs' t' v' Hg' Hv' Ht' Hne' Hval'
                   |kvs' members' v' Hg' Hv' Ht' Hm' Hval'|Hv'];
    try (rewrite Hg in Hg'; injection Hg' as <-);
    try (rewrite Hg in Hv'; congruence);
    try (rewrite Hg' in Hv; congruence);
    try reflexivity.
  - rewrite (burned_value_functional _ _ _ _ _ Hval Hval'). reflexivity.
  - congruence.
  - congruence.
  - rewrite (burned_value_functional _ _ _ _ _ Hval Hval').
    rewrite Hm in Hm'. injection Hm' as <-. reflexivity.
Qed.

Lemma burned_all_functional fill dv shapes :
  forall parts parts',
  Forall2 (burned_as fill dv) shapes parts ->
  Forall2 (burned_as fill dv) shapes parts' -> parts = parts'.
Proof.
  induction shapes as [|it rest IH]; intros parts parts' H H';
    inversion H; inversion H'; subst; [reflexivity|].
  f_equal; [eapply burned_as_functional; eassumption | apply IH; assumption].
Qed.

(** C7.  A call that returns has burned, in the order of [shapes], the
    shapes each item stands for, with the value it carries.  An item
    carries the value given with it, [fill] when that value is [None],
    [default_value] when it is a geometry alone, and its geometry is
    its [__geo_interface__] when it has one; a valid geometry that is
    not a collection is burned as itself, a valid GeometryCollection as
    each of its first-level members, with the value of the collection,
    the members being taken as they are, and an item the check rejects
    as nothing.  No other list of shapes and values meets this
    description. *)
Theorem rasterize_normalizes_and_flattens shapes out_shape fill out T
    all_touched merge_alg default_value dtype ws a :
  rasterize shapes out_shape fill out T all_touched merge_alg
            default_value dtype = (ws, Ok a) ->
  exists parts o T',
    Forall2 (burned_as fill default_value) shapes parts
    /\ (forall parts',
          Forall2 (burned_as fill default_value) shapes parts' ->
          parts' = parts)
    /\ guard_transform T = Ok T'
    /\ a = _rasterize (List.concat parts) o T' all_touched merge_alg.
Proof.
  intros H.
  destruct (rasterize_returns _ _ _ _ _ _ _ _ _ _ _ H)
    as (o & T' & Hloop & _ & HT & Ha).
  pose proof (items_ok_of_loop _ _ _ _ _ Hloop) as Hok.
  assert (Hb : Forall2 (burned_as fill default_value) shapes
                 (map (shape_pairs fill default_value) shapes)).
  { clear -Hok. induction Hok as [|it rest Hit _ IH]; cbn [map];
      constructor; [apply item_burned; exact Hit | exact IH]. }
  exists (map (shape_pairs fill default_value) shapes), o, T'.
  split; [exact Hb|]. split.
  - intros parts' Hb'. eapply burned_all_functional; eassumption.
  - split; [exact HT|]. rewrite <- flat_map_concat_map. exact Ha.
Qed.

(** *** No dtype and no buffer given *)

Lemma finish_ok_inv vs vals out_shape fill out T all_touched merge_alg dtype a :
  finish vs vals out_shape fill out T all_touched merge_alg dtype = Ok a ->
  exists d o T',
    vs <> []
    /\ resolve_dtype vals fill dtype = Ok d
    /\ resolve_out vals fill d out out_shape = Ok o
    /\ guard_transform T = Ok T'
    /\ a = _rasterize vs o T' all_touched merge_alg.
Proof.
  unfold finish. destruct vs as [|p vs]; [discriminate|].
  destruct (negb (validate_dtype vals valid_dtypes)); [discriminate|].
  destruct (resolve_dtype vals fill dtype) as [d|e] eqn:Hd; [|discriminate].
  cbn [bind].
  destruct (resolve_out vals fill d out out_shape) as [o|e] eqn:Ho;
    [|discriminate].
  cbn [bind].
  destruct (Nat.eqb (Nat.min (height o) (width o)) 0); [discriminate|].
  destruct (guard_transform T) as [T'|e] eqn:HT; [|discriminate].
  cbn [bind]. intros H. injection H as <-.
  exists d, o, T'. repeat split; try assumption. discriminate.
Qed.


Lemma least_holding_last d vs v :
  least_holding d (vs ++ [v]) -> holds d v = true.
Proof.
  intros (_ & Hall & _). unfold holds_all in Hall.
  rewrite forallb_app in Hall. apply andb_true_iff in Hall.
  destruct Hall as [_ Hall]. cbn [forallb] in Hall.
  rewrite andb_true_r in Hall. exact Hall.
Qed.

(** *** The mask *)





(** *** The output array *)

Lemma values_of_enumerate fill dv shapes :
  values_of fill dv (enumerate shapes)
  = map (item_value fill dv) (filter is_valid_item shapes).
Proof.
  unfold values_of, enumerate. generalize 0.
  induction shapes as [|it rest IH]; intros k; [reflexivity|].
  cbn [List.length seq combine filter snd].
  destruct (is_valid_item it); cbn [map snd]; rewrite IH; reflexivity.
Qed.

(** A call that returns has passed the three checks. *)
Lemma rasterize_ok_checks shapes out_shape fill out T all_touched merge_alg
    default_value dtype ws a :
  rasterize shapes out_shape fill out T all_touched merge_alg
            default_value dtype = (ws, Ok a) ->
  check_fill fill dtype = Ok tt
  /\ check_default_value default_value dtype = Ok tt
  /\ check_dtype dtype = Ok tt.
Proof.
  intros H.
  destruct (check_fill_cases fill dtype) as [H1|[e H1]].
  2:{ unfold rasterize in H. rewrite H1, bindM_lift in H. discriminate. }
  destruct (check_default_value_cases default_value dtype) as [H2|[e H2]].
  2:{ unfold rasterize in H.
      rewrite H1, bindM_lift, H2, bindM_lift in H. discriminate. }
  destruct (check_dtype_cases dtype) as [H3|[e H3]].
  2:{ unfold rasterize in H.
      rewrite H1, bindM_lift, H2, bindM_lift, H3, bindM_lift in H.
      discriminate. }
  auto.
Qed.

(** What is returned has no side of length zero, and its values passed
    the check of their dtype. *)
Lemma finish_ok_size vs vals out_shape fill out T all_touched merge_alg dtype a :
  finish vs vals out_shape fill out T all_touched merge_alg dtype = Ok a ->
  validate_dtype vals valid_dtypes = true
  /\ 0 < height a /\ 0 < width a.
Proof.
  unfold finish. destruct vs as [|p vs]; [discriminate|].
  destruct (validate_dtype vals valid_dtypes); [|discriminate].
  cbn [negb].
  destruct (resolve_dtype vals fill dtype) as [d|e]; [|discriminate].
  cbn [bind].
  destruct (resolve_out vals fill d out out_shape) as [o|e]; [|discriminate].
  cbn [bind].
  destruct (Nat.eqb (Nat.min (height o) (width o)) 0) eqn:Hmin; [discriminate|].
  destruct (guard_transform T) as [T'|e]; [|discriminate].
  cbn [bind]. intros H. injection H as H. subst a.
  destruct (rasterize_burn_shape T' all_touched merge_alg vs
              (burn_shape T' all_touched merge_alg o p)) as (_ & -> & ->).
  cbn [burn_shape height width].
  apply Nat.eqb_neq in Hmin. split; [reflexivity|]. lia.
Qed.

(** The amended C2.  When [rasterize] is called with an output shape
    and neither [dtype] nor [out], and returns, the dtype of the
    result is the one [get_minimum_dtype] gives for the values of the
    valid shapes followed by [fill], and the result is a new array of
    the shape asked for, filled with [fill] and with the shapes burned
    in: a pixel no burned shape covers holds [fill] as that dtype
    stores it.  When [get_minimum_dtype] returns the smallest member of
    the lattice that holds the values it is given, this dtype is the
    smallest member that holds the value of every burned shape and
    [fill]: no member that holds them is narrower, it is the unsigned
    kind of its width when that one holds them, and it is a float kind
    only when no integer kind holds them; and when moreover an integer
    dtype stores unchanged the integers of its range and the dtype is
    not a float kind, an uncovered pixel equals [fill]. *)
Theorem rasterize_minimum_dtype_fresh_buffer shapes out_shape fill T
    all_touched merge_alg default_value ws a :
  rasterize shapes (Some out_shape) fill None T all_touched merge_alg
            default_value None = (ws, Ok a) ->
  let burned := flat_map (shape_pairs fill default_value) shapes in
  let shape_values := map (item_value fill default_value)
                          (filter is_valid_item shapes) in
  let values := map snd burned ++ [fill] in
  Rasterize.dtype a = get_minimum_dtype (shape_values ++ [fill])
  /\ out_shape = [height a; width a]
  /\ exists T',
       guard_transform T = Ok T'
       /\ a = _rasterize burned
                (full (height a) (width a) (Rasterize.dtype a) fill)
                T' all_touched merge_alg
       /\ (forall r c,
             (forall g v, In (g, v) burned ->
                          covers g T' all_touched r c = false) ->
             px a r c = astype (Rasterize.dtype a) fill)
       /\ ((forall vs, least_holding (get_minimum_dtype vs) vs) ->
           least_holding (Rasterize.dtype a) values
           /\ (forall d', In d' lattice -> holds_all d' values = true ->
                 Dtypes.width (Rasterize.dtype a) <= Dtypes.width d'
                 /\ (is_unsigned d' = true ->
                     Dtypes.width d' = Dtypes.width (Rasterize.dtype a) ->
                     Rasterize.dtype a = d')
                 /\ (is_float (Rasterize.dtype a) = true ->
                     is_float d' = true))
           /\ ((forall d lo hi z,
                   int_range d = Some (lo, hi) -> (lo <= z <= hi)%Z ->
                   astype d (Int z) = Int z) ->
               is_float (Rasterize.dtype a) = false ->
               forall r c,
                 (forall g v, In (g, v) burned ->
                              covers g T' all_touched r c = false) ->
                 px a r c = fill)).
Proof.
  intros Hr burned shape_values values.
  destruct (rasterize_returns _ _ _ _ _ _ _ _ _ _ _ Hr)
    as (o0 & T0 & Hloop & Hfin & _ & _).
  pose proof (shapes_loop_items_ok _ _ _ _ _ _ _ Hloop) as Hok.
  pose proof Hfin as Hfin'.
  rewrite pairs_of_enumerate, values_of_enumerate in Hfin.
  fold burned shape_values in Hfin.
  apply finish_ok_inv in Hfin.
  destruct Hfin as (d & o & T' & _ & Hd & Ho & HT & ->).
  cbn [resolve_dtype] in Hd. injection Hd as Hd.
  cbn [resolve_out] in Ho.
  destruct out_shape as [|h [|w [|x l]]]; try discriminate.
  injection Ho as <-.
  destruct (rasterize_burn_shape T' all_touched merge_alg burned
              (full h w d fill)) as (Hdt & Hh & Hw).
  rewrite Hdt, Hh, Hw. cbn [full Rasterize.dtype height width].
  assert (Hpx : forall r c,
             (forall g v, In (g, v) burned ->
                          covers g T' all_touched r c = false) ->
             px (_rasterize burned (full h w d fill) T' all_touched merge_alg)
                r c = astype d fill).
  { intros r c Hnone. rewrite rasterize_uncovered by exact Hnone.
    reflexivity. }
  split; [symmetry; exact Hd|]. split; [reflexivity|].
  exists T'. split; [exact HT|]. split; [reflexivity|].
  split; [exact Hpx|].
  intros Hmin.
  assert (Hleast : least_holding d values).
  { rewrite <- Hd.
    apply (least_holding_ext _ (shape_values ++ [fill])); [|apply Hmin].
    intros d'. unfold values, holds_all. rewrite !forallb_app. f_equal.
    unfold shape_values. rewrite <- values_of_enumerate.
    rewrite <- pairs_values by exact Hok.
    rewrite pairs_of_enumerate. reflexivity. }
  split; [exact Hleast|]. split.
  { intros d' Hd' Hh'. split; [|split].
    - eapply least_holding_width; eassumption.
    - intros Hu Hwd. eapply least_holding_unsigned; eassumption.
    - eapply least_holding_float; eassumption. }
  intros Hint Hnf r c Hnone. rewrite (Hpx r c Hnone).
  pose proof (least_holding_last _ _ _ Hleast) as Hfill.
  destruct Hleast as (Hin & _ & _).
  unfold holds in Hfill.
  destruct (int_range d) as [[lo hi]|] eqn:Hrange.
  - destruct fill as [z|q]; [|discriminate].
    apply andb_true_iff in Hfill. destruct Hfill as [Hlo Hhi].
    apply (Hint d lo hi z Hrange). split; apply Z.leb_le; assumption.
  - exfalso. clear -Hin Hnf Hrange.
    repeat (destruct Hin as [<-|Hin]; [discriminate|]). destruct Hin.
Qed.

(** X6.  With [out] given, a call that returns has written into [out]: the
    dtype of [out] is admissible and the values of the valid shapes
    can be cast into it, neither side of [out] has length zero, and
    the result is [out] with the shapes burned in, so that it has the
    dtype and the shape of [out] and a pixel no shape covers keeps the
    value [out] had, [fill] not being written.  [out_shape] is not
    looked at: any other gives the same result. *)
Theorem rasterize_into_out shapes out_shape fill o T all_touched merge_alg
    default_value dtype ws a :
  rasterize shapes out_shape fill (Some o) T all_touched merge_alg
            default_value dtype = (ws, Ok a) ->
  let burned := flat_map (shape_pairs fill default_value) shapes in
  let values := map (item_value fill default_value)
                    (filter is_valid_item shapes) in
  in_valid_dtypes (Rasterize.dtype o) = true
  /\ can_cast_dtype values (Rasterize.dtype o) = true
  /\ Rasterize.dtype a = Rasterize.dtype o
  /\ height a = height o /\ width a = width o
  /\ 0 < height o /\ 0 < width o
  /\ (exists T',
        guard_transform T = Ok T'
        /\ a = _rasterize burned o T' all_touched merge_alg
        /\ forall r c,
             (forall g v, In (g, v) burned ->
                          covers g T' all_touched r c = false) ->
             px a r c = px o r c)
  /\ forall out_shape',
       rasterize shapes out_shape' fill (Some o) T all_touched merge_alg
                 default_value dtype = (ws, Ok a).
Proof.
  intros Hr burned values.
  destruct (rasterize_returns _ _ _ _ _ _ _ _ _ _ _ Hr)
    as (o0 & T0 & _ & Hfin & _ & _).
  rewrite pairs_of_enumerate, values_of_enumerate in Hfin.
  fold burned values in Hfin.
  destruct (finish_ok_size _ _ _ _ _ _ _ _ _ _ Hfin) as (_ & Hh & Hw).
  apply finish_ok_inv in Hfin.
  destruct Hfin as (d & o' & T' & _ & _ & Ho & HT & ->).
  cbn [resolve_out] in Ho.
  destruct (in_valid_dtypes (Rasterize.dtype o)); [|discriminate].
  destruct (can_cast_dtype values (Rasterize.dtype o)); [|discriminate].
  cbn [negb] in Ho. injection Ho as <-.
  destruct (rasterize_burn_shape T' all_touched merge_alg burned o)
    as (Hdt & Hht & Hwd).
  rewrite Hht in Hh. rewrite Hwd in Hw.
  repeat (split; [first [reflexivity | assumption]|]).
  split.
  - exists T'. split; [exact HT|]. split; [reflexivity|].
    intros r c Hnone. apply rasterize_uncovered. exact Hnone.
  - intros out_shape'. exact Hr.
Qed.

(** X7.  Without [out], a call that returns was given an [out_shape] of two
    lengths, neither of them zero, and returns a new array of that
    shape: its dtype is [dtype] when one is given, which is then
    admissible and one the values of the valid shapes can be cast
    into, and else the one [get_minimum_dtype] gives for these values
    followed by [fill]; the array was filled with [fill] before the
    shapes were burned in, so that a pixel no shape covers holds
    [fill] as its dtype stores it. *)
Theorem rasterize_allocates shapes out_shape fill T all_touched merge_alg
    default_value dtype ws a :
  rasterize shapes out_shape fill None T all_touched merge_alg
            default_value dtype = (ws, Ok a) ->
  let burned := flat_map (shape_pairs fill default_value) shapes in
  let values := map (item_value fill default_value)
                    (filter is_valid_item shapes) in
  out_shape = Some [height a; width a]
  /\ 0 < height a /\ 0 < width a
  /\ match dtype with
     | Some d =>
         Rasterize.dtype a = d /\ in_valid_dtypes d = true
         /\ can_cast_dtype values d = true
     | None => Rasterize.dtype a = get_minimum_dtype (values ++ [fill])
     end
  /\ exists T',
       guard_transform T = Ok T'
       /\ a = _rasterize burned
                (full (height a) (width a) (Rasterize.dtype a) fill)
                T' all_touched merge_alg
       /\ forall r c,
            (forall g v, In (g, v) burned ->
                         covers g T' all_touched r c = false) ->
            px a r c = astype (Rasterize.dtype a) fill.
Proof.
  intros Hr burned values.
  destruct (rasterize_ok_checks _ _ _ _ _ _ _ _ _ _ _ Hr) as (_ & _ & Hck).
  destruct (rasterize_returns _ _ _ _ _ _ _ _ _ _ _ Hr)
    as (o0 & T0 & _ & Hfin & _ & _).
  rewrite pairs_of_enumerate, values_of_enumerate in Hfin.
  fold burned values in Hfin.
  destruct (finish_ok_size _ _ _ _ _ _ _ _ _ _ Hfin) as (_ & Hh & Hw).
  apply finish_ok_inv in Hfin.
  destruct Hfin as (d & o' & T' & _ & Hd & Ho & HT & ->).
  cbn [resolve_out] in Ho.
  destruct out_shape as [[|h [|w [|x l]]]|]; try discriminate.
  injection Ho as <-.
  destruct (rasterize_burn_shape T' all_touched merge_alg burned
              (full h w d fill)) as (Hdt & Hht & Hwd).
  rewrite Hdt, Hht, Hwd in *. cbn [full Rasterize.dtype height width] in *.
  split; [reflexivity|]. split; [exact Hh|]. split; [exact Hw|]. split.
  - unfold resolve_dtype in Hd. destruct dtype as [d0|].
    + destruct (can_cast_dtype values d0); [|discriminate].
      cbn [negb] in Hd. injection Hd as <-.
      unfold check_dtype in Hck.
      destruct (in_valid_dtypes d0); [|discriminate]. auto.
    + injection Hd as <-. reflexivity.
  - exists T'. split; [exact HT|]. split; [reflexivity|].
    intros r c Hnone. rewrite rasterize_uncovered by exact Hnone.
    reflexivity.
Qed.


(** *** An item the loop cannot get past *)

Lemma shapes_loop_app fill dv l1 l2 :
  forall vs vals,
  shapes_loop fill dv (l1 ++ l2) vs vals
  = match shapes_loop fill dv l1 vs vals with
    | (ws, Ok (vs1, vals1)) =>
        (ws ++ fst (shapes_loop fill dv l2 vs1 vals1),
         snd (shapes_loop fill dv l2 vs1 vals1))
    | (ws, Raise e) => (ws, Raise e)
    end.
Proof.
  induction l1 as [|[index it] rest IH]; intros vs vals.
  - cbn. destruct (shapes_loop fill dv l2 vs vals); reflexivity.
  - cbn [app shapes_loop]. rewrite !bindM_lift.
    destruct (is_valid_geom (item_geom it)) as [[|]|e]; [| |reflexivity].
    + rewrite ?bindM_lift.
      destruct (geom_parts (item_geom it)) as [parts|e]; [|reflexivity].
      apply IH.
    + rewrite ?bindM_warn, IH.
      destruct (shapes_loop fill dv rest vs vals) as [ws [[vs1 vals1]|e]];
        reflexivity.
Qed.

Lemma enumerate_app {A} (l1 l2 : list A) :
  enumerate (l1 ++ l2)
  = enumerate l1 ++ combine (seq (List.length l1) (List.length l2)) l2.
Proof.
  unfold enumerate.
  change (List.length l1) with (0 + List.length l1) at 2. generalize 0.
  induction l1 as [|x l1 IH]; intros k.
  - cbn. rewrite Nat.add_0_r. reflexivity.
  - cbn [app List.length seq combine]. rewrite IH.
    rewrite Nat.add_succ_r. reflexivity.
Qed.

(** The parts of a geometry that passed the check are there unless it
    is an object and not a mapping. *)
Lemma geom_parts_exn geom e :
  is_valid_geom geom = Ok true -> geom_parts geom = Raise e ->
  e = TypeError /\ forall kvs, geom <> PDict kvs.
Proof.
  intros Hv Hp. destruct geom as [| | | | |kvs|];
    try (injection Hp as <-; split; [reflexivity | discriminate]).
  destruct (valid_dict_parts kvs Hv) as (part & parts & H).
  rewrite H in Hp. discriminate.
Qed.

(** An item the loop does not get past makes it raise. *)
Lemma shapes_loop_stops fill dv index it rest vs vals :
  ~ item_ok it ->
  exists e,
    type_or_key_error e
    /\ (is_valid_geom (item_geom it) = Raise e
        \/ (is_valid_geom (item_geom it) = Ok true /\ e = TypeError
            /\ forall kvs, item_geom it <> PDict kvs))
    /\ shapes_loop fill dv ((index, it) :: rest) vs vals = ([], Raise e).
Proof.
  intros Hbad. cbn [shapes_loop]. rewrite bindM_lift.
  destruct (is_valid_geom (item_geom it)) as [[|]|e] eqn:Hv.
  - rewrite bindM_lift.
    destruct (geom_parts (item_geom it)) as [parts|e] eqn:Hp.
    + exfalso. apply Hbad. right. split; [exact Hv|].
      unfold geom_parts in Hp. destruct (item_geom it); try discriminate.
      eexists; reflexivity.
    + destruct (geom_parts_exn _ _ Hv Hp) as [-> Hnd].
      exists TypeError. split; [left; reflexivity|]. split; [|reflexivity].
      right. auto.
  - exfalso. apply Hbad. left. exact Hv.
  - exists e. split; [exact (is_valid_geom_exn _ _ Hv)|].
    split; [left|]; reflexivity.
Qed.

(** X8.  The items of [shapes] are looked at in order, and the first one
    the loop cannot get past ends the call: when the checks on [fill],
    [default_value] and [dtype] pass, the items before it are either
    rejected by the check or valid mappings, and the check of the item
    raises, or accepts an object that is not a mapping, then the call
    raises that exception, a [TypeError] or a [KeyError], after the
    warnings for the rejected items before it, and whatever comes after
    the item plays no part. *)
Theorem rasterize_stops_at_first_failure before it after out_shape fill out T
    all_touched merge_alg default_value dtype :
  check_fill fill dtype = Ok tt ->
  check_default_value default_value dtype = Ok tt ->
  check_dtype dtype = Ok tt ->
  Forall item_ok before -> ~ item_ok it ->
  exists e ws,
    (e = TypeError \/ e = KeyError)
    /\ (is_valid_geom (item_geom it) = Raise e
        \/ (is_valid_geom (item_geom it) = Ok true /\ e = TypeError
            /\ forall kvs, item_geom it <> PDict kvs))
    /\ (forall i, In i ws <->
          exists it', nth_error before i = Some it'
                      /\ is_valid_geom (item_geom it') = Ok false)
    /\ rasterize (before ++ it :: after) out_shape fill out T all_touched
                 merge_alg default_value dtype = (ws, Raise e).
Proof.
  intros H1 H2 H3 Hok Hbad.
  destruct (shapes_loop_stops fill default_value (List.length before) it
              (combine (seq (S (List.length before)) (List.length after)) after)
              (pairs_of fill default_value (enumerate before))
              (values_of fill default_value (enumerate before)) Hbad)
    as (e & He & Hcase & Hstop).
  exists e, (warned (enumerate before)).
  split; [exact He|]. split; [exact Hcase|]. split.
  - intros i. rewrite warned_enumerate. rewrite Forall_forall in Hok.
    split; intros (it' & Hn & Hv); exists it'; (split; [exact Hn|]).
    + unfold is_valid_item in Hv.
      destruct (Hok it' (nth_error_In _ _ Hn)) as [H|[H _]];
        [exact H | rewrite H in Hv; discriminate].
    + unfold is_valid_item. rewrite Hv. reflexivity.
  - rewrite (rasterize_checked _ _ _ _ _ _ _ _ _ H1 H2 H3).
    rewrite enumerate_app, shapes_loop_app.
    rewrite (shapes_loop_total fill default_value (enumerate before))
      by (apply Forall_forall; intros p Hp; rewrite Forall_forall in Hok;
          apply Hok, in_enumerate_snd, Hp).
    cbn [app List.length seq combine] in *. rewrite Hstop.
    unfold bindM. cbn [fst snd]. rewrite app_nil_r. reflexivity.
Qed.


(** *** The warnings, whatever the outcome *)

Lemma shapes_loop_warning fill dv shapes :
  forall vs vals i,
  In i (fst (shapes_loop fill dv shapes vs vals)) ->
  exists it, In (i, it) shapes /\ is_valid_geom (item_geom it) = Ok false.
Proof.
  induction shapes as [|[index it] rest IH]; intros vs vals i; [intros []|].
  cbn [shapes_loop]. rewrite bindM_lift.
  destruct (is_valid_geom (item_geom it)) as [[|]|e] eqn:Hv; [| |intros []].
  - rewrite bindM_lift.
    destruct (geom_parts (item_geom it)) as [parts|e]; [|intros []].
    intros H. destruct (IH _ _ _ H) as (it' & Hin & Hv').
    exists it'. split; [right|]; assumption.
  - rewrite bindM_warn. cbn [fst]. intros [<-|H].
    + exists it. split; [left; reflexivity | exact Hv].
    + destruct (IH _ _ _ H) as (it' & Hin & Hv').
      exists it'. split; [right|]; assumption.
Qed.

Lemma shapes_loop_sorted fill dv shapes :
  StronglySorted lt (map fst shapes) ->
  forall vs vals,
  StronglySorted lt (fst (shapes_loop fill dv shapes vs vals)).
Proof.
  induction shapes as [|[index it] rest IH]; intros Hs vs vals;
    [constructor|].
  cbn [map fst] in Hs. apply StronglySorted_inv in Hs. destruct Hs as [Hs Hlt].
  cbn [shapes_loop]. rewrite bindM_lift.
  destruct (is_valid_geom (item_geom it)) as [[|]|e]; [| |constructor].
  - rewrite bindM_lift.
    destruct (geom_parts (item_geom it)) as [parts|e]; [|constructor].
    apply IH, Hs.
  - rewrite bindM_warn. cbn [fst]. constructor; [apply IH, Hs|].
    apply Forall_forall. intros i Hi.
    destruct (shapes_loop_warning _ _ _ _ _ _ Hi) as (it' & Hin & _).
    rewrite Forall_forall in Hlt. apply Hlt.
    apply in_map_iff. exists (i, it'). auto.
Qed.

Lemma seq_sorted n : forall k, StronglySorted lt (seq k n).
Proof.
  induction n as [|n IH]; intros k; cbn [seq]; constructor; [apply IH|].
  apply Forall_forall. intros i Hi. apply in_seq in Hi. lia.
Qed.

Lemma enumerate_indices {A} (l : list A) :
  map fst (enumerate l) = seq 0 (List.length l).
Proof.
  unfold enumerate. generalize 0.
  induction l as [|x l IH]; intros k; [reflexivity|].
  cbn [List.length seq combine map fst]. rewrite IH. reflexivity.
Qed.

(** The warnings of a call are those of its loop, or none. *)
Lemma rasterize_warnings shapes out_shape fill out T all_touched merge_alg
    default_value dtype :
  let ws := fst (rasterize shapes out_shape fill out T all_touched merge_alg
                           default_value dtype) in
  ws = [] \/ ws = fst (shapes_loop fill default_value (enumerate shapes) [] []).
Proof.
  cbv zeta.
  destruct (check_fill_cases fill dtype) as [H1|[e H1]].
  2:{ left. unfold rasterize. rewrite H1, bindM_lift. reflexivity. }
  destruct (check_default_value_cases default_value dtype) as [H2|[e H2]].
  2:{ left. unfold rasterize.
      rewrite H1, bindM_lift, H2, bindM_lift. reflexivity. }
  destruct (check_dtype_cases dtype) as [H3|[e H3]].
  2:{ left. unfold rasterize.
      rewrite H1, bindM_lift, H2, bindM_lift, H3, bindM_lift. reflexivity. }
  right. rewrite (rasterize_checked _ _ _ _ _ _ _ _ _ H1 H2 H3).
  unfold bindM.
  destruct (shapes_loop fill default_value (enumerate shapes) [] [])
    as [ws [lists|e]]; cbn [fst snd lift]; [apply app_nil_r | reflexivity].
Qed.

(** X9.  However a call ends, with an array or with an exception, the
    warnings it has emitted by then come in the order of [shapes], with
    increasing indices and so one at most for an item, and each is the
    index of an item of [shapes] that the check rejected by returning
    [False]: an item on which the check raises is not warned about. *)
Theorem rasterize_warnings_in_order shapes out_shape fill out T all_touched
    merge_alg default_value dtype :
  let ws := fst (rasterize shapes out_shape fill out T all_touched merge_alg
                           default_value dtype) in
  StronglySorted lt ws
  /\ forall i, In i ws ->
       exists it, nth_error shapes i = Some it
                  /\ is_valid_geom (item_geom it) = Ok false.
Proof.
  intros ws.
  destruct (rasterize_warnings shapes out_shape fill out T all_touched
              merge_alg default_value dtype) as [H|H];
    fold ws in H; rewrite H.
  - split; [constructor | intros i []].
  - split.
    + apply shapes_loop_sorted. rewrite enumerate_indices. apply seq_sorted.
    + intros i Hi.
      destruct (shapes_loop_warning _ _ _ _ _ _ Hi) as (it & Hin & Hv).
      exists it. split; [|exact Hv].
      unfold enumerate in Hin. apply in_combine_seq in Hin.
      rewrite Nat.sub_0_r in Hin. apply Hin.
Qed.

(** *** Values given or left out *)

(** The item with the value the loop gives it written out. *)
Definition with_value (fill default_value : number) (it : item) : item :=
  match it with
  | Pair geom _ => Pair geom (Some (item_value fill default_value it))
  | Bare geom => Pair geom (Some default_value)
  end.

Lemma shapes_loop_with_value fill dv shapes :
  forall k vs vals,
  shapes_loop fill dv
    (combine (seq k (List.length (map (with_value fill dv) shapes)))
             (map (with_value fill dv) shapes)) vs vals
  = shapes_loop fill dv (combine (seq k (List.length shapes)) shapes) vs vals.
Proof.
  induction shapes as [|it rest IH]; intros k vs vals; [reflexivity|].
  cbn [map List.length seq combine shapes_loop].
  replace (item_geom (with_value fill dv it)) with (item_geom it)
    by (destruct it; reflexivity).
  replace (item_value fill dv (with_value fill dv it))
    with (item_value fill dv it) by (destruct it as [g [v|]|g]; reflexivity).
  rewrite !bindM_lift.
  destruct (is_valid_geom (item_geom it)) as [[|]|e]; [| |reflexivity].
  - rewrite ?bindM_lift.
    destruct (geom_parts (item_geom it)) as [parts|e]; [|reflexivity].
    apply IH.
  - rewrite ?bindM_warn, IH. reflexivity.
Qed.

(** X10.  Leaving a value out is giving the default: a geometry alone may be
    replaced by the pair of it and [default_value], and a pair whose
    value is [None] by the pair with [fill], without any change to the
    warnings or to the outcome of the call. *)
Theorem rasterize_values_written_out shapes out_shape fill out T all_touched
    merge_alg default_value dtype :
  rasterize (map (with_value fill default_value) shapes) out_shape fill out T
            all_touched merge_alg default_value dtype
  = rasterize shapes out_shape fill out T all_touched merge_alg
              default_value dtype.
Proof.
  unfold rasterize. rewrite !bindM_lift.
  destruct (check_fill fill dtype); [|reflexivity].
  rewrite ?bindM_lift.
  destruct (check_default_value default_value dtype); [|reflexivity].
  rewrite ?bindM_lift.
  destruct (check_dtype dtype); [|reflexivity].
  unfold enumerate. rewrite shapes_loop_with_value. reflexivity.
Qed.


(** *** A mask that is returned *)

Lemma pairs_of_valid_item fill dv (shapes : list (nat * item)) :
  pairs_of fill dv shapes <> [] ->
  exists p, In p shapes /\ is_valid_item (snd p) = true.
Proof.
  intros Hne.
  destruct (pairs_of fill dv shapes) as [|pr rest] eqn:Hp; [congruence|].
  assert (Hin : In pr (pairs_of fill dv shapes))
    by (rewrite Hp; left; reflexivity).
  unfold pairs_of in Hin. apply in_flat_map in Hin.
  destruct Hin as (p & Hps & Hpr). exists p. split; [exact Hps|].
  unfold shape_pairs, item_shapes in Hpr.
  destruct (is_valid_item (snd p)); [reflexivity | destruct Hpr].
Qed.

(** X18.  A mask that [geometry_mask] returns has the shape asked for,
    of two lengths, neither of them zero; some geometry passed the
    check, and every geometry was either rejected by it, with a
    warning, or a valid mapping: no mask comes out of geometries that
    are all invalid, nor of an empty shape. *)
Theorem geometry_mask_returned geometries out_shape T all_touched invert
    ws m :
  geometry_mask geometries out_shape T all_touched invert = (ws, Ok m) ->
  out_shape = [b_height m; b_width m]
  /\ 0 < b_height m /\ 0 < b_width m
  /\ (exists it, In it geometries /\ is_valid_geom (item_geom it) = Ok true)
  /\ Forall item_ok geometries
  /\ forall i, In i ws <->
       exists it, nth_error geometries i = Some it
                  /\ is_valid_geom (item_geom it) = Ok false.
Proof.
  intros Hm.
  set (fill := if invert then Int 0 else Int 1) in *.
  set (mask_value := if invert then Int 1 else Int 0) in *.
  assert (Hr : exists a,
    rasterize geometries (Some out_shape) fill None T all_touched replace
              mask_value None = (ws, Ok a) /\ m = astype_bool a).
  { unfold geometry_mask in Hm.
    replace (if invert then (Int 0, Int 1) else (Int 1, Int 0))
      with (fill, mask_value) in Hm by (destruct invert; reflexivity).
    unfold mapM in Hm.
    destruct (rasterize geometries (Some out_shape) fill None T all_touched
                replace mask_value None) as [ws0 [a|e]];
      cbn [fst snd] in Hm; [|discriminate].
    injection Hm as <- <-. exists a. auto. }
  destruct Hr as (a & Hr & ->). cbn [astype_bool b_height b_width].
  destruct (rasterize_returns _ _ _ _ _ _ _ _ _ _ _ Hr)
    as (o0 & T0 & Hloop & Hfin & _ & _).
  pose proof (shapes_loop_items_ok _ _ _ _ _ _ _ Hloop) as Hok.
  destruct (shapes_loop_inv _ _ _ _ _ _ _ _ Hloop) as (Hws & _ & _).
  destruct (finish_ok_size _ _ _ _ _ _ _ _ _ _ Hfin) as (_ & Hh & Hw).
  apply finish_ok_inv in Hfin.
  destruct Hfin as (d & o & T' & Hne & _ & Ho & _ & Ha).
  assert (Hall : Forall item_ok geometries).
  { apply Forall_forall. intros it Hit.
    apply In_nth_error in Hit. destruct Hit as [i Hi].
    rewrite Forall_forall in Hok.
    apply (Hok (i, it)). unfold enumerate. apply in_combine_seq.
    rewrite Nat.sub_0_r. split; [lia | exact Hi]. }
  split; [|split; [exact Hh|split; [exact Hw|split; [|split; [exact Hall|]]]]].
  - cbn [resolve_out] in Ho.
    destruct out_shape as [|h [|w [|x l]]]; try discriminate.
    injection Ho as <-. subst a.
    destruct (rasterize_burn_shape T' all_touched replace
                (pairs_of fill mask_value (enumerate geometries))
                (full h w d fill)) as (_ & -> & ->).
    reflexivity.
  - destruct (pairs_of_valid_item _ _ _ Hne) as (p & Hp & Hv).
    exists (snd p). split; [apply in_enumerate_snd; exact Hp|].
    unfold is_valid_item in Hv.
    destruct (is_valid_geom (item_geom (snd p))) as [[|]|e];
      [reflexivity | discriminate | discriminate].
  - intros i. rewrite Hws, warned_enumerate. rewrite Forall_forall in Hall.
    split; intros (it & Hn & Hv); exists it; (split; [exact Hn|]).
    + unfold is_valid_item in Hv.
      destruct (Hall it (nth_error_In _ _ Hn)) as [H|[H _]];
        [exact H | rewrite H in Hv; discriminate].
    + unfold is_valid_item. rewrite Hv. reflexivity.
Qed.


End Helpers.

(** *** Runs on a small engine

    The examples use the helpers of [Dtypes], the identity transform,
    and an engine that burns points only: a Point at [(x, y)] covers
    the pixel of row [y] and column [x].  Their arrays keep a value
    the dtype holds as it is, floats included ([np_store] below has
    the rounding of float32), and an integer dtype cuts any other
    number to a whole one and to its range. *)

Definition store (d : np_dtype) (v : number) : number :=
  if holds d v then v
  else match int_range d with
       | Some (lo, hi) =>
           Int (Z.max lo (Z.min hi (Z.quot (Qnum (to_Q v))
                                           (Zpos (Qden (to_Q v))))))
       | None => v
       end.

Lemma store_holds d v : holds d v = true -> store d v = v.
Proof. unfold store. intros ->. reflexivity. Qed.

Definition covers_point (geom : pyval) (T : unit) (all_touched : bool)
    (r c : nat) : bool :=
  match geom with
  | PDict kvs =>
      match dict_get "type" kvs, dict_get "coordinates" kvs with
      | Some (PStr "Point"), Some (PList [PNum (Int x); PNum (Int y)]) =>
          Z.eqb (Z.of_nat c) x && Z.eqb (Z.of_nat r) y
      | _, _ => false
      end
  | _ => false
  end.

Definition point_at (x y : Z) : pyval :=
  PDict [("type", PStr "Point");
         ("coordinates", PList [PNum (Int x); PNum (Int y)])].

Definition run_rasterize :=
  rasterize Dtypes.validate_dtype Dtypes.can_cast_dtype
            Dtypes.get_minimum_dtype store unit (@Ok unit) covers_point.

Definition run_geometry_mask :=
  geometry_mask Dtypes.validate_dtype Dtypes.can_cast_dtype
                Dtypes.get_minimum_dtype store unit (@Ok unit) covers_point.

(** A point, a line that is too short, an empty mapping, a point. *)
Definition mixed_shapes : list item :=
  [Bare (point_at 1 2); Bare short_line; Pair (PDict []) None;
   Pair (point_at 0 0) (Some (Int 300))].

Definition invalid_shapes : list item :=
  [Bare short_line; Pair (PDict []) (Some (Int 7))].

Lemma mixed_shapes_ok : Forall item_ok mixed_shapes.
Proof.
  repeat (apply Forall_cons;
          [first [ left; reflexivity
                 | right; split; [reflexivity | eexists; reflexivity] ]|]).
  apply Forall_nil.
Qed.

Lemma invalid_shapes_ok : Forall item_ok invalid_shapes.
Proof.
  repeat (apply Forall_cons; [left; reflexivity|]). apply Forall_nil.
Qed.

Lemma rasterize_warns_and_skips_invalid_witness :
  shapes_loop (Int 0) (Int 1) (enumerate mixed_shapes) [] []
  = ([1; 2],
     Ok ([(point_at 1 2, Int 1); (point_at 0 0, Int 300)], [Int 1; Int 300]))
  /\ run_rasterize invalid_shapes (Some [3; 3]) (Int 0) None tt false replace
                   (Int 1) None
     = ([0; 1], Raise (ValueError NoValidGeometry)).
Proof.
  split.
  - exact (proj1 (rasterize_warns_and_skips_invalid
                    Dtypes.validate_dtype Dtypes.can_cast_dtype
                    Dtypes.get_minimum_dtype store unit (@Ok unit) covers_point
                    mixed_shapes (Some [3; 3]) (Int 0) None tt false replace
                    (Int 1) None mixed_shapes_ok)).
  - apply (proj2 (proj2 (rasterize_warns_and_skips_invalid
                    Dtypes.validate_dtype Dtypes.can_cast_dtype
                    Dtypes.get_minimum_dtype store unit (@Ok unit) covers_point
                    invalid_shapes (Some [3; 3]) (Int 0) None tt false replace
                    (Int 1) None invalid_shapes_ok)));
      try reflexivity.
    intros it [<-|[<-|[]]]; reflexivity.
Defined.

(** A collection of two points behind an interface, with the value 7,
    a point with no value of its own, and a point alone. *)
Definition two_points : pyval :=
  PDict (collection_of [point_at 0 0; point_at 2 1]).

Definition collection_shapes : list item :=
  [Pair (PObj two_points) (Some (Int 7)); Pair (point_at 1 0) None;
   Bare (point_at 1 1)].

Lemma rasterize_normalizes_and_flattens_witness :
  exists ws a o,
    run_rasterize collection_shapes (Some [2; 3]) (Int 9) None tt false
                  replace (Int 5) None = (ws, Ok a)
    /\ a = _rasterize store unit covers_point
             [(point_at 0 0, Int 7); (point_at 2 1, Int 7);
              (point_at 1 0, Int 9); (point_at 1 1, Int 5)]
             o tt false replace.
Proof.
  destruct (run_rasterize collection_shapes (Some [2; 3]) (Int 9) None tt
              false replace (Int 5) None) as [ws [a|e]] eqn:Hr;
    [|discriminate Hr].
  destruct (rasterize_normalizes_and_flattens
              Dtypes.validate_dtype Dtypes.can_cast_dtype
              Dtypes.get_minimum_dtype store unit (@Ok unit) covers_point
              collection_shapes (Some [2; 3]) (Int 9) None tt false replace
              (Int 5) None ws a Hr)
    as (parts & o & T' & _ & Hunique & _ & Ha).
  destruct T'. exists ws, a, o. split; [reflexivity|].
  rewrite Ha. f_equal.
  rewrite <- (Hunique [[(point_at 0 0, Int 7); (point_at 2 1, Int 7)];
                       [(point_at 1 0, Int 9)]; [(point_at 1 1, Int 5)]]);
    [reflexivity|].
  constructor; [|constructor; [|constructor; [|constructor]]].
  - apply (burned_members (Int 9) (Int 5) _
             (collection_of [point_at 0 0; point_at 2 1])
             [point_at 0 0; point_at 2 1] (Int 7));
      try reflexivity. constructor.
  - apply (burned_single (Int 9) (Int 5) _ _ "Point" (Int 9));
      try reflexivity; [discriminate | constructor].
  - apply (burned_single (Int 9) (Int 5) _ _ "Point" (Int 5));
      try reflexivity; [discriminate | constructor].
Defined.

(** [fill] does not fit the dtype asked for, which is not admissible
    either: the error is the one about [fill]. *)
Lemma rasterize_int8_fill_cast_error :
  in_valid_dtypes int8 = false
  /\ run_rasterize [Bare (point_at 0 0)] (Some [2; 2]) (Int 300) None tt
                   false replace (Int 1) (Some int8)
     = ([], Raise (ValueError (CastError "fill" "int8")))
  /\ ~ (exists param,
          snd (run_rasterize [Bare (point_at 0 0)] (Some [2; 2]) (Int 300)
                             None tt false replace (Int 1) (Some int8))
          = Raise (ValueError (InvalidDtype param))).
Proof.
  split; [reflexivity|]. split; [reflexivity|].
  intros [param H]. discriminate H.
Qed.

(** C1 as the spec states it fails on an invalid geometry on which
    the check raises, a MultiPoint whose coordinates are two numbers:
    the geometry is not skipped with a warning, it ends the call with
    its [TypeError], be it alone, where no valid geometry remains and
    the error is not 'No valid geometry objects found', or followed by
    a valid point, which alone is rasterized. *)
Lemma rasterize_invalid_geometry_aborts :
  is_valid_geom flat_multipoint <> Ok true
  /\ run_rasterize [Bare flat_multipoint] (Some [2; 2]) (Int 0) None tt false
                   replace (Int 1) None
     = ([], Raise TypeError)
  /\ run_rasterize [Bare flat_multipoint; Bare (point_at 0 0)] (Some [2; 2])
                   (Int 0) None tt false replace (Int 1) None
     = ([], Raise TypeError)
  /\ exists a,
       run_rasterize [Bare (point_at 0 0)] (Some [2; 2]) (Int 0) None tt
                     false replace (Int 1) None
       = ([], Ok a).
Proof.
  split; [discriminate|]. split; [reflexivity|]. split; [reflexivity|].
  eexists. reflexivity.
Qed.

Lemma rasterize_explicit_dtype_errors_witness :
  run_rasterize [Bare (point_at 0 0)] (Some [2; 2]) (Int 0) None tt false
                replace (Int 1) (Some int8)
  = ([], Raise (ValueError (InvalidDtype "dtype")))
  /\ run_rasterize mixed_shapes (Some [3; 3]) (Int 0) None tt false replace
                   (Int 1) (Some uint8)
     = ([1; 2], Raise (ValueError (CastError "shape values" "uint8"))).
Proof.
  split.
  - apply (proj1 (rasterize_explicit_dtype_errors
                    Dtypes.validate_dtype Dtypes.can_cast_dtype
                    Dtypes.get_minimum_dtype store unit (@Ok unit) covers_point
                    [Bare (point_at 0 0)] (Some [2; 2]) (Int 0) None tt false
                    replace (Int 1) int8)); reflexivity.
  - apply (proj2 (rasterize_explicit_dtype_errors
                    Dtypes.validate_dtype Dtypes.can_cast_dtype
                    Dtypes.get_minimum_dtype store unit (@Ok unit) covers_point
                    mixed_shapes (Some [3; 3]) (Int 0) None tt false
                    replace (Int 1) uint8)); try reflexivity.
    + exact mixed_shapes_ok.
    + exists (Bare (point_at 1 2)). split; [left; reflexivity | reflexivity].
Defined.

Lemma store_range d lo hi z :
  int_range d = Some (lo, hi) -> (lo <= z <= hi)%Z ->
  store d (Int z) = Int z.
Proof.
  intros Hrange [Hlo Hhi]. apply store_holds. unfold holds.
  rewrite Hrange. apply andb_true_iff. split; apply Z.leb_le; assumption.
Qed.

(** Values 1 and 300 with [fill] 0 need 16 unsigned bits. *)
Definition valid_shapes_300 : list item :=
  [Bare (point_at 1 2); Pair (point_at 0 0) (Some (Int 300))].

Lemma rasterize_minimum_dtype_fresh_buffer_witness :
  exists ws a,
    run_rasterize valid_shapes_300 (Some [3; 2]) (Int 0) None tt false
                  replace (Int 1) None = (ws, Ok a)
    /\ dtype a = Dtypes.get_minimum_dtype [Int 1; Int 300; Int 0]
    /\ least_holding (dtype a) [Int 1; Int 300; Int 0]
    /\ dtype a = uint16
    /\ [3; 2] = [height a; width a]
    /\ px a 0 1 = Int 0 /\ px a 2 1 = Int 1 /\ px a 0 0 = Int 300.
Proof.
  destruct (run_rasterize valid_shapes_300 (Some [3; 2]) (Int 0) None tt false
              replace (Int 1) None) as [ws [a|e]] eqn:Hr; [|discriminate Hr].
  pose proof (rasterize_minimum_dtype_fresh_buffer
                Dtypes.validate_dtype Dtypes.can_cast_dtype
                Dtypes.get_minimum_dtype store unit (@Ok unit) covers_point
                valid_shapes_300 [3; 2] (Int 0) tt false replace (Int 1) ws a
                Hr)
    as (Hdt & Hshape & T' & _ & Ha & _ & Hcontract).
  destruct (Hcontract get_minimum_dtype_least) as (Hleast & _ & Hfill).
  assert (Hu : dtype a = uint16) by (rewrite Hdt; reflexivity).
  exists ws, a. split; [reflexivity|]. split; [exact Hdt|].
  split; [exact Hleast|]. split; [exact Hu|]. split; [exact Hshape|].
  split; [|split].
  - apply (Hfill store_range); [rewrite Hu; reflexivity|].
    intros g v [H|[H|[]]]; injection H as <- <-; reflexivity.
  - unfold run_rasterize in Hr. vm_compute in Hr.
    injection Hr as _ <-. reflexivity.
  - unfold run_rasterize in Hr. vm_compute in Hr.
    injection Hr as _ <-. reflexivity.
Defined.

(** *** An array of float32

    The engine of the examples with the rounding of float32: a number
    written to a float32 array becomes the nearest float32, the one
    with an even significand of the two when it is half way. *)

Definition np_store (d : np_dtype) (v : number) : number :=
  match d with
  | float32 =>
      match round_binary 24 128 (to_Q v) with
      | Some x => Flt x
      | None => v
      end
  | _ => store d v
  end.

(** The Python float [0.1]. *)
Definition tenth : number := Flt (3602879701896397 # 36028797018963968).

(** C2 as the spec states it fails for a [fill] that float32 does not
    store exactly: with [fill] 0.1 and a point of value 1 the dtype is
    float32, and the pixels the point does not cover hold the float32
    nearest to 0.1, which is not [fill]. *)
Lemma rasterize_float_fill_rounded :
  exists a,
    rasterize Dtypes.validate_dtype Dtypes.can_cast_dtype
              Dtypes.get_minimum_dtype np_store unit (@Ok unit) covers_point
              [Bare (point_at 0 0)] (Some [2; 2]) tenth None tt false replace
              (Int 1) None
    = ([], Ok a)
    /\ dtype a = float32
    /\ covers_point (point_at 0 0) tt false 1 1 = false
    /\ px a 1 1 = Flt (13421773 # 134217728)
    /\ num_eqb (px a 1 1) tenth = false.
Proof.
  eexists. split; [reflexivity|].
  split; [reflexivity|]. split; [reflexivity|].
  split; vm_compute; reflexivity.
Qed.

Definition mask_geometries : list item :=
  [Bare (point_at 1 2); Bare short_line].


(** A buffer of 2 by 2 bytes that hold 7. *)
Definition sevens : ndarray :=
  {| dtype := uint8; height := 2; width := 2; px := fun _ _ => Int 7 |}.

Lemma rasterize_into_out_witness :
  exists ws a,
    run_rasterize [Bare (point_at 0 0)] None (Int 0) (Some sevens) tt false
                  replace (Int 1) None = (ws, Ok a)
    /\ dtype a = uint8 /\ height a = 2 /\ width a = 2
    /\ px a 1 1 = Int 7
    /\ run_rasterize [Bare (point_at 0 0)] (Some [5; 5; 5]) (Int 0)
                     (Some sevens) tt false replace (Int 1) None = (ws, Ok a).
Proof.
  destruct (run_rasterize [Bare (point_at 0 0)] None (Int 0) (Some sevens) tt
              false replace (Int 1) None) as [ws [a|e]] eqn:Hr;
    [|discriminate Hr].
  pose proof (rasterize_into_out
                Dtypes.validate_dtype Dtypes.can_cast_dtype
                Dtypes.get_minimum_dtype store unit (@Ok unit) covers_point
                [Bare (point_at 0 0)] None (Int 0) sevens tt false replace
                (Int 1) None ws a Hr)
    as (_ & _ & Hdt & Hh & Hw & _ & _ & (T' & _ & _ & Hpx) & Hshape).
  exists ws, a. split; [reflexivity|].
  split; [exact Hdt|]. split; [exact Hh|]. split; [exact Hw|]. split.
  - rewrite Hpx; [reflexivity|].
    intros g v [H|[]]. injection H as <- <-. reflexivity.
  - exact (Hshape (Some [5; 5; 5])).
Defined.

Lemma rasterize_allocates_witness :
  exists ws a,
    run_rasterize valid_shapes_300 (Some [3; 2]) (Int 0) None tt false
                  replace (Int 1) (Some uint16) = (ws, Ok a)
    /\ Some [3; 2] = Some [height a; width a]
    /\ dtype a = uint16
    /\ px a 0 1 = Int 0.
Proof.
  destruct (run_rasterize valid_shapes_300 (Some [3; 2]) (Int 0) None tt false
              replace (Int 1) (Some uint16)) as [ws [a|e]] eqn:Hr;
    [|discriminate Hr].
  pose proof (rasterize_allocates
                Dtypes.validate_dtype Dtypes.can_cast_dtype
                Dtypes.get_minimum_dtype store unit (@Ok unit) covers_point
                valid_shapes_300 (Some [3; 2]) (Int 0) tt false replace
                (Int 1) (Some uint16) ws a Hr)
    as (Hshape & _ & _ & (Hdt & _ & _) & T' & _ & _ & Hpx).
  exists ws, a. split; [reflexivity|]. split; [exact Hshape|].
  split; [exact Hdt|].
  rewrite Hpx, Hdt; [reflexivity|].
  intros g v [H|[H|[]]]; injection H as <- <-; reflexivity.
Defined.

(** A short line, a MultiPoint whose coordinates are two numbers, a
    point. *)
Definition failing_shapes : list item :=
  [Bare short_line; Bare flat_multipoint; Bare (point_at 0 0)].

Lemma rasterize_stops_at_first_failure_witness :
  run_rasterize failing_shapes (Some [2; 2]) (Int 0) None tt false replace
                (Int 1) None
  = ([0], Raise TypeError).
Proof.
  assert (Hok : Forall item_ok [Bare short_line])
    by (apply Forall_cons; [left; reflexivity | apply Forall_nil]).
  assert (Hbad : ~ item_ok (Bare flat_multipoint))
    by (intros [H|[H _]]; discriminate H).
  destruct (rasterize_stops_at_first_failure
              Dtypes.validate_dtype Dtypes.can_cast_dtype
              Dtypes.get_minimum_dtype store unit (@Ok unit) covers_point
              [Bare short_line] (Bare flat_multipoint) [Bare (point_at 0 0)]
              (Some [2; 2]) (Int 0) None tt false replace (Int 1) None
              eq_refl eq_refl eq_refl Hok Hbad)
    as (e & ws & _ & _ & _ & Hr).
  pose proof Hr as Hc. vm_compute in Hc. injection Hc as <- <-.
  exact Hr.
Defined.

Lemma geometry_mask_returned_witness :
  exists ws m,
    run_geometry_mask mask_geometries [3; 3] tt false true = (ws, Ok m)
    /\ [3; 3] = [b_height m; b_width m]
    /\ (forall i, In i ws <->
          exists it, nth_error mask_geometries i = Some it
                     /\ is_valid_geom (item_geom it) = Ok false).
Proof.
  destruct (run_geometry_mask mask_geometries [3; 3] tt false true)
    as [ws [m|e]] eqn:Hm; [|discriminate Hm].
  pose proof (geometry_mask_returned
                Dtypes.validate_dtype Dtypes.can_cast_dtype
                Dtypes.get_minimum_dtype store unit (@Ok unit) covers_point
                mask_geometries [3; 3] tt false true ws m Hm)
    as (Hshape & _ & _ & _ & _ & Hws).
  exists ws, m. split; [reflexivity|]. split; [exact Hshape | exact Hws].
Defined.


End Rasterize.

(** ** WindowCalculator: [bounds] and [geometry_window]

    Coordinates are exact rationals: the arithmetic of the functions
    is followed, not the rounding of floats. *)

Module Windows.
Import Py.

(** [affine.Affine]: [(x, y)] goes to [(a x + b y + c, d x + e y + f)]. *)
Record Affine := {
  a : Q; b : Q; c : Q;
  d : Q; e : Q; f : Q
}.

(** [T * (x, y)], also what [(x, y) * T] computes. *)
Definition apply (T : Affine) (p : Q * Q) : Q * Q :=
  (fst p * a T + snd p * b T + c T, fst p * d T + snd p * e T + f T)%Q.

Definition determinant (T : Affine) : Q := (a T * e T - b T * d T)%Q.

(** [~T]. *)
Definition inverse (T : Affine) : result Affine :=
  if Qeq_bool (determinant T) 0 then Raise TransformNotInvertibleError
  else
    let idet := (/ determinant T)%Q in
    let ra := (e T * idet)%Q in
    let rb := (- b T * idet)%Q in
    let rd := (- d T * idet)%Q in
    let re := (a T * idet)%Q in
    Ok {| a := ra; b := rb; c := (- c T * ra - f T * rb)%Q;
          d := rd; e := re; f := (- c T * rd - f T * re)%Q |}.

(** [rasterio.windows.Window]. *)
Record Window := {
  col_off : Q;
  row_off : Q;
  width : Q;
  height : Q
}.

(** The attributes of a dataset the function reads. *)
Record Dataset := {
  ds_width : Z;
  ds_height : Z;
  res : Q * Q;
  transform : Affine
}.

(** Modelled from the spec: [dataset.window(left, bottom, right, top)],
    the window whose corners the transform of the dataset sends to
    [(left, top)] and [(right, bottom)]. *)
Definition window (dataset : Dataset) (left bottom right top : Q)
  : result Window :=
  inv <- inverse (transform dataset) ;;
  let start := apply inv (left, top) in
  let stop := apply inv (right, bottom) in
  Ok {| col_off := fst start; row_off := snd start;
        width := (fst stop - fst start)%Q;
        height := (snd stop - snd start)%Q |}.

(** Python's [round(x)] on an exact number: the nearest integer, the
    even one of the two when [x] is half way. *)
Definition round_half_even (x : Q) : Z :=
  let f := Qfloor x in
  match (x - inject_Z f ?= 1 # 2)%Q with
  | Lt => f
  | Gt => (f + 1)%Z
  | Eq => if Z.even f then f else (f + 1)%Z
  end.

(** [round(x, places)]. *)
Definition round_places (places : Z) (x : Q) : Q :=
  (inject_Z (round_half_even (x * Qpower (inject_Z 10) places))
   / Qpower (inject_Z 10) places)%Q.

(** Modelled from the spec: [round_offsets(op='floor', pixel_precision)]
    of [rasterio.windows], read with the docstring of
    [geometry_window] (lines 358-360: pixel indices, the floor of the
    offsets): each offset is rounded to [pixel_precision] decimal
    places and then floored to a whole pixel,
    [math.floor(round(offset, pixel_precision))]. *)
Definition floor_offsets (w : Window) (pixel_precision : Z) : Window :=
  {| col_off := inject_Z (Qfloor (round_places pixel_precision (col_off w)));
     row_off := inject_Z (Qfloor (round_places pixel_precision (row_off w)));
     width := width w; height := height w |}.

(** Modelled from the spec: [Window.intersection], the common part of
    two windows, a [WindowError] when it is empty. *)
Definition Qlt_bool (x y : Q) : bool := negb (Qle_bool y x).

Definition intersection (w1 w2 : Window) : result Window :=
  let col_start := Qmax (col_off w1) (col_off w2) in
  let row_start := Qmax (row_off w1) (row_off w2) in
  let col_stop := Qmin (col_off w1 + width w1) (col_off w2 + width w2) in
  let row_stop := Qmin (row_off w1 + height w1) (row_off w2 + height w2) in
  if Qlt_bool col_start col_stop && Qlt_bool row_start row_stop then
    Ok {| col_off := col_start; row_off := row_start;
          width := (col_stop - col_start)%Q;
          height := (row_stop - row_start)%Q |}
  else Raise WindowError.

(** [min(xs)] and [max(xs)] of a non-empty tuple. *)
Definition min_of (xs : list Q) : Q :=
  match xs with
  | [] => 0%Q
  | x :: rest => fold_left Qmin rest x
  end.

Definition max_of (xs : list Q) : Q :=
  match xs with
  | [] => 0%Q
  | x :: rest => fold_left Qmax rest x
  end.

(** [tuple(geometry['bbox'])], taken to be a sequence of numbers, as a
    GeoJSON box is.  Line 350 returns the tuple whatever it holds; a
    box that holds anything else than numbers is outside what the
    windows are computed from, and is given a [TypeError] here. *)
Fixpoint numbers (l : list pyval) : result (list Q) :=
  match l with
  | [] => Ok []
  | PNum n :: rest => qs <- numbers rest ;; Ok (to_Q n :: qs)
  | _ => Raise TypeError
  end.

(** The columns [lefts, bottoms, rights, tops] that [zip] makes of the
    tuples of [all_bounds]: the unpacking needs exactly four columns,
    and [zip] cuts to the shortest tuple. *)
Definition column (i : nat) (all_bounds : list (list Q)) : list Q :=
  map (fun t => nth i t 0%Q) all_bounds.

Definition zip4 (all_bounds : list (list Q))
  : result (list Q * list Q * list Q * list Q) :=
  match all_bounds with
  | [] => Raise (ValueError Unpack)
  | t :: rest =>
      if Nat.eqb (fold_left Nat.min (map (@List.length Q) rest)
                            (List.length t)) 4
      then Ok (column 0 all_bounds, column 1 all_bounds,
               column 2 all_bounds, column 3 all_bounds)
      else Raise (ValueError Unpack)
  end.

Fixpoint map_result {A B} (g : A -> result B) (l : list A) : result (list B) :=
  match l with
  | [] => Ok []
  | x :: rest => y <- g x ;; ys <- map_result g rest ;; Ok (y :: ys)
  end.

Section GeometryWindow.

(** The native [_bounds(geom, north_up, transform)] is not among the
    sources, nor is [Window.round_offsets(op='floor', pixel_precision)],
    of which [floor_offsets] is the reading. *)
Variable _bounds : pyval -> bool -> option Affine -> result (list Q).
Variable round_offsets : Window -> Z -> Window.

(** Lines 331-353. *)
Definition bounds (geometry : pyval) (north_up : bool)
    (T : option Affine) : result (list Q) :=
  match geo_interface geometry with
  | PDict kvs =>
      match dict_get "bbox" kvs with
      | Some (PList bbox) => numbers bbox
      | Some _ => Raise TypeError
      | None =>
          let geom :=
            match dict_get "geometry" kvs with
            | Some g => if truthy g then g else PDict kvs
            | None => PDict kvs
            end in
          _bounds geom north_up T
      end
  | PList l =>
      if existsb (is_str "bbox") l then Raise TypeError
      else Raise AttributeError
  | PStr s =>
      if substring "bbox" s then Raise TypeError else Raise AttributeError
  | _ => Raise TypeError
  end.

(** Lines 391-428: the bounds of the shapes, padded, as a window of the
    dataset. *)
Definition pad (p : Q) (pixel : Q) : Q :=
  if Qeq_bool p 0 then p else Qabs (p * pixel).

Definition enclosing_window (dataset : Dataset) (shapes : list pyval)
    (pad_x pad_y : Q) (north_up rotated : bool) : result Window :=
  let pad_x := pad pad_x (fst (res dataset)) in
  let pad_y := pad pad_y (snd (res dataset)) in
  if negb rotated then
    all_bounds <- map_result (fun shape => bounds shape north_up None) shapes ;;
    cols <- zip4 all_bounds ;;
    let '(lefts, bottoms, rights, tops) := cols in
    let left := (min_of lefts - pad_x)%Q in
    let right := (max_of rights + pad_x)%Q in
    let bottom :=
      if north_up then (min_of bottoms - pad_y)%Q
      else (max_of bottoms + pad_y)%Q in
    let top :=
      if north_up then (max_of tops + pad_y)%Q
      else (min_of tops - pad_y)%Q in
    window dataset left bottom right top
  else
    all_bounds_px <-
      map_result (fun shape => inv <- inverse (transform dataset) ;;
                               bounds shape true (Some inv)) shapes ;;
    cols <- zip4 all_bounds_px ;;
    let '(lefts, bottoms, rights, tops) := cols in
    let left := (min_of lefts - pad_x)%Q in
    let right := (max_of rights + pad_x)%Q in
    let top := (min_of tops - pad_y)%Q in
    let bottom := (max_of bottoms + pad_y)%Q in
    let left := Qmax 0 left in
    let top := Qmax 0 top in
    let right := Qmin (inject_Z (ds_width dataset)) right in
    let bottom := Qmin (inject_Z (ds_height dataset)) bottom in
    let left_top := apply (transform dataset) (left, top) in
    let right_bottom := apply (transform dataset) (right, bottom) in
    window dataset (fst left_top) (snd right_bottom)
           (fst right_bottom) (snd left_top).

(** Lines 429-432: offsets floored, width and height raised to cover
    the window. *)
Definition outer_window (w : Window) (pixel_precision : Z) : Window :=
  let window_floored := round_offsets w pixel_precision in
  let w' := Qceiling (width w + col_off w - col_off window_floored) in
  let h' := Qceiling (height w + row_off w - row_off window_floored) in
  {| col_off := col_off window_floored; row_off := row_off window_floored;
     width := inject_Z w'; height := inject_Z h' |}.

Definition raster_window (dataset : Dataset) : Window :=
  {| col_off := 0; row_off := 0;
     width := inject_Z (ds_width dataset);
     height := inject_Z (ds_height dataset) |}.

Definition geometry_window (dataset : Dataset) (shapes : list pyval)
    (pad_x pad_y : Q) (north_up rotated : bool) (pixel_precision : Z)
  : result Window :=
  w <- enclosing_window dataset shapes pad_x pad_y north_up rotated ;;
  intersection (outer_window w pixel_precision) (raster_window dataset).

(** *** Windows as rectangles *)

(** [outer] covers [inner]. *)
Definition contains (outer inner : Window) : Prop :=
  (col_off outer <= col_off inner
   /\ row_off outer <= row_off inner
   /\ col_off inner + width inner <= col_off outer + width outer
   /\ row_off inner + height inner <= row_off outer + height outer)%Q.

(** The two windows are the same rectangle. *)
Definition same_window (w1 w2 : Window) : Prop :=
  (col_off w1 == col_off w2 /\ row_off w1 == row_off w2
   /\ width w1 == width w2 /\ height w1 == height w2)%Q.


Lemma places_positive places : (0 < Qpower (inject_Z 10) places)%Q.
Proof. apply Qpower_0_lt. reflexivity. Qed.



(** Rounding moves a number by half a unit at most. *)
Lemma round_half_even_le x : (inject_Z (round_half_even x) <= x + (1 # 2))%Q.
Proof.
  unfold round_half_even. pose proof (Qfloor_le x) as Hf.
  destruct (Qcompare_spec (x - inject_Z (Qfloor x)) (1 # 2)) as [H|H|H].
  - destruct (Z.even (Qfloor x)); [lra|].
    rewrite inject_Z_plus. change (inject_Z 1) with 1%Q. lra.
  - lra.
  - rewrite inject_Z_plus. change (inject_Z 1) with 1%Q. lra.
Qed.

Lemma round_places_le places x :
  (round_places places x <= x + (1 # 2) / Qpower (inject_Z 10) places)%Q.
Proof.
  unfold round_places. pose proof (places_positive places) as Hs.
  apply Qle_shift_div_r; [exact Hs|].
  setoid_replace ((x + (1 # 2) / Qpower (inject_Z 10) places)
                  * Qpower (inject_Z 10) places)%Q
    with (x * Qpower (inject_Z 10) places + (1 # 2))%Q
    by (field; lra).
  apply round_half_even_le.
Qed.


(** *** Intersection with the raster *)





(** *** Bounds that are the extent of the raster *)







(** *** Shapes that carry their bounding box, and shapes of no use *)

(** A ['bbox'] of numbers is the answer of [bounds], whatever the
    other arguments are. *)
Lemma bounds_bbox geometry north_up T kvs bbox qs :
  geo_interface geometry = PDict kvs ->
  dict_get "bbox" kvs = Some (PList bbox) ->
  numbers bbox = Ok qs ->
  bounds geometry north_up T = Ok qs.
Proof. unfold bounds. intros -> -> ->. reflexivity. Qed.

Lemma pad_opp p pixel : pad (- p) pixel = pad p pixel.
Proof.
  unfold pad.
  replace (Qeq_bool (- p) 0) with (Qeq_bool p 0)
    by (destruct p as [[|n|n] den]; reflexivity).
  destruct (Qeq_bool p 0) eqn:Hz.
  - destruct p as [[|n|n] den]; try discriminate Hz. reflexivity.
  - destruct p as [n den], pixel as [m den']. unfold Qabs, Qmult, Qopp.
    cbn [Qnum Qden]. rewrite Z.mul_opp_l, Z.abs_opp. reflexivity.
Qed.

(** X12.  With no shape at all there is nothing to unpack: the call raises
    a [ValueError], in both branches and whatever the dataset is. *)
Theorem geometry_window_no_shapes dataset pad_x pad_y north_up rotated
    pixel_precision :
  geometry_window dataset [] pad_x pad_y north_up rotated pixel_precision
  = Raise (ValueError Unpack).
Proof.
  unfold geometry_window, enclosing_window. destruct rotated; reflexivity.
Qed.

(** X13.  Only the magnitude of the padding counts: the opposite paddings
    give the same window, or the same exception. *)
Theorem geometry_window_padding_sign dataset shapes pad_x pad_y north_up
    rotated pixel_precision :
  geometry_window dataset shapes (- pad_x) (- pad_y) north_up rotated
                  pixel_precision
  = geometry_window dataset shapes pad_x pad_y north_up rotated
                    pixel_precision.
Proof.
  unfold geometry_window, enclosing_window. rewrite !pad_opp. reflexivity.
Qed.

Lemma fold_min_spec l :
  forall n,
  Forall (fun x => fold_left Nat.min l n <= x) (n :: l)
  /\ In (fold_left Nat.min l n) (n :: l).
Proof.
  induction l as [|x l IH]; intros n; cbn [fold_left].
  - split; [constructor; [lia | constructor] | left; reflexivity].
  - destruct (IH (Nat.min n x)) as [Hle Hin].
    generalize dependent (fold_left Nat.min l (Nat.min n x)). intros m Hle Hin.
    apply Forall_cons_iff in Hle. destruct Hle as [Hm Hle]. split.
    + constructor; [lia|]. constructor; [lia | exact Hle].
    + destruct Hin as [Hin|Hin]; [|right; right; exact Hin].
      destruct (Nat.min_dec n x) as [E|E]; rewrite E in Hin;
        [left | right; left]; exact Hin.
Qed.

(** The unpacking of the columns fails exactly when there is no tuple
    of bounds, one of fewer than four numbers, or none of four. *)
Lemma zip4_cases all_bounds :
  let unfit :=
    Exists (fun t : list Q => List.length t < 4) all_bounds
    \/ Forall (fun t : list Q => 4 < List.length t) all_bounds in
  (zip4 all_bounds = Raise (ValueError Unpack) /\ unfit)
  \/ ((exists cols, zip4 all_bounds = Ok cols) /\ ~ unfit).
Proof.
  cbv zeta. destruct all_bounds as [|t rest].
  { left. split; [reflexivity | right; constructor]. }
  unfold zip4.
  destruct (fold_min_spec (map (@List.length Q) rest) (List.length t))
    as [Hle Hin].
  change (List.length t :: map (@List.length Q) rest)
    with (map (@List.length Q) (t :: rest)) in Hle, Hin.
  rewrite Forall_map in Hle. apply in_map_iff in Hin.
  destruct Hin as (t0 & Ht0 & Hin).
  set (m := fold_left Nat.min (map (@List.length Q) rest) (List.length t)) in *.
  destruct (Nat.eqb m 4) eqn:Hm.
  - apply Nat.eqb_eq in Hm. right. split; [eexists; reflexivity|].
    intros [Hex|Hall].
    + apply Exists_exists in Hex. destruct Hex as (t1 & Hin1 & Hlt).
      rewrite Forall_forall in Hle. specialize (Hle t1 Hin1). lia.
    + rewrite Forall_forall in Hall. specialize (Hall t0 Hin). lia.
  - apply Nat.eqb_neq in Hm. left. split; [reflexivity|].
    destruct (Nat.lt_ge_cases m 4) as [Hlt|Hge].
    + left. apply Exists_exists. exists t0. split; [exact Hin | lia].
    + right. eapply Forall_impl; [|exact Hle]. cbv beta. intros t1 H1. lia.
Qed.

Lemma window_exn dataset left bottom right top e :
  window dataset left bottom right top = Raise e ->
  e = TransformNotInvertibleError.
Proof.
  unfold window, inverse.
  destruct (Qeq_bool (determinant (transform dataset)) 0); cbn [bind];
    [|discriminate].
  intros H. injection H as <-. reflexivity.
Qed.

Lemma intersection_exn w1 w2 e :
  intersection w1 w2 = Raise e -> e = WindowError.
Proof.
  unfold intersection. destruct (_ && _); [discriminate|].
  intros H. injection H as <-. reflexivity.
Qed.

(** X14.  When the bounds of every shape are found, the call fails on the
    unpacking of their columns, with a [ValueError], exactly when some
    tuple of bounds has fewer than four numbers or every one has more
    than four: one tuple of four among longer ones is enough for the
    call to go on, the longer ones being cut to their first four
    numbers. *)
Theorem geometry_window_unpack dataset shapes pad_x pad_y north_up
    (rotated : bool) pixel_precision all_bounds :
  map_result
    (fun shape =>
       if rotated
       then inv <- inverse (transform dataset) ;; bounds shape true (Some inv)
       else bounds shape north_up None) shapes = Ok all_bounds ->
  geometry_window dataset shapes pad_x pad_y north_up rotated pixel_precision
  = Raise (ValueError Unpack)
  <-> (Exists (fun t => List.length t < 4) all_bounds
       \/ Forall (fun t => 4 < List.length t) all_bounds).
Proof.
  intros Hb. unfold geometry_window, enclosing_window.
  destruct rotated; cbn [negb]; rewrite Hb; cbn [bind];
    (destruct (zip4_cases all_bounds) as [[-> Hun]|[[cols ->] Hfit]];
     [split; [intros _; exact Hun | reflexivity]|]);
    destruct cols as [[[lefts bottoms] rights] tops]; cbn [bind];
    (split; [|intros Hun; contradiction]); intros Hr; exfalso.
  - destruct (window dataset _ _ _ _) as [w|e] eqn:Hw; cbn [bind] in Hr.
    + apply intersection_exn in Hr. discriminate.
    + injection Hr as ->. apply window_exn in Hw. discriminate.
  - destruct (window dataset _ _ _ _) as [w|e] eqn:Hw; cbn [bind] in Hr.
    + apply intersection_exn in Hr. discriminate.
    + injection Hr as ->. apply window_exn in Hw. discriminate.
Qed.


End GeometryWindow.

(** *** A raster of 6 by 4 pixels of size 2, north up

    Its extent is [(100, 42, 112, 50)].  The engine of the examples
    knows the bounds of points only; the other geometries carry their
    ['bbox']. *)

Definition point_bounds (geom : pyval) (north_up : bool) (T : option Affine)
  : result (list Q) :=
  match geom with
  | PDict kvs =>
      match dict_get "coordinates" kvs with
      | Some (PList [PNum x; PNum y]) =>
          let p := match T with
                   | Some t => apply t (to_Q x, to_Q y)
                   | None => (to_Q x, to_Q y)
                   end in
          Ok [fst p; snd p; fst p; snd p]
      | _ => Raise TypeError
      end
  | _ => Raise TypeError
  end.

Definition raster_6x4 : Dataset :=
  {| ds_width := 6; ds_height := 4; res := (2, 2)%Q;
     transform := {| a := 2; b := 0; c := 100; d := 0; e := -2; f := 50 |} |}.

Definition boxed (bbox : list Z) : pyval :=
  PDict [("type", PStr "Polygon");
         ("bbox", PList (map (fun z => PNum (Int z)) bbox))].

(** *** The window of whole pixels *)

Lemma floor_below (z : Q) (n : Z) :
  (z < inject_Z n)%Q -> (Qfloor z < n)%Z.
Proof.
  intros H. rewrite Zlt_Qlt.
  eapply Qle_lt_trans; [apply Qfloor_le | exact H].
Qed.

(** An offset whose fractional part stays clear of the last half unit
    is not exceeded by its rounded and floored value. *)
Lemma floor_round_le places x :
  (x - inject_Z (Qfloor x) < 1 - (1 # 2) / Qpower (inject_Z 10) places)%Q ->
  (inject_Z (Qfloor (round_places places x)) <= x)%Q.
Proof.
  intros Hfrac. pose proof (round_places_le places x) as Hr.
  assert (Hlt : (Qfloor (round_places places x) < Qfloor x + 1)%Z).
  { apply floor_below. rewrite inject_Z_plus.
    change (inject_Z 1) with 1%Q. lra. }
  apply Qle_trans with (inject_Z (Qfloor x)); [|apply Qfloor_le].
  rewrite <- Zle_Qle. lia.
Qed.

(** The amended C5.  Whatever window [w] the bounds of the shapes
    give, in the rotated branch or not, the window that
    [geometry_window] intersects with the raster is made of the
    offsets [round_offsets] returns and of the ceilings of the width
    and the height corrected by what the rounding took.  Its right and
    bottom edges are not smaller than those of [w], whatever
    [round_offsets] does.  Its offsets are the whole pixels below the
    offsets of [w] rounded to [pixel_precision] places: they exceed
    the offsets of [w] by half a unit of the last place at most, and
    do not exceed them, so that the window covers [w], when the
    fractional parts of the offsets of [w] are below one minus that
    half unit. *)
Theorem outer_window_contains_window :
  (forall round_offsets w pixel_precision,
      (col_off w + width w
       <= col_off (outer_window round_offsets w pixel_precision)
          + width (outer_window round_offsets w pixel_precision)
       /\ row_off w + height w
          <= row_off (outer_window round_offsets w pixel_precision)
             + height (outer_window round_offsets w pixel_precision))%Q)
  /\ (forall w pixel_precision,
        let outer := outer_window floor_offsets w pixel_precision in
        let half := ((1 # 2) / Qpower (inject_Z 10) pixel_precision)%Q in
        col_off outer
        = inject_Z (Qfloor (round_places pixel_precision (col_off w)))
        /\ row_off outer
           = inject_Z (Qfloor (round_places pixel_precision (row_off w)))
        /\ (col_off outer <= col_off w + half)%Q
        /\ (row_off outer <= row_off w + half)%Q
        /\ ((col_off w - inject_Z (Qfloor (col_off w)) < 1 - half)%Q ->
            (row_off w - inject_Z (Qfloor (row_off w)) < 1 - half)%Q ->
            contains outer w))
  /\ (forall _bounds round_offsets dataset shapes pad_x pad_y north_up rotated
             pixel_precision,
        geometry_window _bounds round_offsets dataset shapes pad_x pad_y
                        north_up rotated pixel_precision
        = (w <- enclosing_window _bounds dataset shapes pad_x pad_y north_up
                                 rotated ;;
           intersection (outer_window round_offsets w pixel_precision)
                        (raster_window dataset))).
Proof.
  assert (Hedges : forall round_offsets w p,
    (col_off w + width w
     <= col_off (outer_window round_offsets w p)
        + width (outer_window round_offsets w p)
     /\ row_off w + height w
        <= row_off (outer_window round_offsets w p)
           + height (outer_window round_offsets w p))%Q).
  { intros round_offsets w p. unfold outer_window.
    cbn [col_off row_off width height].
    pose proof (Qle_ceiling (width w + col_off w
                             - col_off (round_offsets w p))) as Hw.
    pose proof (Qle_ceiling (height w + row_off w
                             - row_off (round_offsets w p))) as Hh.
    split; lra. }
  split; [exact Hedges|]. split; [|reflexivity].
  intros w p outer half.
  split; [reflexivity|]. split; [reflexivity|].
  assert (Hc : (col_off outer <= col_off w + half)%Q).
  { unfold outer, outer_window, floor_offsets. cbn [col_off].
    eapply Qle_trans; [apply Qfloor_le | apply round_places_le]. }
  assert (Hr : (row_off outer <= row_off w + half)%Q).
  { unfold outer, outer_window, floor_offsets. cbn [row_off].
    eapply Qle_trans; [apply Qfloor_le | apply round_places_le]. }
  split; [exact Hc|]. split; [exact Hr|].
  intros Hfc Hfr. destruct (Hedges floor_offsets w p) as [He1 He2].
  unfold contains. fold outer in He1, He2.
  split; [|split; [|split; assumption]].
  - unfold outer, outer_window, floor_offsets. cbn [col_off].
    apply floor_round_le. exact Hfc.
  - unfold outer, outer_window, floor_offsets. cbn [row_off].
    apply floor_round_le. exact Hfr.
Qed.

(** A window at column 2.996 and row 1.5, 3.2 wide and 2 high: its
    offsets floor to 2 and 1, and five columns and three rows from
    there cover it. *)
Definition window_2996 : Window :=
  {| col_off := 2996 # 1000; row_off := 15 # 10;
     width := 32 # 10; height := 2 |}.

Lemma outer_window_contains_window_witness :
  contains (outer_window floor_offsets window_2996 3) window_2996
  /\ same_window (outer_window floor_offsets window_2996 3)
                 {| col_off := 2; row_off := 1; width := 5; height := 3 |}.
Proof.
  split.
  - apply (proj2 (proj2 (proj2 (proj2
             (proj1 (proj2 outer_window_contains_window) window_2996 3%Z)))));
      reflexivity.
  - vm_compute. repeat split; reflexivity.
Defined.

(** A window at column 2.9996: to three places the column rounds to 3,
    and the window of whole pixels starts at 3, right of the window it
    is made from.  C5 as the spec states it fails there. *)
Definition window_29996 : Window :=
  {| col_off := 29996 # 10000; row_off := 15 # 10;
     width := 32 # 10; height := 2 |}.

Lemma outer_window_misses_window :
  same_window (outer_window floor_offsets window_29996 3)
              {| col_off := 3; row_off := 1; width := 4; height := 3 |}
  /\ (col_off window_29996
      < col_off (outer_window floor_offsets window_29996 3))%Q
  /\ ~ contains (outer_window floor_offsets window_29996 3) window_29996.
Proof.
  split; [vm_compute; repeat split; reflexivity|].
  split; [reflexivity|].
  intros [H _]. vm_compute in H. apply H. reflexivity.
Qed.


(** A shape that carries a bounding box of numbers. *)
Definition has_bbox (shape : pyval) : Prop :=
  exists kvs bbox qs,
    geo_interface shape = PDict kvs
    /\ dict_get "bbox" kvs = Some (PList bbox)
    /\ numbers bbox = Ok qs.

Lemma map_result_ext {A B} (g1 g2 : A -> result B) l :
  Forall (fun x => g1 x = g2 x) l -> map_result g1 l = map_result g2 l.
Proof.
  induction 1 as [|x l Hx _ IH]; [reflexivity|].
  cbn [map_result]. rewrite Hx, IH. reflexivity.
Qed.

(** X15.  When every shape carries a ['bbox'] of numbers, the native
    [_bounds] is never asked: the window, or the exception, is the
    same whatever [_bounds] would answer, the geometries themselves
    are not looked at, and in the rotated branch the boxes are taken
    as they stand, the inverse transform not being applied to them. *)
Theorem geometry_window_bbox_only
    (_bounds1 _bounds2 : pyval -> bool -> option Affine -> result (list Q))
    round_offsets dataset shapes pad_x pad_y north_up rotated
    pixel_precision :
  Forall has_bbox shapes ->
  geometry_window _bounds1 round_offsets dataset shapes pad_x pad_y north_up
                  rotated pixel_precision
  = geometry_window _bounds2 round_offsets dataset shapes pad_x pad_y
                    north_up rotated pixel_precision
  /\ forall T north_up',
       map_result (fun shape => bounds _bounds1 shape north_up' T) shapes
       = map_result (fun shape => bounds _bounds2 shape true None) shapes.
Proof.
  intros Hbox.
  assert (Hb : forall nu nu' T T',
             Forall (fun shape => bounds _bounds1 shape nu T
                                  = bounds _bounds2 shape nu' T') shapes).
  { intros nu nu' T T'. eapply Forall_impl; [|exact Hbox]. cbv beta.
    intros shape (kvs & bbox & qs & Hg & Hk & Hn).
    rewrite (bounds_bbox _bounds1 _ _ _ _ _ _ Hg Hk Hn).
    rewrite (bounds_bbox _bounds2 _ _ _ _ _ _ Hg Hk Hn). reflexivity. }
  split; [|intros T nu'; apply map_result_ext, Hb].
  unfold geometry_window, enclosing_window. destruct rotated; cbn [negb].
  - rewrite (map_result_ext
               (fun shape => inv <- inverse (transform dataset) ;;
                             bounds _bounds1 shape true (Some inv))
               (fun shape => inv <- inverse (transform dataset) ;;
                             bounds _bounds2 shape true (Some inv)));
      [reflexivity|].
    destruct (inverse (transform dataset)) as [inv|e]; cbn [bind].
    + apply Hb.
    + apply Forall_forall. reflexivity.
  - rewrite (map_result_ext
               (fun shape => bounds _bounds1 shape north_up None)
               (fun shape => bounds _bounds2 shape north_up None));
      [reflexivity | apply Hb].
Qed.

Lemma geometry_window_bbox_only_witness :
  geometry_window point_bounds floor_offsets raster_6x4
                  [boxed [100; 42; 112; 50]%Z] 0 0 true false 3
  = geometry_window (fun _ _ _ => Raise TypeError) floor_offsets raster_6x4
                    [boxed [100; 42; 112; 50]%Z] 0 0 true false 3.
Proof.
  apply (geometry_window_bbox_only point_bounds (fun _ _ _ => Raise TypeError)
           floor_offsets raster_6x4 [boxed [100; 42; 112; 50]%Z] 0 0 true
           false 3).
  apply Forall_cons; [|apply Forall_nil].
  eexists _, _, _. repeat split; reflexivity.
Defined.

(** A box of six numbers, as a geometry of three dimensions carries,
    gives six columns where four are unpacked; next to a box of four
    it is cut to its first four numbers. *)
Lemma geometry_window_unpack_witness :
  geometry_window point_bounds floor_offsets raster_6x4
                  [boxed [100; 42; 0; 112; 50; 9]%Z] 0 0 true false 3
  = Raise (ValueError Unpack)
  /\ exists win,
       geometry_window point_bounds floor_offsets raster_6x4
                       [boxed [100; 42; 0; 112; 50; 9]%Z;
                        boxed [102; 44; 106; 48]%Z] 0 0 true false 3
       = Ok win.
Proof.
  split.
  - apply (proj2 (geometry_window_unpack point_bounds floor_offsets raster_6x4
                    [boxed [100; 42; 0; 112; 50; 9]%Z] 0 0 true false 3
                    [[100; 42; 0; 112; 50; 9]%Q] eq_refl)).
    right. apply Forall_cons; [cbn; lia | apply Forall_nil].
  - destruct (geometry_window point_bounds floor_offsets raster_6x4
                [boxed [100; 42; 0; 112; 50; 9]%Z; boxed [102; 44; 106; 48]%Z]
                0 0 true false 3) as [win|e] eqn:Hw;
      [exists win; reflexivity|].
    exfalso. vm_compute in Hw. discriminate Hw.
Defined.


End Windows.

(** ** FeatureExtractionPipeline: the decimation of [dataset_features]

    Here the numbers are Python floats, binary64, with their
    rounding. *)

Module Features.
Import Py.
Open Scope float_scope.

(** [float(z)] for an [int] below [2^63] in magnitude. *)
Definition of_int (z : Z) : float :=
  if (z <? 0)%Z then - of_uint63 (Uint63.of_Z (- z))
  else of_uint63 (Uint63.of_Z z).

(** [x / y] on two [int]s in Python 3, the float nearest to the
    quotient; the two are taken below [2^53] in magnitude. *)
Definition truediv (x y : Z) : result float :=
  if (y =? 0)%Z then Raise ZeroDivisionError
  else Ok (of_int x / of_int y).

(** A finite float as [m * 2^e]. *)
Definition parts (x : float) : option (Z * Z) :=
  match Prim2SF x with
  | S754_zero _ => Some (0, 0)%Z
  | S754_finite s m e => Some (if s then Zneg m else Zpos m, e)
  | _ => None
  end.

(** [math.ceil(x)]. *)
Definition math_ceil (x : float) : result Z :=
  match parts x with
  | Some (m, e) =>
      Ok (if (0 <=? e)%Z then m * 2 ^ e else - ((- m) / 2 ^ (- e)))%Z
  | None =>
      if is_nan x then Raise (ValueError NanToInteger) else Raise OverflowError
  end.

(** C's [fmod(x, y)]: the exact remainder of the division truncated
    toward zero, with the sign of [x]. *)
Definition fmod (x y : float) : float :=
  match parts x, parts y with
  | Some (mx, ex), Some (my, ey) =>
      let e := Z.min ex ey in
      let r := Z.rem (mx * 2 ^ (ex - e)) (my * 2 ^ (ey - e)) in
      SF2Prim (binary_normalize prec emax r e false)
  | Some _, None => if is_nan y then nan else x
  | None, _ => nan
  end.

(** [x % y] on floats: [fmod], moved by [y] when its sign is not that
    of [y]. *)
Definition float_mod (x y : float) : result float :=
  if y =? 0 then Raise ZeroDivisionError
  else
    let md := fmod x y in
    if md =? 0 then Ok md
    else if Bool.eqb (y <? 0) (md <? 0) then Ok md
    else Ok (md + y).

(** [affine.Affine] on floats. *)
Record Affine := {
  a : float; b : float; c : float;
  d : float; e : float; f : float
}.

Definition translation (xoff yoff : float) : Affine :=
  {| a := 1; b := 0; c := xoff; d := 0; e := 1; f := yoff |}.

Definition scale (sx sy : float) : Affine :=
  {| a := sx; b := 0; c := 0; d := 0; e := sy; f := 0 |}.

(** [S * O] on two transforms. *)
Definition mul (S O : Affine) : Affine :=
  {| a := a S * a O + b S * d O;
     b := a S * b O + b S * e O;
     c := a S * c O + b S * f O + c S;
     d := d S * a O + e S * d O;
     e := d S * b O + e S * e O;
     f := d S * c O + e S * f O + f S |}.

(** [T * (col, row)], the world coordinates of a pixel corner. *)
Definition apply (T : Affine) (col row : Z) : float * float :=
  (of_int col * a T + of_int row * b T + c T,
   of_int col * d T + of_int row * e T + f T).

Record Dataset := {
  height : Z;
  width : Z;
  transform : Affine
}.

(** Lines 583-599 of [dataset_features]: the shape to decimate to,
    when [sampling > 1], and the transform handed to [shapes]. *)
Definition dataset_features_transform (src : Dataset) (sampling : Z)
  : result (option (Z * Z) * Affine) :=
  if (sampling >? 1)%Z then
    h <- (q <- truediv (height src) sampling ;; math_ceil q) ;;
    w <- (q <- truediv (width src) sampling ;; math_ceil q) ;;
    x_sampling <- truediv (width src) w ;;
    y_sampling <- truediv (height src) h ;;
    xoff <- float_mod (of_int (width src)) x_sampling ;;
    yoff <- float_mod (of_int (height src)) y_sampling ;;
    let T := mul (transform src) (translation xoff yoff) in
    let T := mul T (scale x_sampling y_sampling) in
    Ok (Some (h, w), T)
  else Ok (None, transform src).

(** A raster of 10 by 10 pixels of 30 m. *)
Definition raster_10x10 : Dataset :=
  {| height := 10; width := 10;
     transform := {| a := 30; b := 0; c := 500000;
                     d := 0; e := -30; f := 4000000 |} |}.

(** C6 at [sampling = 4]: the shape is 3 by 3, the ceilings of 10/4,
    but [10 % (10 / 3)] is [3.333333333333333], not 0, and the
    transform is moved by one decimated pixel: the first corner goes
    to [(500100, 3999900)] instead of [(500000, 4000000)], the last
    one to [(500400, 3999600)] instead of [(500300, 3999700)]. *)
Lemma dataset_features_transform_shifted :
  float_mod (of_int 10) (10 / 3) = Ok 0x1.aaaaaaaaaaaaap+1
  /\ dataset_features_transform raster_10x10 4
     = Ok (Some (3, 3)%Z,
           {| a := 100; b := 0; c := 500100;
              d := 0; e := -100; f := 3999900 |})
  /\ apply (transform raster_10x10) 0 0 = (500000, 4000000)
  /\ apply {| a := 100; b := 0; c := 500100;
              d := 0; e := -100; f := 3999900 |} 0 0 = (500100, 3999900)
  /\ apply (transform raster_10x10) 10 10 = (500300, 3999700)
  /\ apply {| a := 100; b := 0; c := 500100;
              d := 0; e := -100; f := 3999900 |} 3 3 = (500400, 3999600).
Proof. repeat split; vm_compute; reflexivity. Qed.

(** At [sampling = 5] the division is exact and nothing moves. *)
Lemma dataset_features_transform_exact :
  dataset_features_transform raster_10x10 5
  = Ok (Some (2, 2)%Z,
        {| a := 150; b := 0; c := 500000;
           d := 0; e := -150; f := 4000000 |})
  /\ apply {| a := 150; b := 0; c := 500000;
              d := 0; e := -150; f := 4000000 |} 2 2
     = apply (transform raster_10x10) 10 10.
Proof. split; vm_compute; reflexivity. Qed.

End Features.

(** ** The features [dataset_features] yields

    Lines 650-667: the loop over what [shapes] finds in the image.
    Coordinates are exact rationals, as for the windows. *)

Module Records.
Import Py.

(** [str(i)] for a natural number. *)
Definition str_of_nat (i : nat) : string :=
  NilEmpty.string_of_uint (Nat.to_uint i).

(** ["{0}:{1}".format(src_basename, i)]. *)
Definition feature_id (src_basename : string) (i : nat) : string :=
  String.append src_basename (String.append ":" (str_of_nat i)).

(** The columns [xs, ys] that [zip] makes of the coordinate tuples:
    the unpacking needs exactly two. *)
Definition zip2 (points : list (list Q)) : result (list Q * list Q) :=
  match points with
  | [] => Raise (ValueError Unpack)
  | t :: rest =>
      if Nat.eqb (fold_left Nat.min (map (@List.length Q) rest)
                            (List.length t)) 2
      then Ok (Windows.column 0 points, Windows.column 1 points)
      else Raise (ValueError Unpack)
  end.

(** Lines 658-667: the mapping that is yielded.  The coordinates are
    floats, as [shapes] and [transform_geom] give them, and so are the
    entries of the box. *)
Definition feature (src_basename : string) (i : nat) (g : pyval)
    (val : number) (xs ys : list Q) : pyval :=
  PDict [("type", PStr "Feature");
         ("id", PStr (feature_id src_basename i));
         ("properties", PDict [("val", PNum val);
                               ("filename", PStr src_basename)]);
         ("bbox", PList [PNum (Flt (Windows.min_of xs));
                         PNum (Flt (Windows.min_of ys));
                         PNum (Flt (Windows.max_of xs));
                         PNum (Flt (Windows.max_of ys))]);
         ("geometry", g)].

Definition feature_key (k : string) (f : pyval) : option pyval :=
  match f with
  | PDict kvs => dict_get k kvs
  | _ => None
  end.

Section Loop.

(** [warp.transform_geom(src.crs, 'EPSG:4326', g, ...)] and the
    [coords] of [rasterio.rio.helpers], which yields the coordinate
    tuples of a geometry, are not among the sources. *)
Variable transform_geom : pyval -> result pyval.
Variable coords : pyval -> result (list (list Q)).

(** Lines 653-667, one turn of the loop. *)
Definition make_feature (src_basename : string) (geographic : bool)
    (i : nat) (g : pyval) (val : number) : result pyval :=
  g' <- (if geographic then transform_geom g else Ok g) ;;
  points <- coords g' ;;
  cols <- zip2 points ;;
  Ok (feature src_basename i g' val (fst cols) (snd cols)).

(** The generator: the features yielded, in order, and the exception
    that ended it, if one did. *)
Fixpoint features_loop (src_basename : string) (geographic : bool)
    (found : list (nat * (pyval * number))) : list pyval * option exn :=
  match found with
  | [] => ([], None)
  | (i, (g, val)) :: rest =>
      match make_feature src_basename geographic i g val with
      | Ok f =>
          let later := features_loop src_basename geographic rest in
          (f :: fst later, snd later)
      | Raise e => ([], Some e)
      end
  end.

(** Lines 650-667, for the list of [(g, val)] that [shapes] yields. *)
Definition dataset_features_yield (src_basename : string) (geographic : bool)
    (found : list (pyval * number)) : list pyval * option exn :=
  features_loop src_basename geographic (Rasterize.enumerate found).

(** *** What is yielded *)

Lemma fold_Qmin_below l :
  forall a,
  (fold_left Qmin l a <= a)%Q
  /\ Forall (fun x => (fold_left Qmin l a <= x)%Q) l.
Proof.
  induction l as [|x l IH]; intros a; cbn [fold_left].
  - split; [apply Qle_refl | constructor].
  - destruct (IH (Qmin a x)) as [Hm Hl]. split.
    + eapply Qle_trans; [exact Hm | apply Q.le_min_l].
    + constructor; [|exact Hl].
      eapply Qle_trans; [exact Hm | apply Q.le_min_r].
Qed.

Lemma fold_Qmax_above l :
  forall a,
  (a <= fold_left Qmax l a)%Q
  /\ Forall (fun x => (x <= fold_left Qmax l a)%Q) l.
Proof.
  induction l as [|x l IH]; intros a; cbn [fold_left].
  - split; [apply Qle_refl | constructor].
  - destruct (IH (Qmax a x)) as [Hm Hl]. split.
    + eapply Qle_trans; [apply Q.le_max_l | exact Hm].
    + constructor; [|exact Hl].
      eapply Qle_trans; [apply Q.le_max_r | exact Hm].
Qed.

Lemma min_max_of xs x :
  In x xs -> (Windows.min_of xs <= x <= Windows.max_of xs)%Q.
Proof.
  destruct xs as [|a rest]; [intros []|].
  unfold Windows.min_of, Windows.max_of.
  destruct (fold_Qmin_below rest a) as [Hmin Hmins].
  destruct (fold_Qmax_above rest a) as [Hmax Hmaxs].
  rewrite Forall_forall in Hmins, Hmaxs.
  intros [<-|Hin]; split; auto.
Qed.

Lemma in_column i (points : list (list Q)) pt :
  In pt points -> In (nth i pt 0%Q) (Windows.column i points).
Proof.
  intros H. unfold Windows.column.
  apply (in_map (fun t => nth i t 0%Q)). exact H.
Qed.

(** The [k]-th feature yielded is made from the [k]-th item found. *)
Lemma features_loop_nth src_basename geographic found :
  forall start k f,
  nth_error (fst (features_loop src_basename geographic
                    (combine (seq start (List.length found)) found))) k
  = Some f ->
  exists g val,
    nth_error found k = Some (g, val)
    /\ make_feature src_basename geographic (start + k) g val = Ok f.
Proof.
  induction found as [|[g val] rest IH]; intros start k f.
  - destruct k; discriminate.
  - cbn [List.length seq combine features_loop].
    destruct (make_feature src_basename geographic start g val) as [f0|e]
      eqn:Hf; cbn [fst]; [|destruct k; discriminate].
    destruct k as [|k]; cbn [nth_error].
    + intros H. injection H as <-. exists g, val.
      rewrite Nat.add_0_r. auto.
    + intros H. destruct (IH _ _ _ H) as (g' & val' & Hn & Hm).
      exists g', val'. rewrite Nat.add_succ_r. auto.
Qed.

(** A generator that is not ended by an exception has yielded one
    feature for each item found. *)
Lemma features_loop_complete src_basename geographic found :
  forall start,
  snd (features_loop src_basename geographic
         (combine (seq start (List.length found)) found)) = None ->
  List.length (fst (features_loop src_basename geographic
                      (combine (seq start (List.length found)) found)))
  = List.length found.
Proof.
  induction found as [|[g val] rest IH]; intros start; [reflexivity|].
  cbn [List.length seq combine features_loop].
  destruct (make_feature src_basename geographic start g val) as [f0|e];
    cbn [fst snd]; [|discriminate].
  intros H. cbn [List.length]. rewrite (IH _ H). reflexivity.
Qed.

Lemma make_feature_inv src_basename geographic i g val f :
  make_feature src_basename geographic i g val = Ok f ->
  exists g' points,
    (if geographic then transform_geom g else Ok g) = Ok g'
    /\ coords g' = Ok points
    /\ points <> []
    /\ f = feature src_basename i g' val (Windows.column 0 points)
                   (Windows.column 1 points).
Proof.
  unfold make_feature.
  destruct (if geographic then transform_geom g else Ok g) as [g'|e];
    cbn [bind]; [|discriminate].
  destruct (coords g') as [points|e] eqn:Hc; cbn [bind]; [|discriminate].
  unfold zip2. destruct points as [|t rest]; cbn [bind]; [discriminate|].
  destruct (Nat.eqb _ 2); cbn [bind fst snd]; [|discriminate].
  intros H. injection H as H. subst f. exists g', (t :: rest).
  split; [reflexivity|]. split; [exact Hc|].
  split; [discriminate | reflexivity].
Qed.

Lemma string_append_inj (p a b : string) :
  String.append p a = String.append p b -> a = b.
Proof.
  induction p as [|c p IH]; cbn [String.append]; [auto|].
  intros H. injection H as H. auto.
Qed.

Lemma feature_id_inj src_basename i j :
  feature_id src_basename i = feature_id src_basename j -> i = j.
Proof.
  unfold feature_id, str_of_nat. intros H.
  apply string_append_inj, string_append_inj in H.
  apply (f_equal NilEmpty.uint_of_string) in H.
  rewrite !NilEmpty.usu in H. injection H as H.
  apply (f_equal Nat.of_uint) in H.
  rewrite !DecimalNat.Unsigned.of_to in H. exact H.
Qed.

(** X16.  Every feature yielded carries the geometry of an item found,
    reprojected when [geographic] is set, and a ['bbox'] that encloses
    every coordinate tuple of that geometry; [bounds] applied to the
    feature gives this box back, whatever its other arguments are and
    without asking the native [_bounds]. *)
Theorem dataset_features_bbox_encloses src_basename geographic found f :
  In f (fst (dataset_features_yield src_basename geographic found)) ->
  exists g val g' points left bottom right top,
    In (g, val) found
    /\ (if geographic then transform_geom g else Ok g) = Ok g'
    /\ coords g' = Ok points
    /\ feature_key "geometry" f = Some g'
    /\ feature_key "bbox" f
       = Some (PList [PNum (Flt left); PNum (Flt bottom);
                      PNum (Flt right); PNum (Flt top)])
    /\ (forall _bounds north_up T,
          Windows.bounds _bounds f north_up T
          = Ok [left; bottom; right; top])
    /\ forall pt, In pt points ->
         (left <= nth 0 pt 0 <= right /\ bottom <= nth 1 pt 0 <= top)%Q.
Proof.
  intros Hin. apply In_nth_error in Hin. destruct Hin as [k Hk].
  unfold dataset_features_yield, Rasterize.enumerate in Hk.
  destruct (features_loop_nth _ _ _ _ _ _ Hk) as (g & val & Hn & Hm).
  destruct (make_feature_inv _ _ _ _ _ _ Hm) as (g' & points & Hg & Hc & _ & ->).
  exists g, val, g', points.
  exists (Windows.min_of (Windows.column 0 points)),
         (Windows.min_of (Windows.column 1 points)),
         (Windows.max_of (Windows.column 0 points)),
         (Windows.max_of (Windows.column 1 points)).
  split; [eapply nth_error_In; exact Hn|].
  split; [exact Hg|]. split; [exact Hc|].
  split; [reflexivity|]. split; [reflexivity|]. split; [reflexivity|].
  intros pt Hpt. split; apply min_max_of, in_column, Hpt.
Qed.

(** X17.  The features come in the order of the items found, the [k]-th
    one with the id [basename:k] and the value and the file name of
    its item under ['properties']; two features yielded at different
    places have different ids; and a generator that no exception ends
    has yielded a feature for every item. *)
Theorem dataset_features_ids src_basename geographic found :
  let yielded := dataset_features_yield src_basename geographic found in
  (forall k f,
      nth_error (fst yielded) k = Some f ->
      exists g val,
        nth_error found k = Some (g, val)
        /\ feature_key "type" f = Some (PStr "Feature")
        /\ feature_key "id" f = Some (PStr (feature_id src_basename k))
        /\ feature_key "properties" f
           = Some (PDict [("val", PNum val);
                          ("filename", PStr src_basename)]))
  /\ (forall i j fi fj,
        nth_error (fst yielded) i = Some fi ->
        nth_error (fst yielded) j = Some fj ->
        feature_key "id" fi = feature_key "id" fj -> i = j)
  /\ (snd yielded = None ->
      List.length (fst yielded) = List.length found).
Proof.
  intros yielded.
  assert (Hnth : forall k f,
             nth_error (fst yielded) k = Some f ->
             exists g val,
               nth_error found k = Some (g, val)
               /\ feature_key "type" f = Some (PStr "Feature")
               /\ feature_key "id" f = Some (PStr (feature_id src_basename k))
               /\ feature_key "properties" f
                  = Some (PDict [("val", PNum val);
                                 ("filename", PStr src_basename)])).
  { intros k f Hk.
    unfold yielded, dataset_features_yield, Rasterize.enumerate in Hk.
    destruct (features_loop_nth _ _ _ _ _ _ Hk) as (g & val & Hn & Hm).
    destruct (make_feature_inv _ _ _ _ _ _ Hm)
      as (g' & points & _ & _ & _ & ->).
    exists g, val. repeat split; [exact Hn | reflexivity..]. }
  split; [exact Hnth|]. split.
  - intros i j fi fj Hi Hj Hid.
    destruct (Hnth _ _ Hi) as (_ & _ & _ & _ & Hidi & _).
    destruct (Hnth _ _ Hj) as (_ & _ & _ & _ & Hidj & _).
    rewrite Hidi, Hidj in Hid. injection Hid as Hid.
    exact (feature_id_inj _ _ _ Hid).
  - apply features_loop_complete.
Qed.


End Loop.

(** *** Two lines found in a file

    In the examples [coords] reads the coordinates of a LineString and
    nothing is reprojected. *)

Definition line_coords (g : pyval) : result (list (list Q)) :=
  match g with
  | PDict kvs =>
      match dict_get "coordinates" kvs with
      | Some (PList points) =>
          Windows.map_result
            (fun p => match p with
                      | PList l => Windows.numbers l
                      | _ => Raise TypeError
                      end) points
      | Some _ => Raise TypeError
      | None => Raise KeyError
      end
  | _ => Raise TypeError
  end.

Definition line (x0 y0 x1 y1 : Z) : pyval :=
  PDict [("type", PStr "LineString");
         ("coordinates", PList [PList [PNum (Int x0); PNum (Int y0)];
                                PList [PNum (Int x1); PNum (Int y1)]])].

Definition two_lines : list (pyval * number) :=
  [(line 0 3 2 0, Int 5); (line 1 (-1) 4 2, Int 7)].

Definition run_dataset_features :=
  dataset_features_yield (@Ok pyval) line_coords "scene.tif" true two_lines.

Lemma dataset_features_bbox_encloses_witness :
  exists g val g' points left bottom right top,
    In (g, val) two_lines
    /\ Ok g = Ok g'
    /\ line_coords g' = Ok points
    /\ feature_key "geometry"
         (feature "scene.tif" 0 (line 0 3 2 0) (Int 5) [0; 2]%Q [3; 0]%Q)
       = Some g'
    /\ feature_key "bbox"
         (feature "scene.tif" 0 (line 0 3 2 0) (Int 5) [0; 2]%Q [3; 0]%Q)
       = Some (PList [PNum (Flt left); PNum (Flt bottom);
                      PNum (Flt right); PNum (Flt top)])
    /\ (forall _bounds north_up T,
          Windows.bounds _bounds
            (feature "scene.tif" 0 (line 0 3 2 0) (Int 5) [0; 2]%Q [3; 0]%Q)
            north_up T
          = Ok [left; bottom; right; top])
    /\ forall pt, In pt points ->
         (left <= nth 0 pt 0 <= right /\ bottom <= nth 1 pt 0 <= top)%Q.
Proof.
  apply (dataset_features_bbox_encloses (@Ok pyval) line_coords "scene.tif"
           true two_lines
           (feature "scene.tif" 0 (line 0 3 2 0) (Int 5) [0; 2]%Q [3; 0]%Q)).
  left. reflexivity.
Defined.

Lemma dataset_features_ids_witness :
  List.length (fst run_dataset_features) = 2
  /\ exists g val,
       nth_error two_lines 1 = Some (g, val)
       /\ feature_key "id"
            (feature "scene.tif" 1 (line 1 (-1) 4 2) (Int 7) [1; 4]%Q
                     [-1; 2]%Q)
          = Some (PStr "scene.tif:1").
Proof.
  destruct (dataset_features_ids (@Ok pyval) line_coords "scene.tif" true
              two_lines) as (Hnth & _ & Hlen).
  split; [exact (Hlen eq_refl)|].
  destruct (Hnth 1 (feature "scene.tif" 1 (line 1 (-1) 4 2) (Int 7)
                            [1; 4]%Q [-1; 2]%Q) eq_refl)
    as (g & val & Hn & _ & Hid & _).
  exists g, val. split; [exact Hn | exact Hid].
Defined.


End Records.
